(* ===== verification/_CoqProject ===== *)
-Q . S2P
Prelude.v
Num.v
NumPy.v
PeakSearch.v
ZeroFilling.v
Apodization.v
Sweeps.v
State.v
Phase.v
SingleSweep.v
Widget.v
OWBin.v
Progress.v
Refinement.v
Controls.v
