(* ===== verification/Prelude.v ===== *)
(** * A verification library for orange-spectroscopy's interferogram-to-spectrum widget

    The program.  [src/orangecontrib/infrared/widgets/owfft.py] defines the
    Orange widget [OWFFT] ("Interferogram to Spectrum").  Its state is the
    widget object [self]: the settings ([dx], [dx_HeNe], [apod_func], [zff],
    [phase_res_limit], [phase_resolution], [limit_output], [out_limit1],
    [out_limit2], ...), the input table [self.data], the detected sweep mode
    [self.sweeps], the shared wavenumber axis [self.wavenumbers], the stacked
    [self.spectra], the message slots [error(1)], [error(2)], [warning(4)],
    the enabled state of its controls, the Info box and the output channel
    "Spectra".  The handlers [set_data],
    [setting_changed], [out_limit_changed] and [dx_changed] call [commit],
    which calls [calculateFFT]; that loops over the rows and calls
    [fft_single_sweep] on every sweep.  [fft_single_sweep] composes
    [peak_search] (argmax), [apodization], [zero_filling], [wavenumber_set]
    (computed once per run and then shared), [compute_phase] (Mertz phase
    from a short double-sided interferogram) and the Mertz correction
    [cos(phase) * Re + sin(phase) * Im] of the real FFT.
    [src/orangecontrib/spectroscopy/widgets/owbin.py] is a second widget
    ([OWBin], "Bin") that bins a hyperspectral table by two axis variables
    in blocks; its numerical work is [bin_hypercube], which lives outside
    [src/].  Both widgets wrap their [commit] in Orange's [gui.auto_commit]:
    a handler's commit runs only while the "autocommit" box is checked and
    otherwise marks the output as pending; the button always commits.

    The library (files in dependency order, see _CoqProject):
    - [Prelude]: Python exceptions as the values of [py_error] ([ValueError]s
      are recognised by [is_value_error], the only exceptions the widget
      catches); the result type [result]; the state-and-error monad [st] in
      which, as in Python, the mutations of [self] made before an exception
      survive it ([sbind], [scatch] for [try/except]); frame reasoning
      ([preserves], the [preserve] tactic and hint database); observational
      equivalence ([respects], i.e. [Proper (Rs ==> run_eq Rs)], and the
      [respect] tactic); run inversion
      ([sinv] for successful runs, [srun] for every outcome); Python slicing
      [py_slice]; the [len] rewrite database.
    - [Num]: the interface [Num] of the float operations the code uses
      (field operations, comparison, [int()], [cos], [sin], [arctan2], [pi])
      and the laws [NumLaws] the theorems rely on: a strict weak order, the
      identities with 0 and 1, monotonicity of products by positives, the
      values of the transcendental functions at 0.  They are the laws of
      the real numbers that float64 satisfies away from overflow and
      underflow; rounding is not modelled.  [QcNum.Qc_Num] is an executable
      instance on canonical rationals (trigonometry by range reduction and
      Taylor polynomials rounded to the grid 2^-32, [pi = 355/113]) on which
      the witnesses run the model with [vm_compute].
    - [NumPy]: the numpy primitives the code calls, modelled from numpy's
      documented semantics (numpy is a library the repository only calls):
      argmax, hsplit, 1-D broadcasting, rfft as the DFT, rfftfreq (with its
      [ZeroDivisionError] for [n * d == 0], [np_rfftfreq]), interp,
      searchsorted as numpy's binary search, vstack and the mean of two
      rows, with their specifications ([argmax_spec], [searchsorted_count]:
      the binary search equals the count of smaller elements on a sorted
      array, [rfftfreq_ascending], [rfft_delta], [interp_zero]).
    - [PeakSearch]: [peak_search] (owfft.py 297-310).
    - [ZeroFilling]: [next_pow2] and [zero_filling] (542-559).
    - [Apodization]: the four windows and [apodization] (460-540).
    - [Sweeps]: the classification [sweep_mode] of the first row (320-340).
    - [State]: the widget record [owfft] (the attributes of [self] and the
      enabled [controls]), its [settings] (30-41), field updates, and
      [init_owfft] (56-65, 83, 177-178).
    - [Phase]: [phase_length] (the clamp of 412-427) and [compute_phase]
      (400-458).
    - [SingleSweep]: [wavenumber_set] (388-398) and [fft_single_sweep]
      (342-386).
    - [Widget]: [fft_row], [fft_rows] and [limit_band] (the parts of
      [calculateFFT], 224-295), [commit], [determine_sweeps], the handlers
      [set_data_handler], [setting_changed], [out_limit_changed] and
      [dx_changed] (181-222, 312-319), the [gui.auto_commit] wrapper
      ([conditional_commit], [commit_button], [autocommit_toggled]); the
      [event]s (one per control of the widget) and the step relation
      [step], with [reachable] states from [init_owfft].
    - [OWBin]: the Bin widget: its [owbin] record, the [Binner] class that
      states what the widget needs of the external [bin_hypercube], the
      handlers [bin_set_data], [bin_changed], [update_bins] and
      [bin_commit] with their [gui.auto_commit] wrapper, and the step
      relation [bin_step] with [bin_reachable] states from [init_owbin].
    - [Progress]: what makes "Calculate" answer: the errors of the numpy
      primitives and of a sweep are [ValueError]s once the phase limit is
      off and the apodization known ([ve], [fft_single_sweep_ve]); the loop
      invariant [prog_inv] (the axis fits the common row length, the stack
      is aligned with it); the widget invariant [data_inv] (a rectangular
      table whose non-empty first row has been classified).
    - [Controls]: the texts of the Info box ([infoa_text], [infob_text],
      [sweeps_text], [no_data_text]); which control accepts input in a
      state ([ui_enabled]:
      the boxes enabled by [set_data], the [dx] edit disabled with "HeNe
      laser", Orange's [checkBox(disables=...)]), the user's steps
      [ui_step] (a restriction of [step]) and [ui_reachable] states.
    - [Refinement]: the abstract specification of a run: [rmapM],
      [sweep_spec] (a sweep against a given axis), [row_spec] (one sweep or
      the mean of the two half sweeps) and [table_spec] (the axis of the
      first row, every row's spectrum in order, the band cut), with the
      refinement proof in both directions.

    How the model corresponds to the code.  A method of [self] is a
    function [owfft R -> owfft R * result A] in [st]; an attribute
    assignment is [smodify] of the field update; [self.error(n, msg)] stores
    the exception in [error1]/[error2]; [self.send] prepends to [sent].  A
    numpy array is a [list R]; a 2-D table a list of rows.  Python's
    [None] is [option]'s [None].  Integer arithmetic on indices is on [nat]
    or [Z] as the code has it (Python's [//] is [Nat.div], slicing clamps
    as CPython does).

    What the theorems show (the claims of the manifest):
    - zero filling keeps the zpd found by [peak_search] unless the peak is
      negative ([zero_filling_peak]); the shapes ([zero_filling_shape]),
      which show the [zff] index-versus-factor divergence
      ([zero_filling_factor_index]);
    - end to end, a delta interferogram becomes the flat spectrum of its
      height, for any spacing [dx != 0] ([fft_single_sweep_delta]); a
      sweep returns only for [dx != 0] ([fft_single_sweep_dx]); a first
      sweep stores a strictly
      ascending axis of [N_zff/2 + 1] points with one spectrum value per
      point ([fft_single_sweep_axis]); the axis, once set, is never changed
      ([fft_single_sweep_keeps_axis]); a sweep reads
      only the settings and the axis of [self] ([fft_single_sweep_view], a
      [Proper] morphism for the equivalence [view_eq]), so a forward-backward
      row made of a sweep and its mirror image gives the spectrum of the
      sweep ([fft_row_mirror]);
    - a run of [calculateFFT] sends exactly one table or nothing
      ([calculateFFT_atomic]); by rule induction over [step], the odd-split
      error is unreachable for rectangular tables
      ([reachable_no_split_error]); band limiting keeps exactly the
      wavenumbers between the limits, in order, with the spectra aligned
      ([limit_band_filter]: the binary search cuts the band a linear filter
      selects);
    - by rule induction over [step], for every input: each table held or
      sent has an axis and an aligned, non-empty stack of spectra, or
      neither ([reachable_tables_aligned], the type invariant of the
      output); the output limits stay ordered ([reachable_limits_ordered]);
      the last value sent is always the table held
      ([reachable_output_consistent]);
      "Calculate" on a loaded table with a non-empty first row, the phase
      limit off, a known apodization and [dx != 0] raises nothing and sends
      a table or shows a message ([reachable_calculate_responds]); with the
      phase limit on and a zero resolution, or with [dx == 0], the
      [ZeroDivisionError] that escapes the loop means no table is ever sent
      ([calculateFFT_zero_resolution], [calculateFFT_zero_dx]);
    - the loop refines a map: every table a run sends is the one
      [table_spec] computes, each row transformed on its own against the
      axis of the first ([calculateFFT_refines]); conversely, on a
      rectangular table a run sends every table [table_spec] computes
      ([calculateFFT_complete], through [fft_single_sweep_first]: the first
      sweep behaves as if its axis had been stored before it ran, since a
      sweep that returns has [dx != 0] and a non-empty signal, for which
      [rfftfreq] does not raise);
    - the controls: in every reachable state the [dx] edit is enabled
      exactly when "HeNe laser" is unchecked and the boxes only while
      there is data ([reachable_controls]); in every state a user reaches,
      "HeNe laser" checked means [dx = 1 / laser_wavenumber / 2]
      ([ui_reachable_hene_dx]); the boxes are enabled exactly when the
      Info box describes a table ([reachable_info_box], using that a
      number printed by ['%d'] starts with a digit), and [set_data] writes
      the row count, the sweep mode and the row length there
      ([set_data_info]); after a table without rows or with an empty first
      row, [determine_sweeps] raises and the widget holds the table while
      the Info box, the boxes and the output still describe the previous
      input ([set_data_empty]);
    - [peak_search] is the first maximum and fails only on empty input;
      the windows: Boxcar identity, the Blackman-Harris peak at zpd, the
      Blackman-Nuttall window not centred on zpd, [UnboundLocalError] for an
      unknown [apod_func]; the sweep classification on mirrored rows and its
      totality; the phase half-width [min(delta, int(1/(dx*res)) - 1)]
      with its warning and its [ZeroDivisionError] ([phase_length_spec]) and
      the empty phase slice at the edges;
    - OWBin: [commit] sends one value or lets an exception it does not
      catch escape, having sent nothing ([bin_commit_outcome]); the NaN
      warning counts the NaN cells ([bin_commit_nan]); a single axis
      variable goes on both axes ([init_axes_single]); [_update_bins] after
      [_init_bins] gives back [bin_shape] ([update_bins_init]); by rule
      induction over [bin_step], a shown error goes with [None] on the
      output and at most one error is shown ([bin_reachable_messages]),
      [_update_bins] never raises [AttributeError]
      ([bin_reachable_update_bins]), and an edited block size is the one
      the next binning uses ([bin_edit_applies]).

    Bounds and fuel.  numpy's binary search is [binsearch], the loop
    [while lo < hi] defined with Equations by well-founded recursion on
    [hi - lo]; [searchsorted] runs the bounded loop [bsearch_left] with
    fuel [length a + 1], which equals [binsearch] as soon as the fuel
    exceeds [log2 (hi - lo)] because every iteration halves the interval
    ([bsearch_left_log_fuel] and [searchsorted_binsearch]); on a sorted array it returns the count of
    smaller elements ([bsearch_left_correct]).  [next_pow2] is
    the exact next power of two; numpy's [exp2(ceil(log2(N)))] agrees with
    it for [N < 2^52].  No other definition needs fuel: every loop of the
    code is a structural recursion on a list.

    Not modelled.  The layout of the Qt controls built by [__init__]
    (67-179; the enabled state of the controls and the texts of the Info
    box are modelled), settings persistence, and the preview [main]
    (562-585); float rounding (see [Num]);
    [build_spec_table], which lives outside [src/] and is kept as the pair
    of its arguments; [bin_hypercube], outside [src/], of which [OWBin]'s
    theorems assume only the [Binner] interface, and the Qt controls of
    [OWBin] (the layout built by [__init__]); [gui.auto_commit], an Orange
    library function, is modelled from its documented behaviour; the tests
    of OWCurves, a widget that is not in this repository. *)

From Stdlib Require Import ZArith Lia.
From stdpp Require Import base list.

Declare Scope py_scope.
Delimit Scope py_scope with py.

(** ** Python exceptions *)

(** The exceptions the modelled code raises or lets numpy raise.  The
    widget catches exactly the [ValueError]s ([is_value_error]); the others
    escape the handler. *)
Inductive py_error : Type :=
  | ArgmaxEmpty                 (** ValueError: argmax of an empty sequence *)
  | SplitUnequal                (** ValueError: np.hsplit, odd length *)
  | ZpdShift (zpd new_zpd : nat)  (** ValueError("zpd: %d, new_zpd: %d") *)
  | ApodMismatch (n m : nat)    (** ValueError("Apodization function size mismatch") *)
  | Broadcast (n m : nat)       (** ValueError: operands could not be broadcast *)
  | FFTEmpty                    (** ValueError: invalid number of FFT data points (0) *)
  | InterpEmpty                 (** ValueError: array of sample points is empty *)
  | InterpLength                (** ValueError: fp and xp are not of the same length *)
  | UnboundBs                   (** UnboundLocalError: local variable 'Bs' *)
  | ZeroDivision                (** ZeroDivisionError: float division by zero *)
  | RowIndex                    (** IndexError: index 0 is out of bounds *)
  | ListIndex                   (** IndexError: list index out of range *)
  | NoneOperand                 (** TypeError/AttributeError on a None operand *)
  | InvalidAxis                 (** orangecontrib.spectroscopy.utils.InvalidAxisException *)
  | InvalidBlockShape           (** ...utils.binning.InvalidBlockShape *)
  | AttrMissing                 (** AttributeError: getattr(self, "bin_i") *)
  | External.                   (** any other exception of a called library *)

Definition is_value_error (e : py_error) : bool :=
  match e with
  | ArgmaxEmpty | SplitUnequal | ZpdShift _ _ | ApodMismatch _ _
  | Broadcast _ _ | FFTEmpty | InterpEmpty | InterpLength => true
  | UnboundBs | ZeroDivision | RowIndex | ListIndex | NoneOperand
  | InvalidAxis | InvalidBlockShape | AttrMissing | External => false
  end.

(** ** Results of fallible pure code *)

Inductive result (A : Type) : Type :=
  | Ok (a : A)
  | Err (e : py_error).
Arguments Ok {A} a.
Arguments Err {A} e.

Definition rbind {A B} (m : result A) (k : A -> result B) : result B :=
  match m with Ok a => k a | Err e => Err e end.

Definition rmap {A B} (f : A -> B) (m : result A) : result B :=
  match m with Ok a => Ok (f a) | Err e => Err e end.

Notation "'let?' x ':=' m 'in' k" := (rbind m (fun x => k))
  (at level 10, x name, m at level 100, k at level 200) : py_scope.

(** ** The state-and-error monad of methods of [self]

    A method receives [self] and returns the updated [self] with its result.
    When it raises, the updates it made before raising are kept, as Python
    does not roll back attribute assignments. *)

Definition st (S A : Type) : Type := S -> S * result A.

Section StateMonad.
Context {S : Type}.

Definition sret {A} (a : A) : st S A := fun s => (s, Ok a).
Definition sraise {A} (e : py_error) : st S A := fun s => (s, Err e).
Definition slift {A} (r : result A) : st S A := fun s => (s, r).
Definition sget : st S S := fun s => (s, Ok s).
Definition smodify (f : S -> S) : st S unit := fun s => (f s, Ok tt).

Definition sbind {A B} (m : st S A) (k : A -> st S B) : st S B :=
  fun s => let '(s', r) := m s in
           match r with Ok a => k a s' | Err e => (s', Err e) end.

(** [try: m except <p>: h] *)
Definition scatch {A} (m : st S A) (p : py_error -> bool)
           (h : py_error -> st S A) : st S A :=
  fun s => let '(s', r) := m s in
           match r with
           | Err e => if p e then h e s' else (s', Err e)
           | Ok a => (s', Ok a)
           end.
End StateMonad.

Notation "x <- m ;; k" := (sbind m (fun x => k))
  (at level 100, m at next level, right associativity) : py_scope.
Notation "m ;;; k" := (sbind m (fun _ => k))
  (at level 100, right associativity) : py_scope.

Open Scope py_scope.

Lemma sbind_ret {S A B} (a : A) (k : A -> st S B) s :
  sbind (sret a) k s = k a s.
Proof. reflexivity. Qed.

Lemma sbind_lift_ok {S A B} (a : A) (k : A -> st S B) s :
  sbind (slift (Ok a)) k s = k a s.
Proof. reflexivity. Qed.

Lemma sbind_run {S A B} (m : st S A) (k : A -> st S B) s s' a :
  m s = (s', Ok a) -> sbind m k s = k a s'.
Proof. intros Hm. unfold sbind. rewrite Hm. reflexivity. Qed.

Lemma sbind_run_err {S A B} (m : st S A) (k : A -> st S B) s s' e :
  m s = (s', Err e) -> sbind m k s = (s', Err e).
Proof. intros Hm. unfold sbind. rewrite Hm. reflexivity. Qed.

(** A [try] whose body returns normally returns its value. *)
Lemma scatch_run {S A} (m : st S A) p h s s' a :
  m s = (s', Ok a) -> scatch m p h s = (s', Ok a).
Proof. intros Hm. unfold scatch. rewrite Hm. reflexivity. Qed.

Lemma rbind_ok {A B} (a : A) (k : A -> result B) : rbind (Ok a) k = k a.
Proof. reflexivity. Qed.

Lemma rbind_err {A B} e (k : A -> result B) : rbind (Err e) k = Err e.
Proof. reflexivity. Qed.

Lemma rbind_ok_inv {A B} (m : result A) (k : A -> result B) b :
  rbind m k = Ok b -> exists a, m = Ok a /\ k a = Ok b.
Proof. destruct m; simpl; [eauto | discriminate]. Qed.

(** ** Frame reasoning: what a method leaves unchanged

    [preserves P m]: every run of [m] relates its initial and final state
    by the preorder [P], whether it returns or raises. *)

Section Preserves.
Context {S : Type} (P : S -> S -> Prop) {HP : PreOrder P}.

Definition preserves {A} (m : st S A) : Prop := forall s, P s (fst (m s)).

Lemma preserves_ret {A} (a : A) : preserves (sret a).
Proof. intros s. reflexivity. Qed.

Lemma preserves_raise {A} e : preserves (@sraise S A e).
Proof. intros s. reflexivity. Qed.

Lemma preserves_lift {A} (r : result A) : preserves (slift r).
Proof. intros s. reflexivity. Qed.

Lemma preserves_get : preserves sget.
Proof. intros s. reflexivity. Qed.

Lemma preserves_modify f : (forall s, P s (f s)) -> preserves (smodify f).
Proof. intros Hf s. apply Hf. Qed.

Lemma preserves_bind {A B} (m : st S A) (k : A -> st S B) :
  preserves m -> (forall a, preserves (k a)) -> preserves (sbind m k).
Proof.
  intros Hm Hk s. unfold sbind. specialize (Hm s).
  destruct (m s) as [s' [a|e]]; simpl in *; [|exact Hm].
  etransitivity; [exact Hm|apply Hk].
Qed.

Lemma preserves_catch {A} (m : st S A) p h :
  preserves m -> (forall e, preserves (h e)) -> preserves (scatch m p h).
Proof.
  intros Hm Hh s. unfold scatch. specialize (Hm s).
  destruct (m s) as [s' [a|e]]; simpl in *; [exact Hm|].
  destruct (p e); [etransitivity; [exact Hm|apply Hh]|exact Hm].
Qed.
End Preserves.

(** Decompose a [preserves] goal along the structure of the method. *)
Create HintDb preserve.

Ltac preserve :=
  repeat first
    [ solve [auto with preserve nocore]
    | match goal with |- PreOrder _ => typeclasses eauto end
    | match goal with |- forall _, preserves _ _ => intros ? end
    | apply preserves_ret | apply preserves_raise | apply preserves_lift
    | apply preserves_get
    | apply preserves_bind
    | apply preserves_catch
    | progress cbv zeta
    | match goal with
      | |- preserves _ (match ?x with _ => _ end) => destruct x
      | |- preserves _ (if ?b then _ else _) => destruct b
      | |- preserves _ (let '(_, _) := ?x in _) => destruct x
      end ].

(** ** Observational equivalence of states

    [respects Rs m]: [m] maps states equivalent for [Rs] to equivalent
    states and the same outcome, i.e. [m] reads and writes only the part of
    the state that [Rs] observes.  It is [Proper (Rs ==> run_eq Rs) m]. *)

Section Respects.
Context {S : Type} (Rs : S -> S -> Prop) {HR : Equivalence Rs}.

Definition run_eq {A} (p q : S * result A) : Prop := Rs (fst p) (fst q) /\ snd p = snd q.

Definition respects {A} (m : st S A) : Prop := Proper (Rs ==> run_eq) m.

Lemma respects_ret {A} (a : A) : respects (sret a).
Proof. intros s t Hst. split; [exact Hst|reflexivity]. Qed.

Lemma respects_raise {A} e : respects (@sraise S A e).
Proof. intros s t Hst. split; [exact Hst|reflexivity]. Qed.

Lemma respects_lift {A} (r : result A) : respects (slift r).
Proof. intros s t Hst. split; [exact Hst|reflexivity]. Qed.

Lemma respects_modify f : Proper (Rs ==> Rs) f -> respects (smodify f).
Proof. intros Hf s t Hst. split; [apply Hf, Hst|reflexivity]. Qed.

Lemma respects_bind {A B} (m : st S A) (k : A -> st S B) :
  respects m -> (forall a, respects (k a)) -> respects (sbind m k).
Proof.
  intros Hm Hk s t Hst. unfold sbind. destruct (Hm s t Hst) as [H1 H2].
  destruct (m s) as [s1 r1], (m t) as [t1 r2]; simpl in *. subst r2.
  destruct r1 as [a|e]; [apply Hk, H1|split; [exact H1|reflexivity]].
Qed.

(** Reading the state: the continuation may depend on what [Rs]
    observes of it, and on nothing else. *)
Lemma respects_get_bind {B} (k : S -> st S B) :
  (forall s t, Rs s t -> k s = k t) -> (forall s, respects (k s)) -> respects (sbind sget k).
Proof.
  intros Hk Hr s t Hst. unfold sbind, sget. rewrite (Hk s t Hst). apply Hr, Hst.
Qed.

Lemma respects_catch {A} (m : st S A) p h :
  respects m -> (forall e, respects (h e)) -> respects (scatch m p h).
Proof.
  intros Hm Hh s t Hst. unfold scatch. destruct (Hm s t Hst) as [H1 H2].
  destruct (m s) as [s1 r1], (m t) as [t1 r2]; simpl in *. subst r2.
  destruct r1 as [a|e]; [split; [exact H1|reflexivity]|].
  destruct (p e); [apply Hh, H1|split; [exact H1|reflexivity]].
Qed.
End Respects.

(** Decompose a [respects] goal; the reads of the state leave the goals
    [forall s t, Rs s t -> k s = k t] to the caller. *)
Create HintDb respect.

Ltac respect :=
  repeat first
    [ solve [auto with respect nocore]
    | match goal with |- Equivalence _ => typeclasses eauto end
    | match goal with |- forall _, respects _ _ => intros ? end
    | progress cbv beta zeta
    | match goal with
      | |- respects _ (sret _) => apply respects_ret
      | |- respects _ (sraise _) => apply respects_raise
      | |- respects _ (slift _) => apply respects_lift
      | |- respects _ (smodify _) => apply respects_modify
      | |- respects _ (sbind sget _) => apply respects_get_bind
      | |- respects _ (sbind _ _) => apply respects_bind
      | |- respects _ (scatch _ _ _) => apply respects_catch
      | |- respects _ (match ?x with _ => _ end) => destruct x
      | |- respects _ (if ?b then _ else _) => destruct b
      | |- respects _ (let '(_, _) := ?x in _) => destruct x
      end ].

(** ** Python slicing [l[i:j]] (step 1)

    CPython normalises a negative bound by adding the length, then clamps
    it to [0, len]; an empty slice results when the stop is not after the
    start. *)

Definition py_bound (n : nat) (i : Z) : nat :=
  Z.to_nat (Z.max 0 (Z.min (Z.of_nat n) (if (i <? 0)%Z then i + Z.of_nat n else i)%Z)).

Definition py_slice {A} (l : list A) (i j : Z) : list A :=
  let a := py_bound (length l) i in
  let b := py_bound (length l) j in
  take (b - a) (drop a l).

Lemma py_bound_nonneg n i :
  (0 <= i)%Z -> py_bound n i = Nat.min n (Z.to_nat i).
Proof.
  intros Hi. unfold py_bound.
  destruct (Z.ltb_spec i 0); [lia|]. lia.
Qed.

Lemma py_slice_nonneg {A} (l : list A) (i j : Z) :
  (0 <= i)%Z -> (0 <= j)%Z ->
  py_slice l i j = take (Nat.min (length l) (Z.to_nat j) - Nat.min (length l) (Z.to_nat i))
                        (drop (Nat.min (length l) (Z.to_nat i)) l).
Proof.
  intros Hi Hj. unfold py_slice. rewrite !py_bound_nonneg by lia. reflexivity.
Qed.

Lemma length_py_slice {A} (l : list A) i j :
  length (py_slice l i j) = py_bound (length l) j - py_bound (length l) i.
Proof.
  unfold py_slice, py_bound. rewrite length_take, length_drop. lia.
Qed.

(** ** Generic list facts *)

Lemma lookup_map_fmap {A B} (f : A -> B) (l : list A) i : map f l !! i = f <$> l !! i.
Proof. apply list_lookup_fmap. Qed.

Lemma map_replicate_eq {A B} (f : A -> B) n x : map f (replicate n x) = replicate n (f x).
Proof. apply fmap_replicate. Qed.

Lemma length_cons_eq {A} (x : A) (l : list A) : length (x :: l) = S (length l).
Proof. reflexivity. Qed.

(** ** Shared automation *)

Create Rewrite HintDb len.
#[export] Hint Rewrite @length_app @length_take @length_drop @length_replicate
  @length_reverse @length_map @length_seq @length_zip_with @length_py_slice @length_cons_eq : len.

Ltac len := autorewrite with len in *; try lia.

(** One step of a monadic run: [sstep tac] replaces the first bind whose
    head computation [tac] evaluates (to a success in the same state). *)
Ltac sstep tac :=
  erewrite sbind_run by (unfold slift, sret, sget; tac); cbv beta zeta.

(** Case analysis on the results of fallible calls appearing in the goal. *)
Ltac case_result :=
  repeat match goal with
  | |- context [match ?m with Ok _ => _ | Err _ => _ end] =>
      let E := fresh "E" in destruct m eqn:E
  | H : context [match ?m with Ok _ => _ | Err _ => _ end] |- _ =>
      let E := fresh "E" in destruct m eqn:E
  end.

(** ** Inverting a successful run

    A run that returns normally went through the success branch of every
    bind; through a [try] it either succeeded or raised a caught error
    whose handler returned. *)

Section RunInversion.
Context {S : Type}.

Lemma sbind_ok_inv {A B} (m : st S A) (k : A -> st S B) s s' b :
  sbind m k s = (s', Ok b) -> exists s1 a, m s = (s1, Ok a) /\ k a s1 = (s', Ok b).
Proof.
  unfold sbind. destruct (m s) as [s1 [a|e]]; [eauto|discriminate].
Qed.

Lemma scatch_ok_inv {A} (m : st S A) p h s s' a :
  scatch m p h s = (s', Ok a) ->
  m s = (s', Ok a) \/ exists s1 e, m s = (s1, Err e) /\ p e = true /\ h e s1 = (s', Ok a).
Proof.
  unfold scatch. destruct (m s) as [s1 [a'|e]]; [intros [= -> ->]; auto|].
  destruct (p e) eqn:Ep; [eauto 6|discriminate].
Qed.

End RunInversion.

(** Split a hypothesis [H : m s = (s', Ok a)] along the binds of [m],
    evaluating the primitive steps. *)
Ltac sinv H :=
  repeat match type of H with
  | sbind _ _ _ = (_, Ok _) =>
      let s1 := fresh "s" in let a := fresh "a" in let H1 := fresh "H" in
      apply sbind_ok_inv in H as (s1 & a & H1 & H); sinv H1
  | scatch _ _ _ _ = (_, Ok _) =>
      let s1 := fresh "s" in let e := fresh "e" in
      let He := fresh "He" in let Hp := fresh "Hp" in
      apply scatch_ok_inv in H as [H|(s1 & e & He & Hp & H)]
  | sret _ _ = _ => injection H as <- <-
  | sget _ = _ => injection H as <- <-
  | smodify _ _ = _ => injection H as <- <-
  | slift _ _ = _ => injection H as <- H
  | sraise _ _ = _ => discriminate H
  | (if ?b then _ else _) _ = (_, Ok _) =>
      let E := fresh "E" in destruct b eqn:E
  | (match ?x with _ => _ end) _ = (_, Ok _) =>
      let E := fresh "E" in destruct x eqn:E
  end.

(** Inverting an arbitrary run: a bind either stopped in its first
    computation or went on with its value; a [try] either let the outcome
    of its body through or ran the handler of a caught error. *)

Section RunCases.
Context {S : Type}.

Lemma sbind_inv {A B} (m : st S A) (k : A -> st S B) s s' r :
  sbind m k s = (s', r) ->
  (exists e, m s = (s', Err e) /\ r = Err e) \/
  (exists s1 a, m s = (s1, Ok a) /\ k a s1 = (s', r)).
Proof.
  unfold sbind. destruct (m s) as [s1 [a|e]]; [eauto|]. intros [= <- <-]. eauto.
Qed.

Lemma scatch_inv {A} (m : st S A) p h s s' r :
  scatch m p h s = (s', r) ->
  (m s = (s', r) /\ forall e, r = Err e -> p e = false) \/
  (exists s1 e, m s = (s1, Err e) /\ p e = true /\ h e s1 = (s', r)).
Proof.
  unfold scatch. destruct (m s) as [s1 [a|e]]; [intros [= <- <-]; left; split; [reflexivity|discriminate]|].
  destruct (p e) eqn:Ep; [eauto 6|intros [= <- <-]; left; split; [reflexivity|congruence]].
Qed.
End RunCases.

(** Split [H : m s = (s', r)] into the paths of [m], evaluating the
    primitive steps; the calls to other methods stay as hypotheses. *)
Ltac srun_paths H :=
  repeat match type of H with
  | sbind _ _ _ = _ =>
      let s1 := fresh "s" in let a := fresh "a" in let e := fresh "e" in
      let H1 := fresh "H" in
      apply sbind_inv in H as [(e & H1 & ?) | (s1 & a & H1 & H)]; srun_paths H1
  | scatch _ _ _ _ = _ =>
      let s1 := fresh "s" in let e := fresh "e" in
      let H1 := fresh "H" in let Hp := fresh "Hp" in
      apply scatch_inv in H as [[H Hp] | (s1 & e & H1 & Hp & H)]; [|srun_paths H1]
  | sret _ _ = _ => first [discriminate H | injection H; clear H; intros; subst]
  | sget _ = _ => first [discriminate H | injection H; clear H; intros; subst]
  | smodify _ _ = _ => first [discriminate H | injection H; clear H; intros; subst]
  | sraise _ _ = _ => first [discriminate H | injection H; clear H; intros; subst]
  | slift _ _ = _ => first [discriminate H | injection H; clear H; intros; subst]
  | (if ?b then _ else _) _ = _ => let E := fresh "E" in destruct b eqn:E
  | (match ?x with _ => _ end) _ = _ => let E := fresh "E" in destruct x eqn:E
  end.

Ltac srun H := srun_paths H; try discriminate.
