(* ===== verification/Num.v ===== *)
(** * The float interface of the model

    The Python code computes with numpy [float64].  The model is generic in
    the number type: [Num] lists the operations the code uses, [NumLaws] the
    laws the theorems rely on.  Nothing else about floats is assumed, so a
    theorem proved here holds for every instance that satisfies the laws.

    [Qc_Num] is an executable instance on canonical rationals ([Qc], whose
    equality is Leibniz).  Its transcendental functions are rational
    approximations (a range reduction followed by a Taylor polynomial for
    [cos]/[sin], a rational approximation of [atan]); they satisfy the laws
    exactly and let the witnesses run the model by [vm_compute]. *)

From Stdlib Require Import ZArith QArith Qcanon Qround Lia.
From stdpp Require Import base.
From S2P Require Import Prelude.

Declare Scope num_scope.
Delimit Scope num_scope with num.

Class Num (R : Type) := {
  n0 : R;
  n1 : R;
  nadd : R -> R -> R;
  nsub : R -> R -> R;
  nmul : R -> R -> R;
  ndiv : R -> R -> R;
  nltb : R -> R -> bool;     (** [x < y] on floats *)
  nof_Z : Z -> R;            (** [float(i)], an integer promoted to float *)
  nlit : Q -> R;             (** a float literal such as [0.42323] *)
  ntrunc : R -> Z;           (** Python's [int(x)], truncation towards 0 *)
  ncos : R -> R;
  nsin : R -> R;
  natan2 : R -> R -> R;      (** [np.arctan2(y, x)] *)
  npi : R                    (** [np.pi] *)
}.

Infix "+." := nadd (at level 50, left associativity) : num_scope.
Infix "-." := nsub (at level 50, left associativity) : num_scope.
Infix "×" := nmul (at level 40, left associativity) : num_scope.
Infix "/." := ndiv (at level 40, left associativity) : num_scope.
Infix "<." := nltb (at level 70, no associativity) : num_scope.

Open Scope num_scope.

(** Float equality [x == y], as the complement of both strict orders. *)
Definition neqb {R} `{Num R} (x y : R) : bool := negb (x <. y) && negb (y <. x).

(** The laws.  The order is a strict weak order (irreflexive, transitive
    and negatively transitive); the arithmetic laws are the few identities
    with 0 and 1 that the theorems need, the positivity and monotonicity of
    products and quotients by positives, the order of the integers promoted
    to floats, and the mean [(x + x) / 2 = x] of a value with itself; the
    transcendental laws are their values at 0; a product is zero exactly
    when a factor is.  Float64 satisfies them except where a result
    overflows or underflows. *)
Class NumLaws (R : Type) `{Num R} := {
  nlt_irrefl x : (x <. x) = false;
  nlt_trans x y z : (x <. y) = true -> (y <. z) = true -> (x <. z) = true;
  nlt_weak x y z : (x <. z) = true -> (x <. y) = true \/ (y <. z) = true;
  nlt_0_1 : (n0 <. n1) = true;
  nadd_0_l x : n0 +. x = x;
  nadd_0_r x : x +. n0 = x;
  nmul_0_l x : n0 × x = n0;
  nmul_0_r x : x × n0 = n0;
  nmul_1_l x : n1 × x = x;
  nmul_1_r x : x × n1 = x;
  ndiv_0_l x : n0 /. x = n0;
  nsub_0_r x : x -. n0 = x;
  nof_Z_0 : nof_Z 0 = n0;
  ncos_0 : ncos n0 = n1;
  nsin_0 : nsin n0 = n0;
  natan2_0_pos x : (n0 <. x) = true -> natan2 n0 x = n0;
  nmul_pos x y : (n0 <. x) = true -> (n0 <. y) = true -> (n0 <. x × y) = true;
  ndiv_pos x y : (n0 <. x) = true -> (n0 <. y) = true -> (n0 <. x /. y) = true;
  nmul_lt_mono_r x y c : (n0 <. c) = true -> (x <. y) = true -> (x × c <. y × c) = true;
  nof_Z_lt i j : (i < j)%Z -> (nof_Z i <. nof_Z j) = true;
  nmean_same x : (x +. x) /. nof_Z 2 = x;
  nmul_eq0 x y : neqb (x × y) n0 = neqb x n0 || neqb y n0
}.

(** Simplify the identities with 0 and 1 of [NumLaws]. *)
Ltac num_simpl :=
  repeat (rewrite ?nof_Z_0, ?nmul_0_l, ?nmul_0_r, ?ndiv_0_l, ?ncos_0, ?nsin_0,
                  ?nmul_1_l, ?nmul_1_r, ?nadd_0_l, ?nadd_0_r, ?nsub_0_r).

Section OrderFacts.
Context `{NumLaws R}.

Lemma nlt_asym x y : (x <. y) = true -> (y <. x) = false.
Proof.
  intros Hxy. destruct (y <. x) eqn:E; [|reflexivity].
  pose proof (nlt_trans _ _ _ Hxy E) as Hxx.
  rewrite nlt_irrefl in Hxx. discriminate.
Qed.

Lemma nle_trans x y z : (y <. x) = false -> (z <. y) = false -> (z <. x) = false.
Proof.
  intros H1 H2. destruct (z <. x) eqn:E; [|reflexivity].
  destruct (nlt_weak z y x E) as [E'|E']; congruence.
Qed.

Lemma nlt_le_trans x y z : (x <. y) = true -> (z <. y) = false -> (x <. z) = true.
Proof.
  intros H1 H2. destruct (nlt_weak x z y H1) as [E|E]; congruence.
Qed.

Lemma nle_lt_trans x y z : (y <. x) = false -> (y <. z) = true -> (x <. z) = true.
Proof.
  intros H1 H2. destruct (nlt_weak y x z H2) as [E|E]; congruence.
Qed.
End OrderFacts.

(** ** The executable instance on canonical rationals *)

Module QcNum.
Local Open Scope Qc_scope.

Definition ltb (x y : Qc) : bool :=
  match Qccompare x y with Lt => true | _ => false end.

Definition pi : Qc := Q2Qc (355 # 113).

(** [x - 2 pi k] with [k] the integer nearest to [x / 2 pi]. *)
Definition reduce (x : Qc) : Qc :=
  x - Q2Qc (2 # 1) * pi * Q2Qc (inject_Z (Qfloor (x / (Q2Qc (2 # 1) * pi) + Q2Qc (1 # 2)))).

(** Rounding down to the grid [2^-32], as a float rounds: it keeps the
    rationals returned by the transcendental functions small. *)
Definition round (x : Qc) : Qc :=
  Q2Qc (Qfloor (this x * inject_Z (2 ^ 32)) # (2 ^ 32)%positive).

Definition cos (x : Qc) : Qc :=
  let y := round (reduce x) in let y2 := y * y in
  round (1 - y2 / Q2Qc 2 * (1 - y2 / Q2Qc 12 * (1 - y2 / Q2Qc 30 *
    (1 - y2 / Q2Qc 56 * (1 - y2 / Q2Qc 90))))).

Definition sin (x : Qc) : Qc :=
  let y := round (reduce x) in let y2 := y * y in
  round (y * (1 - y2 / Q2Qc 6 * (1 - y2 / Q2Qc 20 * (1 - y2 / Q2Qc 42 *
    (1 - y2 / Q2Qc 72 * (1 - y2 / Q2Qc 110)))))).

(** [atan t] for [|t| <= 1] by [t / (1 + 0.28125 t^2)], extended to
    [|t| > 1] by [atan t = +-pi/2 - atan (1/t)]. *)
Definition atan_small (t : Qc) : Qc := t / (1 + Q2Qc 0.28125 * t * t).
Definition atan (t : Qc) : Qc :=
  let t := round t in
  round (if ltb (Q2Qc 1) t then pi / Q2Qc 2 - atan_small (1 / t)
         else if ltb t (Q2Qc (-1)) then - (pi / Q2Qc 2) - atan_small (1 / t)
         else atan_small t).

Definition atan2 (y x : Qc) : Qc :=
  if ltb 0 x then atan (y / x)
  else if ltb x 0 then (if ltb y 0 then atan (y / x) - pi else atan (y / x) + pi)
  else if ltb 0 y then pi / Q2Qc 2
  else if ltb y 0 then - (pi / Q2Qc 2)
  else 0.

Definition trunc (x : Qc) : Z := Z.quot (Qnum x) (Zpos (Qden x)).

Definition of_Z (z : Z) : Qc := Q2Qc (inject_Z z).

#[export] Instance Qc_Num : Num Qc := {
  n0 := 0; n1 := 1;
  nadd := Qcplus; nsub := Qcminus; nmul := Qcmult; ndiv := Qcdiv;
  nltb := ltb;
  nof_Z := of_Z;
  nlit := Q2Qc;
  ntrunc := trunc;
  ncos := cos; nsin := sin; natan2 := atan2; npi := pi
}.

Lemma ltb_spec (x y : Qc) : ltb x y = true <-> x < y.
Proof.
  unfold ltb. rewrite Qclt_alt. destruct (x ?= y); split; congruence.
Qed.

Lemma ltb_false (x y : Qc) : ltb x y = false <-> y <= x.
Proof.
  split; intros Hb.
  - apply Qcnot_lt_le. intros Hlt. apply ltb_spec in Hlt. congruence.
  - destruct (ltb x y) eqn:E; [|reflexivity].
    apply ltb_spec in E. exfalso. apply (Qcle_not_lt y x); assumption.
Qed.

Lemma div_0_l (x : Qc) : 0 / x = 0.
Proof. unfold Qcdiv. apply Qcmult_0_l. Qed.

Lemma atan_0 : atan 0 = 0.
Proof. apply Qc_decomp. vm_compute. reflexivity. Qed.

Lemma ltb_Q (x y : Qc) : ltb x y = true <-> (this x < this y)%Q.
Proof. rewrite ltb_spec. reflexivity. Qed.

Lemma Q2Qc_pos (q : Q) : (0 < q)%Q -> ltb 0 (Q2Qc q) = true.
Proof.
  intros Hq. apply ltb_Q. change (this (Q2Qc q)) with (Qred q). rewrite (Qred_correct q).
  exact Hq.
Qed.

Lemma neqb_Qc (x y : Qc) : negb (ltb x y) && negb (ltb y x) = true <-> x = y.
Proof.
  rewrite andb_true_iff, !negb_true_iff, !ltb_false. split.
  - intros [H1 H2]. apply Qcle_antisym; assumption.
  - intros ->. split; apply Qcle_refl.
Qed.

Lemma mul_eq0 (x y : Qc) :
  negb (ltb (x * y) 0) && negb (ltb 0 (x * y)) =
  (negb (ltb x 0) && negb (ltb 0 x)) || (negb (ltb y 0) && negb (ltb 0 y)).
Proof.
  apply eq_true_iff_eq. rewrite orb_true_iff, !neqb_Qc. split.
  - intros E. destruct (Qcmult_integral x y E); auto.
  - intros [->| ->]; [apply Qcmult_0_l|apply Qcmult_0_r].
Qed.

#[export] Instance Qc_NumLaws : NumLaws Qc.
Proof.
  split; simpl.
  - intros x. apply ltb_false, Qcle_refl.
  - intros x y z Hxy Hyz. apply ltb_spec in Hxy, Hyz. apply ltb_spec.
    eapply Qclt_trans; eassumption.
  - intros x y z Hxz. apply ltb_spec in Hxz.
    destruct (ltb x y) eqn:E1; [left; reflexivity|right].
    apply ltb_false in E1. apply ltb_spec. eapply Qcle_lt_trans; eassumption.
  - reflexivity.
  - apply Qcplus_0_l.
  - apply Qcplus_0_r.
  - apply Qcmult_0_l.
  - apply Qcmult_0_r.
  - apply Qcmult_1_l.
  - apply Qcmult_1_r.
  - apply div_0_l.
  - intros x. unfold Qcminus. change (- 0) with 0. apply Qcplus_0_r.
  - reflexivity.
  - apply Qc_decomp. vm_compute. reflexivity.
  - apply Qc_decomp. vm_compute. reflexivity.
  - intros x Hx. unfold atan2. rewrite Hx, div_0_l. apply atan_0.
- intros x y Hx Hy. apply ltb_Q in Hx, Hy. apply Q2Qc_pos.
  apply Qmult_lt_0_compat; assumption.
- intros x y Hx Hy. apply ltb_Q in Hx, Hy. apply Q2Qc_pos.
  apply Qmult_lt_0_compat; [assumption|].
  change (this (Qcinv y)) with (Qred (/ this y)). rewrite (Qred_correct (/ this y)).
  apply Qinv_lt_0_compat. assumption.
- intros x y c Hc Hxy. apply ltb_spec in Hc, Hxy. apply ltb_spec.
  apply Qcmult_lt_compat_r; assumption.
- intros i j Hij. apply ltb_Q. unfold of_Z.
  change (Qred (inject_Z i) < Qred (inject_Z j))%Q.
  rewrite (Qred_correct (inject_Z i)), (Qred_correct (inject_Z j)).
  rewrite <- Zlt_Qlt. exact Hij.
- intros x. unfold of_Z.
  replace (Q2Qc (inject_Z 2)) with (1 + 1) by (apply Qc_is_canon; reflexivity).
  field. intros Hc. discriminate Hc.
- exact mul_eq0.
Qed.
End QcNum.
