(* ===== verification/NumPy.v ===== *)
(** * The numpy primitives the widget calls

    numpy is a library the repository only calls, so these definitions are
    modelled from numpy's documented semantics, not from repository code:
    [argmax] (first index of the maximum, a [ValueError] on an empty array),
    [np.hsplit(x, 2)], elementwise arithmetic with 1-D broadcasting,
    [np.fft.rfft] as the discrete Fourier transform of a real signal,
    [np.fft.rfftfreq] (its [ZeroDivisionError] when [n * d == 0]
    included), [np.interp], [np.searchsorted] and the mean of two rows.  Each comes with the specification the component files use. *)

From Stdlib Require Import ZArith Lia.
From stdpp Require Import base list.
From Equations Require Import Equations.
From S2P Require Import Prelude Num.

Section ArgMax.
Context {R : Type} `{NumLaws R}.

(** [ndarray.argmax]: scan left to right and move to a new index only on
    a strictly greater value, so the first maximum wins. *)
Fixpoint argmax_from (bi : nat) (b : R) (i : nat) (l : list R) : nat :=
  match l with
  | [] => bi
  | x :: l' => if b <. x then argmax_from i x (S i) l' else argmax_from bi b (S i) l'
  end.

Definition argmax (l : list R) : result nat :=
  match l with
  | [] => Err ArgmaxEmpty
  | x :: l' => Ok (argmax_from 0 x 1 l')
  end.

(** [k] is the index of the first maximum of [l]. *)
Definition is_argmax (l : list R) (k : nat) : Prop :=
  exists m, l !! k = Some m /\
    (forall j x, l !! j = Some x -> (m <. x) = false) /\
    (forall j x, j < k -> l !! j = Some x -> (x <. m) = true).

Lemma argmax_from_spec l : forall p bi b,
  p !! bi = Some b ->
  (forall j x, p !! j = Some x -> (b <. x) = false) ->
  (forall j x, j < bi -> p !! j = Some x -> (x <. b) = true) ->
  is_argmax (p ++ l) (argmax_from bi b (length p) l).
Proof.
  induction l as [|x l IH]; intros p bi b Hb Hmax Hfirst; simpl.
  - rewrite app_nil_r. exists b. auto.
  - assert (Hbi : bi < length p) by (apply lookup_lt_Some in Hb; exact Hb).
    replace (p ++ x :: l) with ((p ++ [x]) ++ l) by (rewrite <- app_assoc; reflexivity).
    replace (S (length p)) with (length (p ++ [x])) by (len; simpl; lia).
    destruct (b <. x) eqn:Ebx; apply IH.
    + rewrite lookup_app_r, Nat.sub_diag by lia. reflexivity.
    + intros j y Hj. apply lookup_app_Some in Hj as [Hj|[Hlen Hj]].
      * apply Hmax in Hj. eapply nle_trans; [exact Hj|].
        apply nlt_asym. exact Ebx.
      * apply list_lookup_singleton_Some in Hj as [_ ->]. apply nlt_irrefl.
    + intros j y Hj Hy. apply lookup_app_Some in Hy as [Hy|[Hlen _]]; [|lia].
      eapply nle_lt_trans; [apply (Hmax j); exact Hy|exact Ebx].
    + rewrite lookup_app_l by lia. exact Hb.
    + intros j y Hj. apply lookup_app_Some in Hj as [Hj|[Hlen Hj]].
      * apply Hmax in Hj. exact Hj.
      * apply list_lookup_singleton_Some in Hj as [_ ->]. exact Ebx.
    + intros j y Hj Hy. apply (Hfirst j); [exact Hj|].
      rewrite lookup_app_l in Hy by lia. exact Hy.
Qed.

Lemma is_argmax_unique l k1 k2 : is_argmax l k1 -> is_argmax l k2 -> k1 = k2.
Proof.
  intros (m1 & H1 & Hmax1 & Hfirst1) (m2 & H2 & Hmax2 & Hfirst2).
  destruct (Nat.lt_trichotomy k1 k2) as [Hlt|[Heq|Hlt]]; [|exact Heq|].
  - pose proof (Hfirst2 _ _ Hlt H1). rewrite (Hmax1 _ _ H2) in *.
    pose proof (Hmax2 _ _ H1). congruence.
  - pose proof (Hfirst1 _ _ Hlt H2). pose proof (Hmax2 _ _ H1). congruence.
Qed.

Lemma argmax_is_argmax l k : argmax l = Ok k -> is_argmax l k.
Proof.
  destruct l as [|x l]; simpl; [discriminate|]. intros [= <-].
  apply (argmax_from_spec l [x] 0 x); [reflexivity| |lia].
  intros j y Hj. apply list_lookup_singleton_Some in Hj as [_ ->]. apply nlt_irrefl.
Qed.

(** The specification of [argmax]: it succeeds exactly on the first index
    of a maximum, and fails exactly on the empty array. *)
Lemma argmax_spec l k : argmax l = Ok k <-> is_argmax l k.
Proof.
  split; [apply argmax_is_argmax|]. intros Hk.
  destruct l as [|x l'] eqn:El.
  - destruct Hk as (m & Hm & _). discriminate.
  - rewrite <- El in *. destruct (argmax l) as [k'|e] eqn:E.
    + f_equal. eapply is_argmax_unique; [apply argmax_is_argmax; exact E|exact Hk].
    + subst l. discriminate.
Qed.

Lemma argmax_err l e : argmax l = Err e <-> l = [] /\ e = ArgmaxEmpty.
Proof.
  destruct l; simpl; split.
  - intros [= <-]. auto.
  - intros [_ ->]. reflexivity.
  - discriminate.
  - intros [Hl _]. discriminate.
Qed.

Lemma argmax_lt l k : argmax l = Ok k -> k < length l.
Proof.
  intros Hk. apply argmax_is_argmax in Hk as (m & Hm & _).
  apply lookup_lt_Some in Hm. exact Hm.
Qed.

(** Appending values never moves the first maximum of the prefix, unless
    one of the appended values is strictly greater. *)
Lemma is_argmax_app l l2 k m :
  is_argmax l k -> l !! k = Some m ->
  (is_argmax (l ++ l2) k <-> forall y, y ∈ l2 -> (m <. y) = false).
Proof.
  intros (m' & Hm' & Hmax & Hfirst) Hm. rewrite Hm in Hm'. injection Hm' as <-.
  assert (Hk : k < length l) by (eapply lookup_lt_Some; exact Hm).
  split.
  - intros (m2 & Hm2 & Hmax2 & _) y Hy.
    rewrite lookup_app_l in Hm2 by lia. rewrite Hm in Hm2. injection Hm2 as <-.
    apply list_elem_of_lookup in Hy as [j Hj].
    apply (Hmax2 (length l + j)). rewrite lookup_app_r by lia.
    rewrite Nat.add_comm, Nat.add_sub. exact Hj.
  - intros Hl2. exists m. split; [rewrite lookup_app_l by lia; exact Hm|split].
    + intros j x Hx. apply lookup_app_Some in Hx as [Hx|[_ Hx]].
      * eapply Hmax. exact Hx.
      * apply Hl2. eapply list_elem_of_lookup_2. exact Hx.
    + intros j x Hj Hx. rewrite lookup_app_l in Hx by lia. eapply Hfirst; eassumption.
Qed.
End ArgMax.

Section Elementwise.
Context {R : Type} `{Num R}.

(** An elementwise binary operation on two 1-D arrays ([a * b], [a + b]):
    equal lengths combine pointwise, an array of length 1 is broadcast
    against the other, anything else raises [ValueError]. *)
Definition np_binop (f : R -> R -> R) (a b : list R) : result (list R) :=
  if length a =? length b then Ok (zip_with f a b)
  else match a, b with
       | [x], _ => Ok (map (f x) b)
       | _, [y] => Ok (map (fun x => f x y) a)
       | _, _ => Err (Broadcast (length a) (length b))
       end.

Lemma np_binop_same_length f (a b : list R) :
  length a = length b -> np_binop f a b = Ok (zip_with f a b).
Proof. intros Hl. unfold np_binop. rewrite Hl, Nat.eqb_refl. reflexivity. Qed.

Lemma length_np_binop f (a b c : list R) :
  length a = length b -> np_binop f a b = Ok c -> length c = length a.
Proof. intros Hl. rewrite np_binop_same_length by exact Hl. intros [= <-]. len. Qed.

(** [np.arange(n)] for an integer [n], as floats; empty when [n <= 0]. *)
Definition arange (n : Z) : list R := map (fun k => nof_Z (Z.of_nat k)) (seq 0 (Z.to_nat n)).

Lemma length_arange n : length (arange n) = Z.to_nat n.
Proof. unfold arange. rewrite length_map, length_seq. reflexivity. Qed.

Lemma lookup_arange n i : i < Z.to_nat n -> arange n !! i = Some (nof_Z (Z.of_nat i)).
Proof.
  intros Hi. unfold arange. rewrite lookup_map_fmap.
  assert (Hs : seq 0 (Z.to_nat n) !! i = Some i) by (apply lookup_seq; lia).
  rewrite Hs. reflexivity.
Qed.
End Elementwise.

#[export] Hint Rewrite @length_arange : len.

Section Split.
Context {A : Type}.

(** [np.hsplit(x, 2)] on a 1-D array: two equal halves, or [ValueError]
    ("array split does not result in an equal division") on odd length. *)
Definition hsplit2 (l : list A) : result (list A * list A) :=
  if Nat.even (length l) then Ok (take (length l / 2) l, drop (length l / 2) l)
  else Err SplitUnequal.

Lemma hsplit2_app (l1 l2 : list A) :
  length l1 = length l2 -> hsplit2 (l1 ++ l2) = Ok (l1, l2).
Proof.
  intros Hl. unfold hsplit2. rewrite length_app, Hl.
  replace (length l2 + length l2) with (2 * length l2) by lia.
  rewrite Nat.even_mul, Nat.mul_comm, Nat.div_mul by lia. simpl.
  rewrite <- Hl, take_app_length, drop_app_length. reflexivity.
Qed.

Lemma length_hsplit2 (l a b : list A) :
  hsplit2 l = Ok (a, b) -> length a = length l / 2 /\ length b = length l / 2.
Proof.
  intros Hs. destruct (Nat.even (length l)) eqn:Ev.
  - assert (Hl : length (take (length l / 2) l) = length l / 2 /\
                 length (drop (length l / 2) l) = length l / 2).
    { rewrite length_take, length_drop. apply Nat.even_spec in Ev as [k Hk].
      assert (Hd : length l / 2 = k) by (symmetry; apply (Nat.div_unique _ 2 k 0); lia).
      lia. }
    unfold hsplit2 in Hs. rewrite Ev in Hs. injection Hs as <- <-. exact Hl.
  - unfold hsplit2 in Hs. rewrite Ev in Hs. discriminate.
Qed.

Lemma hsplit2_err (l : list A) e :
  hsplit2 l = Err e <-> Nat.odd (length l) = true /\ e = SplitUnequal.
Proof.
  unfold hsplit2. rewrite <- Nat.negb_even.
  destruct (Nat.even (length l)); simpl; split.
  - discriminate.
  - intros [? _]; discriminate.
  - intros [= <-]. auto.
  - intros [_ ->]. reflexivity.
Qed.
End Split.

Section Fourier.
Context {R : Type} `{Num R}.

(** [2 pi k t / n], the angle of the [t]-th sample in the [k]-th bin. *)
Definition dft_angle (n k t : nat) : R :=
  nof_Z 2 × npi × nof_Z (Z.of_nat k) × nof_Z (Z.of_nat t) /. nof_Z (Z.of_nat n).

(** [sum_t f t x_t] over the samples, starting at index [t]. *)
Fixpoint dft_sum (f : nat -> R -> R) (t : nat) (x : list R) : R :=
  match x with
  | [] => n0
  | a :: x' => f t a +. dft_sum f (S t) x'
  end.

(** [np.fft.rfft(x)]: the bins [k = 0 .. n/2] of the discrete Fourier
    transform [X_k = sum_t x_t exp(-2 pi i k t / n)], as pairs (real part,
    imaginary part); numpy raises [ValueError] on an empty input.  The model
    is the transform's definition; numpy's pocketfft computes the same
    values up to rounding. *)
Definition rfft_bin (x : list R) (k : nat) : R * R :=
  let n := length x in
  (dft_sum (fun t a => a × ncos (dft_angle n k t)) 0 x,
   n0 -. dft_sum (fun t a => a × nsin (dft_angle n k t)) 0 x).

Definition rfft (x : list R) : result (list (R * R)) :=
  match x with
  | [] => Err FFTEmpty
  | _ => Ok (map (rfft_bin x) (seq 0 (length x / 2 + 1)))
  end.

(** The values of [np.fft.rfftfreq(n, d)]: [k * (1.0 / (n * d))] for
    [k = 0 .. n/2]. *)
Definition rfftfreq (n : nat) (d : R) : list R :=
  map (fun k => nof_Z (Z.of_nat k) × (n1 /. (nof_Z (Z.of_nat n) × d))) (seq 0 (n / 2 + 1)).

(** [np.fft.rfftfreq(n, d)] itself: [val = 1.0 / (n * d)] is a division
    of Python floats, which raises [ZeroDivisionError] when [n * d == 0],
    i.e. for [n = 0] or [d == 0.0]. *)
Definition np_rfftfreq (n : nat) (d : R) : result (list R) :=
  if neqb (nof_Z (Z.of_nat n) × d) n0 then Err ZeroDivision else Ok (rfftfreq n d).

(** [np.interp] at one point, for increasing sample points [xp]: [fp[0]]
    left of [xp[0]], [fp[-1]] right of [xp[-1]], and otherwise, on the
    segment [xp[j] <= x < xp[j+1]], [fp[j]] when [x == xp[j]] and
    [slope * (x - xp[j]) + fp[j]] else; [fp[-1]] at [x == xp[-1]]. *)
Fixpoint interp_segment (x : R) (xp fp : list R) : R :=
  match xp, fp with
  | x0 :: (x1 :: _) as xp', f0 :: (f1 :: _) as fp' =>
      if x <. x1 then
        (if neqb x x0 then f0 else (f1 -. f0) /. (x1 -. x0) × (x -. x0) +. f0)
      else interp_segment x xp' fp'
  | _, f0 :: _ => f0
  | _, [] => n0
  end.

Definition interp_point (x : R) (xp fp : list R) : R :=
  match xp, fp, last xp, last fp with
  | x0 :: _, f0 :: _, Some xl, Some fl =>
      if x <. x0 then f0 else if xl <. x then fl else interp_segment x xp fp
  | _, _, _, _ => n0
  end.

(** [np.interp(x, xp, fp)]: [ValueError] on empty sample points or on
    sample points and values of different lengths. *)
Definition interp (x xp fp : list R) : result (list R) :=
  if length xp =? 0 then Err InterpEmpty
  else if negb (length fp =? length xp) then Err InterpLength
  else Ok (map (fun v => interp_point v xp fp) x).

(** [np.mean(np.array([a, b]), axis=0)]: [(a + b) / 2] elementwise; rows of
    different lengths make [np.array] raise [ValueError]. *)
Definition mean2 (a b : list R) : result (list R) :=
  if length a =? length b then Ok (zip_with (fun u v => (u +. v) /. nof_Z 2) a b)
  else Err (Broadcast (length a) (length b)).

Lemma length_mean2 (a b c : list R) : mean2 a b = Ok c -> length c = length a /\ length b = length a.
Proof.
  unfold mean2. destruct (Nat.eqb_spec (length a) (length b)) as [E|]; [|discriminate].
  intros [= <-]. rewrite length_zip_with. lia.
Qed.

Lemma length_rfftfreq n d : length (rfftfreq n d) = n / 2 + 1.
Proof. unfold rfftfreq. rewrite length_map, length_seq. reflexivity. Qed.

Lemma rfft_ok (x : list R) :
  x <> [] -> rfft x = Ok (map (rfft_bin x) (seq 0 (length x / 2 + 1))).
Proof. destruct x; [contradiction|reflexivity]. Qed.

Lemma length_rfft (x : list R) y : rfft x = Ok y -> length y = length x / 2 + 1.
Proof. destruct x; [discriminate|]. intros [= <-]. rewrite length_map, length_seq. reflexivity. Qed.

Lemma length_interp x xp fp r : interp x xp fp = Ok r -> length r = length x.
Proof.
  unfold interp. destruct (length xp =? 0); [discriminate|].
  destruct (negb _); [discriminate|]. intros [= <-]. apply length_map.
Qed.
End Fourier.

#[export] Hint Rewrite @length_rfftfreq : len.

Section FrequencyErrors.
Context {R : Type} `{NumLaws R}.

Lemma neqb_refl (x : R) : neqb x x = true.
Proof. unfold neqb. rewrite nlt_irrefl. reflexivity. Qed.

(** A positive count promoted to float is not zero. *)
Lemma nof_Z_nat_ne0 n : 0 < n -> neqb (nof_Z (Z.of_nat n)) n0 = false.
Proof.
  intros Hn. unfold neqb. rewrite <- nof_Z_0, (nof_Z_lt 0 (Z.of_nat n)) by lia.
  rewrite andb_false_r. reflexivity.
Qed.

(** [rfftfreq] returns the axis exactly when [n > 0] and [d != 0]. *)
Lemma np_rfftfreq_ok n (d : R) : 0 < n -> neqb d n0 = false -> np_rfftfreq n d = Ok (rfftfreq n d).
Proof. intros Hn Hd. unfold np_rfftfreq. rewrite nmul_eq0, nof_Z_nat_ne0, Hd by exact Hn. reflexivity. Qed.

Lemma np_rfftfreq_Ok n (d : R) w :
  np_rfftfreq n d = Ok w -> w = rfftfreq n d /\ 0 < n /\ neqb d n0 = false.
Proof.
  unfold np_rfftfreq. rewrite nmul_eq0. destruct (neqb d n0); rewrite ?orb_true_r; [discriminate|].
  destruct (neqb _ n0) eqn:En; [discriminate|]. intros [= <-]. split; [reflexivity|split; [|reflexivity]].
  destruct n; [|lia]. rewrite nof_Z_0, neqb_refl in En. discriminate.
Qed.

Lemma np_rfftfreq_Err n (d : R) e :
  np_rfftfreq n d = Err e -> e = ZeroDivision /\ (n = 0 \/ neqb d n0 = true).
Proof.
  unfold np_rfftfreq. rewrite nmul_eq0.
  destruct (neqb (nof_Z (Z.of_nat n)) n0) eqn:En, (neqb d n0) eqn:Ed; cbn; try discriminate;
    intros [= <-]; split; auto.
  left. destruct n as [|n]; [reflexivity|]. rewrite nof_Z_nat_ne0 in En by lia. discriminate.
Qed.
End FrequencyErrors.

Section FourierTheory.
Context {R : Type} `{NumLaws R}.

Lemma dft_sum_zeros (f : nat -> R -> R) t k :
  (forall t, f t n0 = n0) -> dft_sum f t (replicate k n0) = n0.
Proof.
  intros Hf. revert t. induction k as [|k IH]; intros t; [reflexivity|].
  simpl. rewrite Hf, IH. apply nadd_0_l.
Qed.

Lemma dft_angle_0 n k : dft_angle n k 0 = n0.
Proof. unfold dft_angle. simpl. num_simpl. reflexivity. Qed.

(** Every bin of the transform of a discrete delta at index 0 is [(c, 0)]. *)
Lemma rfft_bin_delta (c : R) n k : rfft_bin (c :: replicate n n0) k = (c, n0).
Proof.
  unfold rfft_bin. simpl. rewrite !dft_sum_zeros by (intros; apply nmul_0_l).
  rewrite dft_angle_0. num_simpl. reflexivity.
Qed.

Lemma rfft_delta (c : R) n :
  rfft (c :: replicate n n0) = Ok (replicate (S n / 2 + 1) (c, n0)).
Proof.
  unfold rfft. f_equal. rewrite length_cons, length_replicate.
  assert (Hm : forall m t, map (rfft_bin (c :: replicate n n0)) (seq t m) = replicate m (c, n0)).
  { induction m as [|m IH]; intros t; [reflexivity|].
    simpl. rewrite rfft_bin_delta. f_equal. apply IH. }
  apply Hm.
Qed.

Lemma interp_segment_cons x x0 x1 xp f0 f1 fp :
  interp_segment x (x0 :: x1 :: xp) (f0 :: f1 :: fp) =
  if x <. x1 then (if neqb x x0 then f0 else (f1 -. f0) /. (x1 -. x0) × (x -. x0) +. f0)
  else interp_segment x (x1 :: xp) (f1 :: fp).
Proof. reflexivity. Qed.

Lemma interp_segment_zero x xp fp :
  (forall y, y ∈ fp -> y = n0) -> interp_segment x xp fp = n0.
Proof.
  revert fp. induction xp as [|x0 xp IH]; intros fp Hfp.
  - destruct fp as [|f0 fp]; [reflexivity|]. apply Hfp. left.
  - destruct xp as [|x1 xp]; destruct fp as [|f0 [|f1 fp]]; try reflexivity;
      try (apply Hfp; left).
    rewrite interp_segment_cons. destruct (x <. x1); [|apply IH; intros y Hy; apply Hfp; right; exact Hy].
    rewrite (Hfp f0), (Hfp f1) by (repeat constructor).
    destruct (neqb x x0); [reflexivity|]. rewrite nsub_0_r. num_simpl. reflexivity.
Qed.

(** Interpolating identically zero values gives zeros. *)
Lemma last_replicate_S (k : nat) (y : R) : last (replicate (S k) y) = Some y.
Proof. induction k as [|k IH]; [reflexivity|]. rewrite replicate_S, last_cons, IH. reflexivity. Qed.

(** Interpolating identically zero values gives zeros. *)
Lemma interp_zero (x xp : list R) k :
  xp <> [] -> k = length xp ->
  interp x xp (replicate k n0) = Ok (replicate (length x) n0).
Proof.
  intros Hxp ->. destruct xp as [|x0 xs]; [contradiction|].
  unfold interp. rewrite length_replicate, Nat.eqb_refl. cbn [length Nat.eqb negb].
  f_equal. induction x as [|v x IH]; [reflexivity|]. cbn [map].
  change (replicate (length (v :: x)) n0) with (n0 :: replicate (length x) n0). rewrite IH.
  f_equal. unfold interp_point. cbn [replicate]. rewrite <- replicate_S, last_replicate_S.
  destruct (last (x0 :: xs)) as [xl|] eqn:Ex; [|apply last_None in Ex; discriminate].
  destruct (v <. x0); [reflexivity|]. destruct (xl <. v); [reflexivity|].
  apply interp_segment_zero.
  intros y Hy. apply elem_of_replicate in Hy. apply Hy.
Qed.

(** The mean of a row with itself is the row. *)
Lemma mean2_same (a : list R) : mean2 a a = Ok a.
Proof.
  unfold mean2. rewrite Nat.eqb_refl. f_equal.
  induction a as [|x a IH]; [reflexivity|]. simpl. rewrite nmean_same, IH. reflexivity.
Qed.
End FourierTheory.

Section Search.
Context {R : Type} `{Num R}.

(** [np.vstack((spectra, row))] growing a stack of rows (a 1-D first row
    counts as one row): rows of different lengths raise [ValueError]. *)
Definition vstack (sp : option (list (list R))) (row : list R) : result (list (list R)) :=
  match sp with
  | None => Ok [row]
  | Some rows =>
      if forallb (fun r => length r =? length row) rows then Ok (rows ++ [row])
      else Err (Broadcast (length rows) (length row))
  end.

(** numpy's [binsearch] (side='left') for one key: halve [lo, hi) until it
    is empty, moving right past every element [< v].  The fuel bounds the
    number of halvings. *)
Fixpoint bsearch_left (fuel : nat) (a : list R) (v : R) (lo hi : nat) : nat :=
  match fuel with
  | 0 => lo
  | S f =>
      if lo <? hi then
        let mid := lo + (hi - lo) / 2 in
        match a !! mid with
        | Some m => if m <. v then bsearch_left f a v (S mid) hi else bsearch_left f a v lo mid
        | None => lo
        end
      else lo
  end.

(** [np.searchsorted(a, v)] *)
Definition searchsorted (a : list R) (v : R) : nat :=
  bsearch_left (S (length a)) a v 0 (length a).

(** The reference: the length of the prefix of elements [< v]. *)
Fixpoint count_below (v : R) (a : list R) : nat :=
  match a with
  | [] => 0
  | x :: a' => if x <. v then S (count_below v a') else 0
  end.

(** [a] is sorted (non-decreasing) for the float order. *)
Definition sorted_asc (a : list R) : Prop :=
  forall i j x y, i <= j -> a !! i = Some x -> a !! j = Some y -> (y <. x) = false.

(** Its check on adjacent pairs. *)
Fixpoint sorted_ascb (a : list R) : bool :=
  match a with
  | x :: (y :: _) as t => negb (y <. x) && sorted_ascb t
  | _ => true
  end.
End Search.

Section SearchTheory.
Context {R : Type} `{NumLaws R}.

Lemma count_below_spec (v : R) a :
  count_below v a <= length a /\
  (forall i x, i < count_below v a -> a !! i = Some x -> (x <. v) = true) /\
  (forall x, a !! count_below v a = Some x -> (x <. v) = false).
Proof.
  induction a as [|y a (IHlen & IHlt & IHge)]; simpl.
  - split; [lia|split]; [intros; lia|discriminate].
  - destruct (y <. v) eqn:Ey; simpl.
    + split; [lia|split].
      * intros [|i] x Hi Hx; simpl in Hx; [congruence|]. apply (IHlt i); [lia|exact Hx].
      * exact IHge.
    + split; [lia|split]; [intros; lia|]. intros x [= <-]. exact Ey.
Qed.

(** In a sorted array every element from [count_below v a] on is [>= v]. *)
Lemma count_below_sorted_ge (v : R) a i x :
  sorted_asc a -> count_below v a <= i -> a !! i = Some x -> (x <. v) = false.
Proof.
  intros Hs Hi Hx. destruct (count_below_spec v a) as (Hlen & _ & Hge).
  destruct (a !! count_below v a) as [y|] eqn:Ey.
  - specialize (Hge y eq_refl). destruct (x <. v) eqn:Exv; [|reflexivity].
    rewrite (nle_lt_trans _ _ _ (Hs _ _ _ _ Hi Ey Hx) Exv) in Hge. discriminate.
  - apply lookup_ge_None in Ey. apply lookup_lt_Some in Hx. lia.
Qed.

Lemma bsearch_left_correct (v : R) a fuel : forall lo hi,
  sorted_asc a -> lo <= count_below v a <= hi -> hi <= length a -> hi - lo <= fuel ->
  bsearch_left fuel a v lo hi = count_below v a.
Proof.
  induction fuel as [|f IH]; intros lo hi Hs Hc Hhi Hf; cbn [bsearch_left]; [lia|].
  destruct (Nat.ltb_spec lo hi) as [Hlt|Hge]; [|lia].
  set (mid := lo + (hi - lo) / 2).
  assert (Hmid : lo <= mid < hi) by (subst mid; split; [lia|]; apply Nat.lt_le_trans with (lo + (hi - lo)); [apply Nat.add_lt_mono_l, Nat.div_lt|]; lia).
  destruct (lookup_lt_is_Some_2 a mid ltac:(lia)) as [m Hm]. rewrite Hm.
  destruct (count_below_spec v a) as (_ & Hlt' & _).
  destruct (m <. v) eqn:Emv; apply IH; try assumption; try lia.
  - split; [|lia]. destruct (Nat.lt_ge_cases mid (count_below v a)); [lia|].
    rewrite (count_below_sorted_ge v a mid m Hs ltac:(lia) Hm) in Emv. discriminate.
  - split; [lia|]. destruct (Nat.le_gt_cases (count_below v a) mid); [lia|].
    rewrite (Hlt' mid m ltac:(lia) Hm) in Emv. discriminate.
Qed.

(** [searchsorted]'s binary search returns, on a sorted array, the number
    of elements smaller than the key: numpy's left insertion point. *)
Lemma searchsorted_count (a : list R) v :
  sorted_asc a -> searchsorted a v = count_below v a.
Proof.
  intros Hs. unfold searchsorted. destruct (count_below_spec v a) as (Hlen & _).
  apply bsearch_left_correct; [exact Hs|lia|lia|lia].
Qed.

Lemma sorted_ascb_head x (a : list R) :
  sorted_ascb (x :: a) = true -> forall j y, a !! j = Some y -> (y <. x) = false.
Proof.
  revert x. induction a as [|z a IH]; intros x Hs j y Hy; [discriminate|].
  cbn [sorted_ascb] in Hs. apply andb_prop in Hs as [Hzx Hs]. apply negb_true_iff in Hzx.
  destruct j as [|j]; simpl in Hy; [congruence|].
  eapply nle_trans; [exact Hzx|]. exact (IH z Hs j y Hy).
Qed.

Lemma sorted_ascb_sound (a : list R) : sorted_ascb a = true -> sorted_asc a.
Proof.
  induction a as [|x a IH]; intros Hs i j y z Hij Hy Hz; [discriminate|].
  assert (Ht : sorted_ascb a = true) by (destruct a; [reflexivity|apply andb_prop in Hs; apply Hs]).
  destruct i as [|i], j as [|j]; simpl in Hy, Hz; try lia.
  - injection Hy as <-. injection Hz as <-. apply nlt_irrefl.
  - injection Hy as <-. exact (sorted_ascb_head _ _ Hs j z Hz).
  - apply (IH Ht i j); [lia|exact Hy|exact Hz].
Qed.

Lemma sorted_asc_cons x (a : list R) :
  sorted_asc (x :: a) -> sorted_asc a /\ forall y, y ∈ a -> (y <. x) = false.
Proof.
  intros Hs. split.
  - intros i j y z Hij Hy Hz. apply (Hs (S i) (S j)); [lia|exact Hy|exact Hz].
  - intros y Hy. apply list_elem_of_lookup in Hy as [k Hk].
    apply (Hs 0 (S k)); [lia|reflexivity|exact Hk].
Qed.

Lemma filter_all_false {A} (p : A -> bool) (l : list A) :
  (forall y, y ∈ l -> p y = false) -> List.filter p l = [].
Proof.
  induction l as [|y l IH]; intros Hl; [reflexivity|]. simpl.
  rewrite (Hl y ltac:(left)). apply IH. intros z Hz. apply Hl. right. exact Hz.
Qed.

(** The reference of the band cut: on a sorted array, the slice between
    the insertion points of [v1] and [v2] is the sub-list of the elements
    [x] with [v1 <= x < v2]. *)
Lemma count_below_band_filter (v1 v2 : R) a :
  sorted_asc a ->
  take (count_below v2 a - count_below v1 a) (drop (count_below v1 a) a) =
  List.filter (fun x => negb (x <. v1) && (x <. v2)) a.
Proof.
  induction a as [|x a IH]; intros Hs; [reflexivity|].
  destruct (sorted_asc_cons _ _ Hs) as [Ha Hge]. specialize (IH Ha).
  assert (Hup : forall v, (x <. v) = false -> forall y, y ∈ a -> (y <. v) = false)
    by (intros v Hx y Hy; exact (nle_trans _ _ _ Hx (Hge y Hy))).
  simpl. destruct (x <. v1) eqn:E1, (x <. v2) eqn:E2; simpl.
  - exact IH.
  - symmetry. apply filter_all_false. intros y Hy. rewrite (Hup v2 E2 y Hy). apply andb_false_r.
  - f_equal. destruct a as [|y a]; [reflexivity|].
    pose proof (Hup v1 E1 y ltac:(left)) as Hy. simpl in IH |- *.
    rewrite Hy, Nat.sub_0_r in IH. rewrite Hy. exact IH.
  - symmetry. apply filter_all_false. intros y Hy. rewrite (Hup v2 E2 y Hy). apply andb_false_r.
Qed.
End SearchTheory.

(** ** The loop of numpy's [binsearch] and its termination

    numpy's [binsearch] (side='left') is the loop
    [while lo < hi: mid = lo + ((hi - lo) >> 1); if a[mid] < v: lo = mid + 1
    else: hi = mid].  [binsearch] is that loop by well-founded recursion
    on [hi - lo], which every iteration decreases; [bsearch_left] is the
    same loop with a bound on the number of iterations. *)

Section BinarySearchLoop.
Context {R : Type} `{Num R}.

Equations? binsearch (a : list R) (v : R) (lo hi : nat) : nat by wf (hi - lo) lt :=
  binsearch a v lo hi with lt_dec lo hi := {
    | left Hlt with a !! (lo + (hi - lo) / 2) := {
        | Some m := if m <. v then binsearch a v (S (lo + (hi - lo) / 2)) hi
                    else binsearch a v lo (lo + (hi - lo) / 2);
        | None := lo };
    | right _ := lo }.
Proof.
  all: change (fst (Nat.divmod (hi - lo) 1 0 1)) with ((hi - lo) / 2);
    assert ((hi - lo) / 2 < hi - lo) by (apply Nat.div_lt; lia); lia.
Qed.

(** The interval [lo, hi) of the next iteration is at most half as long. *)
Lemma bsearch_halves lo hi f :
  lo < hi -> hi - lo < 2 ^ S f ->
  hi - S (lo + (hi - lo) / 2) < 2 ^ f /\ lo + (hi - lo) / 2 - lo < 2 ^ f.
Proof.
  intros Hlt Hf. rewrite Nat.pow_succ_r' in Hf.
  pose proof (Nat.div_mod (hi - lo) 2 ltac:(lia)) as Hd.
  pose proof (Nat.mod_upper_bound (hi - lo) 2 ltac:(lia)). lia.
Qed.

Lemma bsearch_left_binsearch (a : list R) v f : forall lo hi,
  hi - lo < 2 ^ f -> bsearch_left f a v lo hi = binsearch a v lo hi.
Proof.
  induction f as [|f IH]; intros lo hi Hf; cbn [bsearch_left]; simp binsearch.
  all: destruct (lt_dec lo hi) as [Hlt|Hge]; simp binsearch.
  - rewrite Nat.pow_0_r in Hf. lia.
  - reflexivity.
  - rewrite (proj2 (Nat.ltb_lt lo hi) Hlt). destruct (bsearch_halves lo hi f Hlt Hf) as [H1 H2].
    destruct (a !! (lo + (hi - lo) / 2)) as [m|]; simp binsearch; [|reflexivity].
    destruct (m <. v); rewrite IH by assumption; simp binsearch; reflexivity.
  - rewrite (proj2 (Nat.ltb_ge lo hi) ltac:(lia)). reflexivity.
Qed.

(** [np.searchsorted] as modelled runs the loop to its end: its fuel
    [length a + 1] exceeds [log2 (length a)]. *)
Lemma searchsorted_binsearch (a : list R) v : searchsorted a v = binsearch a v 0 (length a).
Proof.
  apply bsearch_left_binsearch. rewrite Nat.sub_0_r.
  apply Nat.lt_trans with (S (length a)); [lia|apply Nat.pow_gt_lin_r; lia].
Qed.

(** termination of numpy's binary search: the loop [while lo < hi]
    halves the interval at every iteration, so it exits after at most
    [floor(log2(hi - lo)) + 1] iterations: any bound on the iterations
    above [log2(hi - lo)] gives the result of the unbounded loop
    [binsearch].  In particular the searches of [limit_band], which run
    [bsearch_left] with the bound [length a + 1], never stop early. *)
Theorem bsearch_left_log_fuel (a : list R) v lo hi f :
  Nat.log2 (hi - lo) < f -> bsearch_left f a v lo hi = binsearch a v lo hi.
Proof.
  intros Hf. apply bsearch_left_binsearch.
  destruct (Nat.eq_dec (hi - lo) 0) as [E|E].
  - rewrite E. apply Nat.neq_0_lt_0, Nat.pow_nonzero. lia.
  - apply Nat.log2_lt_pow2; lia.
Qed.
End BinarySearchLoop.

Section Witnesses.
Import QcNum.
Local Abbreviation q := QcNum.of_Z.

(** Three iterations bound the search of [3] among five values. *)
Lemma bsearch_left_log_fuel_witness :
  bsearch_left 3 [q 1; q 2; q 3; q 4; q 5] (q 3) 0 5 = binsearch [q 1; q 2; q 3; q 4; q 5] (q 3) 0 5.
Proof. apply bsearch_left_log_fuel. vm_compute. reflexivity. Defined.
End Witnesses.

Section Axis.
Context {R : Type} `{NumLaws R}.

(** [a] is strictly increasing. *)
Definition strictly_ascending (a : list R) : Prop :=
  forall i j x y, i < j -> a !! i = Some x -> a !! j = Some y -> (x <. y) = true.

Lemma strictly_ascending_sorted a : strictly_ascending a -> sorted_asc a.
Proof.
  intros Ha i j x y Hij Hx Hy. destruct (Nat.eq_dec i j) as [->|Hne].
  - rewrite Hx in Hy. injection Hy as ->. apply nlt_irrefl.
  - apply nlt_asym. apply (Ha i j); [lia|exact Hx|exact Hy].
Qed.

Lemma lookup_rfftfreq n d k x :
  rfftfreq n d !! k = Some x -> x = nof_Z (Z.of_nat k) × (n1 /. (nof_Z (Z.of_nat n) × d)).
Proof.
  unfold rfftfreq. rewrite lookup_map_fmap.
  destruct (seq 0 (n / 2 + 1) !! k) as [k'|] eqn:E; [|discriminate].
  apply lookup_seq in E as [-> _]. intros [= <-]. reflexivity.
Qed.

(** [np.fft.rfftfreq(n, d)] is strictly increasing for [n > 0], [d > 0]. *)
Lemma rfftfreq_ascending n d :
  0 < n -> (n0 <. d) = true -> strictly_ascending (rfftfreq n d).
Proof.
  intros Hn Hd i j x y Hij Hx Hy.
  apply lookup_rfftfreq in Hx as ->. apply lookup_rfftfreq in Hy as ->.
  apply nmul_lt_mono_r; [|apply nof_Z_lt; lia].
  apply ndiv_pos; [apply nlt_0_1|]. apply nmul_pos; [|exact Hd].
  rewrite <- nof_Z_0. apply nof_Z_lt. lia.
Qed.
End Axis.
