(* ===== verification/PeakSearch.v ===== *)
(** * PeakLocator: [OWFFT.peak_search] (owfft.py 297-310)

    [peak_search(Ix)] returns [Ix.argmax()], the zero path difference (zpd)
    index.  The theorems characterise it completely: on a non-empty array it
    returns the first index holding a maximal value, and it raises numpy's
    [ValueError] exactly on an empty array. *)

From Stdlib Require Import Qcanon Lia.
From stdpp Require Import base list.
From S2P Require Import Prelude Num NumPy.

Section PeakSearch.
Context {R : Type} `{NumLaws R}.

(** owfft.py 297-310: [zpd = Ix.argmax(); return zpd] *)
Definition peak_search (Ix : list R) : result nat := argmax Ix.

(** C6: [peak_search] returns [zpd] exactly when [zpd] is an index of
    [Ix] whose value is not exceeded by any sample and is strictly greater
    than every sample before it (the first maximum). *)
Theorem peak_search_first_max (Ix : list R) (zpd : nat) :
  peak_search Ix = Ok zpd <->
  exists m, Ix !! zpd = Some m /\
    (forall j x, Ix !! j = Some x -> (m <. x) = false) /\
    (forall j x, j < zpd -> Ix !! j = Some x -> (x <. m) = true).
Proof. apply argmax_spec. Qed.

(** C29: [peak_search] fails, with numpy's argmax [ValueError], exactly on
    an empty interferogram, and on any other input it returns an index of
    it. *)
Theorem peak_search_error (Ix : list R) :
  (forall e, peak_search Ix = Err e <-> Ix = [] /\ e = ArgmaxEmpty) /\
  (Ix <> [] -> exists zpd, peak_search Ix = Ok zpd /\ zpd < length Ix).
Proof.
  split; [intros e; apply argmax_err|]. intros Hne.
  unfold peak_search. destruct (argmax Ix) as [k|e] eqn:E.
  - exists k. split; [reflexivity|]. eapply argmax_lt. exact E.
  - apply argmax_err in E as [-> _]. contradiction.
Qed.
End PeakSearch.

(** ** Witnesses on rationals *)

Section Witnesses.
Import QcNum.
Local Abbreviation q := QcNum.of_Z.

(** The first of two equal maxima is the zpd: the characterisation, checked
    on a concrete array, yields the index. *)
Lemma peak_search_first_max_witness : peak_search [q 1; q 3; q 3]%Z = Ok 1.
Proof.
  apply (peak_search_first_max [q 1; q 3; q 3]%Z 1). exists (q 3).
  split; [reflexivity|split].
  - intros j x Hx. destruct j as [|[|[|j]]]; simpl in Hx; try discriminate;
      injection Hx as <-; vm_compute; reflexivity.
  - intros j x Hj Hx. destruct j as [|j]; [|lia].
    injection Hx as <-. vm_compute. reflexivity.
Defined.

Lemma peak_search_error_witness : peak_search (R := Qc) [] = Err ArgmaxEmpty.
Proof. apply (proj1 (peak_search_error []) ArgmaxEmpty). split; reflexivity. Defined.
End Witnesses.
