(* ===== verification/ZeroFilling.v ===== *)
(** * ZeroFiller: [OWFFT.zero_filling] (owfft.py 542-559)

    [zero_filling(Ix)] appends zeros at the end of the signal, up to the
    next power of two [N_2] of its length [N], plus [N_2 * self.zff] more.
    The theorems give the length of the result, the next-power-of-two
    bound, and the exact index of the maximum after zero filling: it stays
    at the original zpd unless the peak value is negative and zeros were
    appended, in which case it moves to the first appended zero.  They also
    record that [self.zff] is the index of the "Zero Filling Factor" combo
    box, whose items display [2**n], while the code multiplies by the index. *)

From Stdlib Require Import Arith Lia Qcanon.
From stdpp Require Import base list.
From S2P Require Import Prelude Num NumPy PeakSearch.

(** owfft.py 555: [N_2 = int(np.exp2(np.ceil(np.log2(N))))].  For [N = 0]
    numpy gives [log2(0) = -inf] and [exp2(-inf) = 0.0], hence [0]; for
    [N >= 1] the float computation is exact for every [N] below [2^52]
    (beyond, [log2] may round an [N] just above a power of two down). *)
Definition next_pow2 (N : nat) : nat :=
  match N with 0 => 0 | S _ => 2 ^ Nat.log2_up N end.

Lemma next_pow2_spec N :
  0 < N -> N <= next_pow2 N < 2 * N /\ exists k, next_pow2 N = 2 ^ k.
Proof.
  intros HN. destruct N as [|N']; [lia|]. unfold next_pow2.
  split; [|eexists; reflexivity].
  destruct (Nat.lt_ge_cases 1 (S N')) as [Hgt|Hle].
  - pose proof (Nat.log2_up_spec (S N') Hgt) as [Hlo Hhi].
    split; [exact Hhi|].
    destruct (Nat.log2_up (S N')) as [|k] eqn:E; simpl in *; lia.
  - replace (S N') with 1 by lia. simpl. lia.
Qed.

Section ZeroFilling.
Context {R : Type} `{NumLaws R}.

(** owfft.py 553-559 *)
Definition zero_filling (zff : nat) (Ix : list R) : list R :=
  let N := length Ix in
  let N_2 := next_pow2 N in
  let zero_fill := (N_2 - N) + N_2 * zff in
  Ix ++ replicate zero_fill n0.

Lemma zero_filling_pad zff (Ix : list R) :
  zero_filling zff Ix =
  Ix ++ replicate (next_pow2 (length Ix) * (zff + 1) - length Ix) n0.
Proof.
  unfold zero_filling. f_equal. f_equal.
  destruct (length Ix) as [|N] eqn:E; [reflexivity|].
  pose proof (next_pow2_spec (S N)). lia.
Qed.

Lemma length_zero_filling zff (Ix : list R) :
  length (zero_filling zff Ix) = next_pow2 (length Ix) * (zff + 1).
Proof.
  rewrite zero_filling_pad. len. destruct (length Ix) as [|N] eqn:E; [simpl; lia|].
  pose proof (next_pow2_spec (S N)). lia.
Qed.

(** C24: the zero-filled signal has length [N_2 * (zff + 1)], where [N_2]
    is the least power of two not below [N]; the original samples stay in
    front and only zeros are appended. *)
Theorem zero_filling_shape zff (Ix : list R) :
  length (zero_filling zff Ix) = next_pow2 (length Ix) * (zff + 1) /\
  take (length Ix) (zero_filling zff Ix) = Ix /\
  (forall y, y ∈ drop (length Ix) (zero_filling zff Ix) -> y = n0) /\
  (0 < length Ix ->
     length Ix <= next_pow2 (length Ix) < 2 * length Ix /\
     exists k, next_pow2 (length Ix) = 2 ^ k).
Proof.
  split; [apply length_zero_filling|]. rewrite zero_filling_pad. split; [|split].
  - apply take_app_length.
  - rewrite drop_app_length. intros y Hy. apply elem_of_replicate in Hy. apply Hy.
  - apply next_pow2_spec.
Qed.

(** The first zero is the new maximum when every sample is negative. *)
Lemma is_argmax_first_zero (Ix : list R) k m zpd :
  is_argmax Ix zpd -> Ix !! zpd = Some m -> (m <. n0) = true -> 0 < k ->
  is_argmax (Ix ++ replicate k n0) (length Ix).
Proof.
  intros (m' & Hm' & Hmax & _) Hm Hneg Hk. rewrite Hm in Hm'. injection Hm' as <-.
  exists n0. split; [|split].
  - rewrite lookup_app_r, Nat.sub_diag by lia. destruct k; [lia|reflexivity].
  - intros j x Hx. apply lookup_app_Some in Hx as [Hx|[_ Hx]].
    + destruct (n0 <. x) eqn:E; [|reflexivity].
      pose proof (nlt_trans _ _ _ Hneg E) as Hmx.
      rewrite (Hmax _ _ Hx) in Hmx. discriminate.
    + apply lookup_replicate in Hx as [-> _]. apply nlt_irrefl.
  - intros j x Hj Hx. rewrite lookup_app_l in Hx by lia.
    eapply nle_lt_trans; [exact (Hmax _ _ Hx)|exact Hneg].
Qed.

(** C1: zero filling moves the zpd index exactly when the peak value is
    negative and at least one zero is appended; then [peak_search] finds
    the first appended zero, at index [N]. *)
Theorem zero_filling_peak zff (Ix : list R) zpd m :
  peak_search Ix = Ok zpd -> Ix !! zpd = Some m ->
  peak_search (zero_filling zff Ix) =
    Ok (if (m <. n0) && (length Ix <? length (zero_filling zff Ix)) then length Ix else zpd).
Proof.
  unfold peak_search. intros Hz Hm. apply argmax_spec in Hz.
  rewrite zero_filling_pad in *. apply argmax_spec.
  set (k := next_pow2 (length Ix) * (zff + 1) - length Ix) in *.
  assert (Hk : length (Ix ++ replicate k n0) = length Ix + k) by len.
  rewrite Hk. destruct (m <. n0) eqn:Eneg; simpl.
  - destruct (Nat.ltb_spec (length Ix) (length Ix + k)).
    + eapply is_argmax_first_zero; [exact Hz|exact Hm|exact Eneg|lia].
    + replace k with 0 by lia. rewrite app_nil_r. exact Hz.
  - apply (is_argmax_app _ _ _ _ Hz Hm). intros y Hy.
    apply elem_of_replicate in Hy as [-> _]. exact Eneg.
Qed.

Lemma succ_lt_pow2 n : 2 <= n -> n + 1 < 2 ^ n.
Proof.
  induction n as [|n IH]; intros Hn; [lia|].
  destruct (Nat.eq_dec n 1) as [->|Hne]; [simpl; lia|].
  rewrite Nat.pow_succ_r'. specialize (IH ltac:(lia)). lia.
Qed.

(** the "Zero Filling Factor" combo box lists [2**n] for its [n]-th
    entry and stores [n] in [self.zff]; the zero-filled length equals the
    displayed factor times [N_2] only for the first two entries. *)
Theorem zero_filling_factor_index zff (Ix : list R) :
  Ix <> [] ->
  (length (zero_filling zff Ix) = 2 ^ zff * next_pow2 (length Ix) <-> zff <= 1).
Proof.
  intros Hne. rewrite length_zero_filling. pose proof (next_pow2_spec (length Ix)) as Hpow.
  destruct Ix as [|x Ix]; [contradiction|].
  destruct (Hpow ltac:(simpl; lia)) as [[Hlo _] _]. simpl length in *.
  split; intros Hz.
  - destruct (Nat.le_gt_cases zff 1) as [|Hgt]; [assumption|].
    pose proof (succ_lt_pow2 zff ltac:(lia)). nia.
  - destruct zff as [|[|]]; simpl; lia.
Qed.
End ZeroFilling.

(** ** Witnesses on rationals *)

Section Witnesses.
Import QcNum.
Local Abbreviation q := QcNum.of_Z.

(** An all-negative interferogram: after zero filling the maximum is the
    first appended zero. *)
Lemma zero_filling_peak_witness :
  peak_search (zero_filling 0 [q (-3); q (-1); q (-2)]%Z) = Ok 3.
Proof.
  rewrite (zero_filling_peak 0 [q (-3); q (-1); q (-2)]%Z 1 (q (-1))).
  all: vm_compute; reflexivity.
Defined.

Lemma zero_filling_shape_witness :
  length (zero_filling 1 [q 1; q 2; q 3]%Z) = 8.
Proof. rewrite (proj1 (zero_filling_shape 1 _)). reflexivity. Defined.

Lemma zero_filling_factor_index_witness :
  length (zero_filling 2 [q 1; q 2; q 3]%Z) <> 2 ^ 2 * next_pow2 3.
Proof.
  intros Heq. apply (zero_filling_factor_index 2 [q 1; q 2; q 3]%Z) in Heq; [lia|discriminate].
Defined.
End Witnesses.
