(* ===== verification/Apodization.v ===== *)
(** * Apodizer: [OWFFT.apodization] (owfft.py 460-540)

    [apodization(Ix, zpd)] multiplies the interferogram by a window chosen by
    the setting [self.apod_func] (the index of the "Apodization function"
    combo box): 0 Boxcar, 1 Blackman-Harris 3-term, 2 Blackman-Harris 4-term,
    3 Blackman-Nuttall.  The Blackman-Harris windows are built as two wings
    of lengths [zpd + 1] and [N - (zpd + 1)], the negative one reversed; the
    Blackman-Nuttall window is one formula over the whole index range with
    the period [2 * delta - 1], [delta = min(wing_n, wing_p)].  Any other
    value of [apod_func] leaves [Bs] unbound.

    The theorems: the window always has the length of the signal, so the
    "size mismatch" [ValueError] cannot happen; an unknown [apod_func]
    raises an [UnboundLocalError], which the widget does not catch; Boxcar is
    the identity; the Blackman-Harris windows take at zpd the sum of their
    coefficients; the Blackman-Nuttall window takes at index 0 the same
    near-zero value whatever zpd is. *)

From Stdlib Require Import ZArith QArith Lia.
From stdpp Require Import base list.
From S2P Require Import Prelude Num NumPy.

Section Apodization.
Context {R : Type} `{Num R}.

(** owfft.py 492-499 (and 511-518): one sample of a Blackman-Harris wing,
    [A0 + A1*cos(pi*n/wing) + A2*cos(pi*2*n/wing) + A3*cos(pi*3*n/wing)]. *)
Definition bh_term (A0 A1 A2 A3 : R) (wing : Z) (n : R) : R :=
  A0 +. A1 × ncos (npi × n /. nof_Z wing)
     +. A2 × ncos (npi × nof_Z 2 × n /. nof_Z wing)
     +. A3 × ncos (npi × nof_Z 3 × n /. nof_Z wing).

(** owfft.py 490-499: [n = np.arange(wing)], the wing over it. *)
Definition bh_wing (A0 A1 A2 A3 : R) (wing : Z) : list R :=
  map (bh_term A0 A1 A2 A3 wing) (arange wing).

(** owfft.py 490-500: [Bs = np.hstack((Bs_n[::-1], Bs_p))]. *)
Definition blackman_harris (A0 A1 A2 A3 : R) (wing_n wing_p : Z) : list R :=
  reverse (bh_wing A0 A1 A2 A3 wing_n) ++ bh_wing A0 A1 A2 A3 wing_p.

(** owfft.py 529-532: one sample of the Blackman-Nuttall window. *)
Definition bn_term (delta : Z) (x : R) : R :=
  nlit 0.3635819
    -. nlit 0.4891775 × ncos (nof_Z 2 × npi × x /. nof_Z (2 * delta - 1))
    +. nlit 0.1365995 × ncos (nof_Z 4 × npi × x /. nof_Z (2 * delta - 1))
    -. nlit 0.0106411 × ncos (nof_Z 6 × npi × x /. nof_Z (2 * delta - 1)).

(** owfft.py 473-532: the window [Bs] selected by [self.apod_func]. *)
Definition apodization_window (apod_func : nat) (N zpd : nat) : result (list R) :=
  let wing_n := (Z.of_nat zpd + 1)%Z in
  let wing_p := (Z.of_nat N - (Z.of_nat zpd + 1))%Z in
  match apod_func with
  | 0 => Ok (replicate N n1)
  | 1 => Ok (blackman_harris (nlit 0.42323) (nlit 0.49755) (nlit 0.07922) (nlit 0.0)
                             wing_n wing_p)
  | 2 => Ok (blackman_harris (nlit 0.35875) (nlit 0.48829) (nlit 0.14128) (nlit 0.01168)
                             wing_n wing_p)
  | 3 => let delta := Z.min wing_n wing_p in
         Ok (map (bn_term delta) (arange (Z.of_nat N)))
  | _ => Err UnboundBs
  end.

(** owfft.py 460-540: [Ix_apod = Ix * Bs], a broadcasting failure being
    re-raised as "Apodization function size mismatch". *)
Definition apodization (apod_func : nat) (Ix : list R) (zpd : nat) : result (list R) :=
  let? Bs := apodization_window apod_func (length Ix) zpd in
  match np_binop nmul Ix Bs with
  | Err (Broadcast n m) => Err (ApodMismatch n m)
  | r => r
  end.

Lemma length_bh_wing A0 A1 A2 A3 wing : length (bh_wing A0 A1 A2 A3 wing) = Z.to_nat wing.
Proof. unfold bh_wing. len. Qed.

Lemma length_apodization_window apod_func N zpd Bs :
  zpd < N -> apodization_window apod_func N zpd = Ok Bs -> length Bs = N.
Proof.
  intros Hz. unfold apodization_window.
  destruct apod_func as [|[|[|[|k]]]]; intros [= <-]; unfold blackman_harris;
    rewrite ?length_app, ?length_reverse, ?length_bh_wing; len.
Qed.

Lemma length_apodization apod_func (Ix : list R) zpd Ix_apod :
  zpd < length Ix -> apodization apod_func Ix zpd = Ok Ix_apod -> length Ix_apod = length Ix.
Proof.
  intros Hz. unfold apodization.
  destruct (apodization_window apod_func (length Ix) zpd) as [Bs|e] eqn:HB; [|discriminate].
  pose proof (length_apodization_window _ _ _ _ Hz HB) as HBs.
  simpl. rewrite np_binop_same_length by congruence. intros [= <-]. len.
Qed.
End Apodization.

Section ApodizationTheory.
Context {R : Type} `{NumLaws R}.

(** Multiplying by an array of ones, as the boxcar window does, is the
    identity. *)
Lemma np_mul_ones (Ix : list R) : np_binop nmul Ix (replicate (length Ix) n1) = Ok Ix.
Proof.
  rewrite np_binop_same_length by len.
  rewrite zip_with_replicate_r by lia. f_equal.
  rewrite <- (list_fmap_id Ix) at 2. apply list_fmap_ext. intros i x _. apply nmul_1_r.
Qed.

Lemma apodization_window_ok apod_func (Ix : list R) zpd Bs :
  zpd < length Ix -> apodization_window apod_func (length Ix) zpd = Ok Bs ->
  apodization apod_func Ix zpd = Ok (zip_with nmul Ix Bs).
Proof.
  intros Hz HB. unfold apodization. rewrite HB. simpl.
  rewrite np_binop_same_length; [reflexivity|].
  symmetry. eapply length_apodization_window; eassumption.
Qed.

Lemma lookup_zip_with_Some (f : R -> R -> R) l k i x y :
  l !! i = Some x -> k !! i = Some y -> zip_with f l k !! i = Some (f x y).
Proof. intros Hx Hy. rewrite lookup_zip_with, Hx, Hy. reflexivity. Qed.

(** C14: with [apod_func] one of the four combo entries and the zpd inside
    the signal, [apodization] succeeds with a signal of the same length (the
    "size mismatch" [ValueError] is unreachable); any other [apod_func]
    leaves [Bs] unbound, an [UnboundLocalError] that is not a [ValueError]. *)
Theorem apodization_result apod_func (Ix : list R) zpd :
  zpd < length Ix ->
  (apod_func <= 3 ->
     exists Ix_apod, apodization apod_func Ix zpd = Ok Ix_apod /\
                     length Ix_apod = length Ix) /\
  (3 < apod_func ->
     apodization apod_func Ix zpd = Err UnboundBs /\ is_value_error UnboundBs = false).
Proof.
  intros Hz. split; intros Hf.
  - assert (Hw : exists Bs, apodization_window apod_func (length Ix) zpd = Ok Bs)
      by (destruct apod_func as [|[|[|[|k]]]]; [eexists; reflexivity..|lia]).
    destruct Hw as [Bs HB]. exists (zip_with nmul Ix Bs).
    split; [apply apodization_window_ok; assumption|].
    rewrite length_zip_with. pose proof (length_apodization_window _ _ _ _ Hz HB). lia.
  - destruct apod_func as [|[|[|[|k]]]]; [lia..|]. split; reflexivity.
Qed.

(** C7: Boxcar apodization ([apod_func = 0]) returns the interferogram
    unchanged, whatever the zpd. *)
Theorem apodization_boxcar (Ix : list R) zpd : apodization 0 Ix zpd = Ok Ix.
Proof. unfold apodization. simpl. rewrite np_mul_ones. reflexivity. Qed.

(** The sample [n = 0] of a Blackman-Harris wing is the sum of the
    coefficients. *)
Lemma bh_term_0 A0 A1 A2 A3 wing : bh_term A0 A1 A2 A3 wing n0 = A0 +. A1 +. A2 +. A3.
Proof. unfold bh_term. num_simpl. reflexivity. Qed.

Lemma blackman_harris_at_zpd A0 A1 A2 A3 (zpd : nat) wing_p :
  blackman_harris A0 A1 A2 A3 (Z.of_nat zpd + 1) wing_p !! zpd = Some (A0 +. A1 +. A2 +. A3).
Proof.
  unfold blackman_harris. rewrite lookup_app_l by (len; rewrite length_bh_wing; lia).
  rewrite reverse_lookup by (rewrite length_bh_wing; lia).
  rewrite length_bh_wing. unfold bh_wing. rewrite lookup_map_fmap.
  rewrite lookup_arange by lia.
  replace (Z.to_nat (Z.of_nat zpd + 1) - S zpd) with 0 by lia. simpl.
  rewrite nof_Z_0, bh_term_0. reflexivity.
Qed.

(** C25: the two Blackman-Harris apodizations keep the zpd sample scaled by
    the sum of their coefficients ([0.42323 + 0.49755 + 0.07922 + 0.0] and
    [0.35875 + 0.48829 + 0.14128 + 0.01168]): the window peaks at zpd. *)
Theorem apodization_bh_at_zpd (Ix : list R) zpd x :
  Ix !! zpd = Some x ->
  (exists r, apodization 1 Ix zpd = Ok r /\
     r !! zpd = Some (x × (nlit 0.42323 +. nlit 0.49755 +. nlit 0.07922 +. nlit 0.0))) /\
  (exists r, apodization 2 Ix zpd = Ok r /\
     r !! zpd = Some (x × (nlit 0.35875 +. nlit 0.48829 +. nlit 0.14128 +. nlit 0.01168))).
Proof.
  intros Hx. assert (Hz : zpd < length Ix) by (eapply lookup_lt_Some; exact Hx).
  split; (eexists; split; [apply apodization_window_ok; [exact Hz|reflexivity]|]);
    (eapply lookup_zip_with_Some; [exact Hx|apply blackman_harris_at_zpd]).
Qed.

Lemma bn_term_0 delta :
  bn_term delta n0 = nlit 0.3635819 -. nlit 0.4891775 +. nlit 0.1365995 -. nlit 0.0106411.
Proof. unfold bn_term. num_simpl. reflexivity. Qed.

(** C26: the Blackman-Nuttall window ([apod_func = 3]) is not centred on
    the zpd: its first sample is scaled by
    [0.3635819 - 0.4891775 + 0.1365995 - 0.0106411] (about 0.00036) whatever
    the zpd is, so an interferogram whose centerburst is at index 0 loses
    it (the source's TODO at line 523). *)
Theorem apodization_bn_origin (Ix : list R) zpd x :
  zpd < length Ix -> Ix !! 0 = Some x ->
  exists r, apodization 3 Ix zpd = Ok r /\
    r !! 0 = Some (x × (nlit 0.3635819 -. nlit 0.4891775 +. nlit 0.1365995 -. nlit 0.0106411)).
Proof.
  intros Hz Hx. eexists. split; [apply apodization_window_ok; [exact Hz|reflexivity]|].
  eapply lookup_zip_with_Some; [exact Hx|].
  rewrite lookup_map_fmap, lookup_arange by lia. simpl. rewrite nof_Z_0, bn_term_0. reflexivity.
Qed.
End ApodizationTheory.

(** ** Witnesses on rationals *)

Section Witnesses.
Import QcNum.
Local Abbreviation q := QcNum.of_Z.

Lemma apodization_result_witness :
  (exists Ix_apod, apodization 2 [q 1; q 5; q 2]%Z 1 = Ok Ix_apod /\ length Ix_apod = 3) /\
  apodization 7 [q 1; q 5; q 2]%Z 1 = Err UnboundBs.
Proof.
  pose proof (apodization_result 2 [q 1; q 5; q 2]%Z 1) as H2.
  pose proof (apodization_result 7 [q 1; q 5; q 2]%Z 1) as H7.
  split; [apply H2; simpl; lia|apply H7; simpl; lia].
Defined.

Lemma apodization_boxcar_witness : apodization 0 [q 1; q 5; q 2]%Z 4 = Ok [q 1; q 5; q 2]%Z.
Proof. exact (apodization_boxcar _ _). Defined.

Lemma apodization_bh_at_zpd_witness :
  exists r, apodization 2 [q 1; q 5; q 2]%Z 1 = Ok r /\
    r !! 1 = Some (q 5 × (nlit 0.35875 +. nlit 0.48829 +. nlit 0.14128 +. nlit 0.01168)).
Proof.
  pose proof (apodization_bh_at_zpd [q 1; q 5; q 2]%Z 1 (q 5)) as [_ H2]; [reflexivity|exact H2].
Defined.

Lemma apodization_bn_origin_witness :
  exists r, apodization 3 [q 5; q 1; q 2]%Z 0 = Ok r /\
    r !! 0 = Some (q 5 × (nlit 0.3635819 -. nlit 0.4891775 +. nlit 0.1365995 -. nlit 0.0106411)).
Proof.
  pose proof (apodization_bn_origin [q 5; q 1; q 2]%Z 0 (q 5)) as Hbn.
  apply Hbn; [simpl; lia|reflexivity].
Defined.
End Witnesses.
