(* ===== verification/Sweeps.v ===== *)
(** * SweepResolver: [OWFFT.determine_sweeps] (owfft.py 312-340)

    The widget inspects only the first row of the input: a peak within 25
    samples of the middle means a single sweep ([self.sweeps = 0]);
    otherwise the row is split in halves (an odd length, which makes
    [np.hsplit] raise, also means single), the second half is reversed, and
    the two zpds within 25 samples of each other mean a forward-backward
    double sweep ([self.sweeps = 1]).  [sweep_mode] is that decision as a
    function of the row; the widget method that reads [self.data.X[0]] and
    writes [self.sweeps] is [Widget.determine_sweeps].

    The theorems: the classification never fails on a non-empty row and
    always yields 0 or 1; a row [S ++ reverse S] (a sweep followed by its
    mirror image) is classified forward-backward exactly when the peak of
    [S] lies more than 25 samples before its end; a row whose peak is
    within 25 samples of the middle is single. *)

From Stdlib Require Import ZArith Lia Qcanon.
From stdpp Require Import base list.
From S2P Require Import Prelude Num NumPy PeakSearch.

Section Sweeps.
Context {R : Type} `{Num R}.

(** Python's [a >= b - 25 and a <= b + 25] on integers. *)
Definition within25 (a b : nat) : bool :=
  (Z.of_nat b - 25 <=? Z.of_nat a)%Z && (Z.of_nat a <=? Z.of_nat b + 25)%Z.

(** owfft.py 320-340, for the row [data = self.data.X[0]]. *)
Definition sweep_mode (data : list R) : result nat :=
  let? zpd := peak_search data in
  let middle := length data / 2 in
  if within25 zpd middle then Ok 0
  else match hsplit2 data with
       | Err _ => Ok 0
       | Ok (d0, d1) =>
           let? zpd1 := peak_search d0 in
           let? zpd2 := peak_search (reverse d1) in
           if within25 zpd1 zpd2 then Ok 1 else Ok 0
       end.
End Sweeps.

Section SweepsTheory.
Context {R : Type} `{NumLaws R}.

(** The first maximum of a sweep is also the first maximum of the sweep
    followed by its mirror image. *)
Lemma peak_search_mirror (S : list R) zpd :
  peak_search S = Ok zpd -> peak_search (S ++ reverse S) = Ok zpd.
Proof.
  unfold peak_search. rewrite !argmax_spec. intros Hz.
  pose proof Hz as (m & Hm & Hmax & _).
  apply (is_argmax_app _ _ _ _ Hz Hm). intros y Hy.
  rewrite elem_of_reverse in Hy. apply list_elem_of_lookup in Hy as [j Hj]. exact (Hmax _ _ Hj).
Qed.

(** A first row is classified forward-backward, or makes the
    classification raise, only if it has even length. *)
Lemma sweep_mode_even (data : list R) :
  sweep_mode data <> Ok 0 -> Nat.even (length data) = true.
Proof.
  intros Hm. destruct (Nat.even (length data)) eqn:Ev; [reflexivity|exfalso; apply Hm].
  unfold sweep_mode. destruct (peak_search data) as [zpd|e] eqn:Ez.
  - cbn [rbind]. destruct (within25 _ _); [reflexivity|].
    unfold hsplit2. rewrite Ev. reflexivity.
  - apply argmax_err in Ez as [-> _]. discriminate.
Qed.

(** C8: a row made of a sweep [S] followed by its mirror image is
    classified forward-backward ([1]) exactly when the peak of [S] lies more
    than 25 samples before the end of [S]; otherwise its peak is within 25
    samples of the middle of the row and it is classified single ([0]). *)
Theorem sweep_mode_mirror (S : list R) zpd :
  peak_search S = Ok zpd ->
  sweep_mode (S ++ reverse S) = Ok (if zpd + 25 <? length S then 1 else 0).
Proof.
  intros Hz. pose proof (argmax_lt _ _ Hz) as Hlt.
  unfold sweep_mode. rewrite (peak_search_mirror _ _ Hz). cbn [rbind].
  rewrite length_app, length_reverse.
  replace ((length S + length S) / 2) with (length S)
    by (replace (length S + length S) with (length S * 2) by lia; rewrite Nat.div_mul; lia).
  unfold within25. destruct (Nat.ltb_spec (zpd + 25) (length S)).
  - replace ((Z.of_nat (length S) - 25 <=? Z.of_nat zpd)%Z) with false by lia.
    rewrite andb_false_l.
    rewrite hsplit2_app by (rewrite length_reverse; reflexivity).
    rewrite Hz, reverse_involutive, Hz. cbn [rbind].
    replace ((Z.of_nat zpd - 25 <=? Z.of_nat zpd)%Z) with true by lia.
    replace ((Z.of_nat zpd <=? Z.of_nat zpd + 25)%Z) with true by lia. reflexivity.
  - replace ((Z.of_nat (length S) - 25 <=? Z.of_nat zpd)%Z) with true by lia.
    replace ((Z.of_nat zpd <=? Z.of_nat (length S) + 25)%Z) with true by lia. reflexivity.
Qed.

Lemma peak_search_nonempty (l : list R) : l <> [] -> exists k, peak_search l = Ok k.
Proof.
  intros Hne. unfold peak_search. destruct (argmax l) as [k|e] eqn:E; [eauto|].
  apply argmax_err in E as [-> _]. contradiction.
Qed.

(** C27: on a non-empty first row the classification never raises and
    yields 0 (single) or 1 (forward-backward); it yields single when the
    peak is within 25 samples of the middle, and whenever the row has odd
    length (the [ValueError] of [np.hsplit] is caught).  On an empty row
    numpy's argmax [ValueError] escapes. *)
Theorem sweep_mode_total (data : list R) :
  (data = [] -> sweep_mode data = Err ArgmaxEmpty) /\
  (data <> [] -> exists s zpd, sweep_mode data = Ok s /\ peak_search data = Ok zpd /\
     (s = 0 \/ s = 1) /\
     (within25 zpd (length data / 2) = true -> s = 0) /\
     (Nat.odd (length data) = true -> s = 0)).
Proof.
  split; [intros ->; reflexivity|]. intros Hne.
  destruct (peak_search_nonempty _ Hne) as [zpd Hz].
  unfold sweep_mode. rewrite Hz. cbn [rbind].
  destruct (within25 zpd (length data / 2)) eqn:Ew.
  { exists 0, zpd. auto. }
  unfold hsplit2. destruct (Nat.even (length data)) eqn:Ev.
  2: { exists 0, zpd. auto. }
  assert (Hn : 0 < length data) by (destruct data; [contradiction|simpl; lia]).
  assert (H2 : 2 <= length data) by (apply Nat.even_spec in Ev as [k Hk]; lia).
  pose proof (Nat.div_lt (length data) 2 ltac:(lia) ltac:(lia)).
  assert (1 <= length data / 2) by (apply Nat.div_le_lower_bound; lia).
  remember (length data / 2) as h eqn:Eh.
  destruct (peak_search_nonempty (take h data)) as [z1 Hz1].
  { intros Ht. apply (f_equal length) in Ht. rewrite length_take in Ht. cbn [length] in Ht. lia. }
  destruct (peak_search_nonempty (reverse (drop h data))) as [z2 Hz2].
  { intros Ht. apply (f_equal length) in Ht. rewrite length_reverse, length_drop in Ht.
    cbn [length] in Ht. lia. }
  rewrite Hz1, Hz2. cbn [rbind].
  exists (if within25 z1 z2 then 1 else 0), zpd.
  split; [destruct (within25 z1 z2); reflexivity|].
  split; [reflexivity|]. split; [destruct (within25 z1 z2); auto|].
  split; [intros Hw; congruence|].
  intros Ho. rewrite <- Nat.negb_even, Ev in Ho. discriminate.
Qed.
End SweepsTheory.

(** ** Witnesses on rationals *)

Section Witnesses.
Import QcNum.
Local Abbreviation q := QcNum.of_Z.

(** A sweep of 31 samples peaking at index 0 and its mirror image. *)
Lemma sweep_mode_mirror_witness :
  sweep_mode ((q 9 :: replicate 30 (q 0)) ++ reverse (q 9 :: replicate 30 (q 0))) = Ok 1.
Proof.
  pose proof (sweep_mode_mirror (q 9 :: replicate 30 (q 0)) 0) as Hm.
  rewrite Hm; [reflexivity|vm_compute; reflexivity].
Defined.

Lemma sweep_mode_total_witness :
  exists s zpd, sweep_mode [q 1; q 7; q 2]%Z = Ok s /\ peak_search [q 1; q 7; q 2]%Z = Ok zpd /\
    (s = 0 \/ s = 1) /\ (within25 zpd (3 / 2) = true -> s = 0) /\ (Nat.odd 3 = true -> s = 0).
Proof.
  pose proof (sweep_mode_total [q 1; q 7; q 2]%Z) as [_ Ht]. apply Ht. discriminate.
Defined.
End Witnesses.
