(* ===== verification/State.v ===== *)
(** * The state of the [OWFFT] widget (owfft.py 12-65)

    The Python object [self] becomes the record [owfft]: its settings
    (owfft.py 30-41, the record [settings]), the input rows
    [self.data.X], the sweep mode [self.sweeps], the shared axis
    [self.wavenumbers], the stacked [self.spectra], the output table
    [self.spectra_table], the message slots [self.error(1)],
    [self.error(2)] and [self.warning(4)], the sequence of tables sent
    on the "Spectra" output, and the enabled state of the controls the code
    switches ([controls]).  [None] in Python is [None] here.  The
    methods are functions in the state-and-error monad [st owfft] of the
    prelude, so an assignment made before an exception is kept. *)

From Stdlib Require Import ZArith QArith.
From stdpp Require Import base list strings pretty.
From S2P Require Import Prelude Num.

(** owfft.py 30-41: the widget settings. *)
Record settings (R : Type) := Settings {
  laser_wavenumber : R;
  dx_HeNe : bool;
  dx : R;
  apod_func : nat;          (** index into [apod_opts] *)
  zff : nat;                (** index into the [2**n] combo box *)
  phase_corr : nat;
  phase_res_limit : bool;
  phase_resolution : Z;     (** [valueType=int] *)
  limit_output : bool;
  out_limit1 : R;
  out_limit2 : R;
  autocommit : bool
}.
Arguments Settings {R}.
Arguments laser_wavenumber {R}. Arguments dx_HeNe {R}. Arguments dx {R}.
Arguments apod_func {R}. Arguments zff {R}. Arguments phase_corr {R}.
Arguments phase_res_limit {R}. Arguments phase_resolution {R}.
Arguments limit_output {R}. Arguments out_limit1 {R}. Arguments out_limit2 {R}.
Arguments autocommit {R}.

(** The table built by [build_spec_table(wavenumbers, spectra)]
    (orangecontrib.infrared.data, outside src/): the model keeps its two
    arguments. *)
Record spec_table (R : Type) := SpecTable {
  table_wavenumbers : option (list R);
  table_spectra : option (list (list R))
}.
Arguments SpecTable {R}.
Arguments table_wavenumbers {R}. Arguments table_spectra {R}.

Definition build_spec_table {R} (wavenumbers : option (list R))
  (spectra : option (list (list R))) : spec_table R := SpecTable wavenumbers spectra.

(** The state of the controls the code changes: the enabled state
    ([QWidget.setDisabled]) of the "Input Data" and "FFT Options" boxes
    (owfft.py 177-178, 191-192, 197-198), always switched together, and of
    the [dx] line edit (owfft.py 83, 215), and the texts of the two labels
    of the "Info" box, [self.infoa] and [self.infob] (70-71, 188-191,
    200-201). *)
Record controls := Controls {
  boxes_enabled : bool;
  dx_edit_enabled : bool;
  infoa : string;
  infob : string
}.

(** The widget object. *)
Record owfft (R : Type) := OWFFT {
  cfg : settings R;
  data : option (list (list R));         (** [self.data.X], its rows *)
  spectra : option (list (list R));      (** [self.spectra], its rows *)
  spectra_table : option (spec_table R); (** [self.spectra_table] *)
  wavenumbers : option (list R);         (** [self.wavenumbers] *)
  sweeps : option nat;                   (** [self.sweeps] *)
  error1 : option py_error;              (** [self.error(1, ...)] *)
  error2 : option py_error;              (** [self.error(2, ...)] *)
  warning4 : bool;                       (** [self.warning(4, ...)] shown *)
  dirty : bool;                          (** [gui.auto_commit]'s pending commit *)
  sent : list (option (spec_table R));   (** [self.send("Spectra", ...)], latest first *)
  ui : controls                          (** the enabled controls *)
}.
Arguments OWFFT {R}.
Arguments cfg {R}. Arguments data {R}. Arguments spectra {R}.
Arguments spectra_table {R}. Arguments wavenumbers {R}. Arguments sweeps {R}.
Arguments error1 {R}. Arguments error2 {R}. Arguments warning4 {R}. Arguments dirty {R}.
Arguments sent {R}. Arguments ui {R}.

Section Updates.
Context {R : Type}.
Implicit Types (s : owfft R).

Definition set_cfg (c : settings R) s : owfft R :=
  OWFFT c (data s) (spectra s) (spectra_table s) (wavenumbers s) (sweeps s)
        (error1 s) (error2 s) (warning4 s) (dirty s) (sent s) (ui s).
Definition set_data (d : option (list (list R))) s : owfft R :=
  OWFFT (cfg s) d (spectra s) (spectra_table s) (wavenumbers s) (sweeps s)
        (error1 s) (error2 s) (warning4 s) (dirty s) (sent s) (ui s).
Definition set_spectra (sp : option (list (list R))) s : owfft R :=
  OWFFT (cfg s) (data s) sp (spectra_table s) (wavenumbers s) (sweeps s)
        (error1 s) (error2 s) (warning4 s) (dirty s) (sent s) (ui s).
Definition set_table (t : option (spec_table R)) s : owfft R :=
  OWFFT (cfg s) (data s) (spectra s) t (wavenumbers s) (sweeps s)
        (error1 s) (error2 s) (warning4 s) (dirty s) (sent s) (ui s).
Definition set_wavenumbers (w : option (list R)) s : owfft R :=
  OWFFT (cfg s) (data s) (spectra s) (spectra_table s) w (sweeps s)
        (error1 s) (error2 s) (warning4 s) (dirty s) (sent s) (ui s).
Definition set_sweeps (sw : option nat) s : owfft R :=
  OWFFT (cfg s) (data s) (spectra s) (spectra_table s) (wavenumbers s) sw
        (error1 s) (error2 s) (warning4 s) (dirty s) (sent s) (ui s).
Definition set_error1 (e : option py_error) s : owfft R :=
  OWFFT (cfg s) (data s) (spectra s) (spectra_table s) (wavenumbers s) (sweeps s)
        e (error2 s) (warning4 s) (dirty s) (sent s) (ui s).
Definition set_error2 (e : option py_error) s : owfft R :=
  OWFFT (cfg s) (data s) (spectra s) (spectra_table s) (wavenumbers s) (sweeps s)
        (error1 s) e (warning4 s) (dirty s) (sent s) (ui s).
Definition set_warning4 (b : bool) s : owfft R :=
  OWFFT (cfg s) (data s) (spectra s) (spectra_table s) (wavenumbers s) (sweeps s)
        (error1 s) (error2 s) b (dirty s) (sent s) (ui s).
Definition set_dirty (b : bool) s : owfft R :=
  OWFFT (cfg s) (data s) (spectra s) (spectra_table s) (wavenumbers s) (sweeps s)
        (error1 s) (error2 s) (warning4 s) b (sent s) (ui s).
(** [self.send("Spectra", t)] *)
Definition send_spectra (t : option (spec_table R)) s : owfft R :=
  OWFFT (cfg s) (data s) (spectra s) (spectra_table s) (wavenumbers s) (sweeps s)
        (error1 s) (error2 s) (warning4 s) (dirty s) (t :: sent s) (ui s).
Definition set_ui (g : controls) s : owfft R :=
  OWFFT (cfg s) (data s) (spectra s) (spectra_table s) (wavenumbers s) (sweeps s)
        (error1 s) (error2 s) (warning4 s) (dirty s) (sent s) g.
(** [self.dataBox.setDisabled(negb b)] with [self.optionsBox.setDisabled(negb b)] *)
Definition set_boxes (b : bool) s : owfft R :=
  set_ui (Controls b (dx_edit_enabled (ui s)) (infoa (ui s)) (infob (ui s))) s.
(** [self.dx_edit.setDisabled(negb b)] *)
Definition set_dx_edit (b : bool) s : owfft R :=
  set_ui (Controls (boxes_enabled (ui s)) b (infoa (ui s)) (infob (ui s))) s.
(** [self.infoa.setText(a)] and [self.infob.setText(b)] *)
Definition set_info (a b : string) s : owfft R :=
  set_ui (Controls (boxes_enabled (ui s)) (dx_edit_enabled (ui s)) a b) s.
End Updates.

(** Assignments to one setting, [self.<setting> = v]. *)
Section SettingUpdates.
Context {R : Type}.
Implicit Types (c : settings R).

Definition upd_dx (v : R) c : settings R :=
  Settings (laser_wavenumber c) (dx_HeNe c) v (apod_func c) (zff c) (phase_corr c)
           (phase_res_limit c) (phase_resolution c) (limit_output c) (out_limit1 c)
           (out_limit2 c) (autocommit c).
Definition upd_dx_HeNe (b : bool) c : settings R :=
  Settings (laser_wavenumber c) b (dx c) (apod_func c) (zff c) (phase_corr c)
           (phase_res_limit c) (phase_resolution c) (limit_output c) (out_limit1 c)
           (out_limit2 c) (autocommit c).
Definition upd_apod_func (n : nat) c : settings R :=
  Settings (laser_wavenumber c) (dx_HeNe c) (dx c) n (zff c) (phase_corr c)
           (phase_res_limit c) (phase_resolution c) (limit_output c) (out_limit1 c)
           (out_limit2 c) (autocommit c).
Definition upd_zff (n : nat) c : settings R :=
  Settings (laser_wavenumber c) (dx_HeNe c) (dx c) (apod_func c) n (phase_corr c)
           (phase_res_limit c) (phase_resolution c) (limit_output c) (out_limit1 c)
           (out_limit2 c) (autocommit c).
Definition upd_phase_corr (n : nat) c : settings R :=
  Settings (laser_wavenumber c) (dx_HeNe c) (dx c) (apod_func c) (zff c) n
           (phase_res_limit c) (phase_resolution c) (limit_output c) (out_limit1 c)
           (out_limit2 c) (autocommit c).
Definition upd_phase_res_limit (b : bool) c : settings R :=
  Settings (laser_wavenumber c) (dx_HeNe c) (dx c) (apod_func c) (zff c) (phase_corr c)
           b (phase_resolution c) (limit_output c) (out_limit1 c)
           (out_limit2 c) (autocommit c).
Definition upd_phase_resolution (z : Z) c : settings R :=
  Settings (laser_wavenumber c) (dx_HeNe c) (dx c) (apod_func c) (zff c) (phase_corr c)
           (phase_res_limit c) z (limit_output c) (out_limit1 c)
           (out_limit2 c) (autocommit c).
Definition upd_limit_output (b : bool) c : settings R :=
  Settings (laser_wavenumber c) (dx_HeNe c) (dx c) (apod_func c) (zff c) (phase_corr c)
           (phase_res_limit c) (phase_resolution c) b (out_limit1 c)
           (out_limit2 c) (autocommit c).
Definition upd_out_limits (l1 l2 : R) c : settings R :=
  Settings (laser_wavenumber c) (dx_HeNe c) (dx c) (apod_func c) (zff c) (phase_corr c)
           (phase_res_limit c) (phase_resolution c) (limit_output c) l1 l2 (autocommit c).
Definition upd_autocommit (b : bool) c : settings R :=
  Settings (laser_wavenumber c) (dx_HeNe c) (dx c) (apod_func c) (zff c) (phase_corr c)
           (phase_res_limit c) (phase_resolution c) (limit_output c) (out_limit1 c)
           (out_limit2 c) b.
End SettingUpdates.

Section Init.
Context {R : Type} `{Num R}.

(** owfft.py 30-41: the default settings. *)
Definition default_settings : settings R :=
  Settings (nlit 15797.337544) true (nlit 1.0) 1 1 0 true 32 true
           (nof_Z 400) (nof_Z 4000) false.

(** The text of [self.infoa] without data (owfft.py 70, 200). *)
Definition no_data_text : string := "No data on input.".

(** owfft.py 70-71, 83 and 177-178: the [dx] edit is created disabled
    when [dx_HeNe] is set, both boxes are disabled until data arrives, and
    the Info box says there is no data. *)
Definition init_controls (c : settings R) : controls :=
  Controls false (negb (dx_HeNe c)) no_data_text "".

(** owfft.py 56-65: [__init__]: every field [None], and
    [dx = 1.0 / laser_wavenumber / 2.0] when [dx_HeNe is True]. *)
Definition init_owfft (c : settings R) : owfft R :=
  let c' := if dx_HeNe c then upd_dx (nlit 1.0 /. laser_wavenumber c /. nlit 2.0) c else c in
  OWFFT c' None None None None None None None false false [] (init_controls c).
End Init.
