(* ===== verification/Phase.v ===== *)
(** * PhaseEstimator: [OWFFT.compute_phase] (owfft.py 400-458)

    [compute_phase(Ix)] takes a short double-sided interferogram
    [Ix[zpd - L : zpd + L]] around the peak, apodizes and zero-fills it,
    rotates it so its peak is at index 0, takes its real FFT and the angle
    [arctan2(imag, real)] of every bin, and interpolates that phase onto
    [self.wavenumbers].  The half-width [L] is the largest possible
    [delta = min(zpd, N - 1 - zpd)], or, when [self.phase_res_limit] is set,
    [int(1 / (dx * phase_resolution)) - 1], clamped to [delta] with the
    warning 4 when it exceeds it.

    The theorems: [L] never exceeds [delta], and the state changes only by
    the warning, raised exactly when [L] is clamped; for [0 < L <= delta]
    the slice has [2L] samples with its peak at index [L]; [L = 0], which
    happens whenever the peak is the first or the last sample and the limit
    is off, makes [compute_phase] raise numpy's argmax [ValueError]; a
    negative [L] makes Python's slice bounds wrap around. *)

From Stdlib Require Import ZArith Lia Qcanon.
From stdpp Require Import base list.
From S2P Require Import Prelude Num NumPy PeakSearch ZeroFilling Apodization State.

Section Phase.
Context {R : Type} `{Num R}.

(** owfft.py 373 and 440: [np.hstack((x[zpd:], x[0:zpd]))]. *)
Definition rotate_zpd (zpd : nat) (x : list R) : list R := drop zpd x ++ take zpd x.

(** owfft.py 412-427: the half-width [L] of the phase interferogram. *)
Definition phase_length (zpd N : nat) : st (owfft R) Z :=
  s <- sget ;;
  let delta := Z.of_nat (Nat.min zpd (N - 1 - zpd)) in
  if phase_res_limit (cfg s) then
    let p := dx (cfg s) × nof_Z (phase_resolution (cfg s)) in
    if neqb p n0 then sraise ZeroDivision
    else
      let L := (ntrunc (n1 /. p) - 1)%Z in
      if (delta <? L)%Z then smodify (set_warning4 true) ;;; sret delta
      else sret L
  else sret delta.

(** owfft.py 400-458. *)
Definition compute_phase (Ix : list R) : st (owfft R) (list R) :=
  zpd <- slift (peak_search Ix) ;;
  L <- phase_length zpd (length Ix) ;;
  let Ixs := py_slice Ix (Z.of_nat zpd - L) (Z.of_nat zpd + L) in
  zpd_s <- slift (peak_search Ixs) ;;
  s <- sget ;;
  Ixs_apod <- slift (apodization (apod_func (cfg s)) Ixs zpd_s) ;;
  let Ixs_zff := zero_filling (zff (cfg s)) Ixs_apod in
  new_zpd <- slift (peak_search Ixs_zff) ;;
  (if zpd_s =? new_zpd then sret tt else sraise (ZpdShift zpd_s new_zpd)) ;;;
  Ixs_fft <- slift (rfft (rotate_zpd zpd_s Ixs_zff)) ;;
  wavenumber_sample <- slift (np_rfftfreq (length Ixs_zff) (dx (cfg s))) ;;
  let phase_sampled := map (fun c => natan2 c.2 c.1) Ixs_fft in
  match wavenumbers s with
  | Some w => slift (interp w wavenumber_sample phase_sampled)
  | None => sraise NoneOperand
  end.
End Phase.

Section PhaseLength.
Context {R : Type} `{Num R}.

(** C28: the half-width [L] of the phase interferogram: with the limit off
    it is [delta = min(zpd, N-1-zpd)] and nothing changes; with the limit on
    it is [min(delta, int(1/(dx*phase_resolution)) - 1)], and the warning 4
    is set exactly when the second bound exceeds [delta]; the only error is
    Python's [ZeroDivisionError], raised exactly when the limit is on and
    [dx * phase_resolution] is zero, with the state unchanged.  No lower
    bound is enforced: [L] may be 0 or negative. *)
Theorem phase_length_spec zpd N (s : owfft R) :
  let delta := Z.of_nat (Nat.min zpd (N - 1 - zpd)) in
  let p := dx (cfg s) × nof_Z (phase_resolution (cfg s)) in
  let L0 := (ntrunc (n1 /. p) - 1)%Z in
  match phase_length zpd N s with
  | (s', Ok L) =>
      if phase_res_limit (cfg s)
      then neqb p n0 = false /\ L = Z.min delta L0 /\
           s' = (if (delta <? L0)%Z then set_warning4 true s else s)
      else L = delta /\ s' = s
  | (s', Err e) => e = ZeroDivision /\ s' = s /\ phase_res_limit (cfg s) = true /\ neqb p n0 = true
  end.
Proof.
  intros delta p L0. unfold phase_length, sbind, sget, sret, sraise, smodify. simpl.
  destruct (phase_res_limit (cfg s)) eqn:El; [|auto].
  fold p. destruct (neqb p n0) eqn:Ep; [auto|]. fold L0.
  fold delta. destruct (Z.ltb_spec delta L0); simpl; (split; [reflexivity|split; [lia|reflexivity]]).
Qed.
End PhaseLength.

Section PhaseShape.
Context {R : Type} `{Num R}.

Lemma length_rotate_zpd zpd (x : list R) : length (rotate_zpd zpd x) = length x.
Proof. unfold rotate_zpd. len. Qed.

(** [phase_length] changes at most the warning 4. *)
Lemma phase_length_state zpd N (s : owfft R) :
  fst (phase_length zpd N s) = s \/ fst (phase_length zpd N s) = set_warning4 true s.
Proof.
  unfold phase_length, sbind, sget, sret, sraise, smodify. simpl.
  destruct (phase_res_limit (cfg s)); [|auto]. destruct (neqb _ _); [auto|].
  destruct (_ <? _)%Z; auto.
Qed.

(** The phase is sampled on the axis read by [compute_phase], which it
    leaves in place: one phase value per wavenumber. *)
Lemma compute_phase_length Ix (s s' : owfft R) phase :
  compute_phase Ix s = (s', Ok phase) ->
  exists w, wavenumbers s = Some w /\ wavenumbers s' = Some w /\
            cfg s' = cfg s /\ length phase = length w.
Proof.
  unfold compute_phase. intros Hr. sinv Hr; try discriminate.
  match goal with Hl : phase_length ?z ?n ?s0 = _ |- _ =>
    pose proof (phase_length_state z n s0) as Hs; rewrite Hl in Hs; simpl in Hs end.
  match goal with Hw : wavenumbers _ = Some ?w |- _ => exists w end.
  destruct Hs as [-> | ->]; simpl in *;
    (split; [assumption|split; [assumption|split; [reflexivity|]]]);
    eapply length_interp; eassumption.
Qed.
End PhaseShape.

Section PhaseTheory.
Context {R : Type} `{NumLaws R}.

(** for [0 < L <= delta] the phase interferogram
    [Ix[zpd - L : zpd + L]] has [2 L] samples and its peak at index [L]: [L]
    samples before the peak and [L - 1] after it. *)
Theorem phase_sample_peak (Ix : list R) zpd (L : nat) :
  peak_search Ix = Ok zpd -> 0 < L -> L <= zpd -> zpd + L < length Ix ->
  length (py_slice Ix (Z.of_nat zpd - Z.of_nat L) (Z.of_nat zpd + Z.of_nat L)) = 2 * L /\
  peak_search (py_slice Ix (Z.of_nat zpd - Z.of_nat L) (Z.of_nat zpd + Z.of_nat L)) = Ok L.
Proof.
  intros Hz HL HLz HLN. rewrite py_slice_nonneg by lia.
  replace (Z.to_nat (Z.of_nat zpd - Z.of_nat L)) with (zpd - L) by lia.
  replace (Z.to_nat (Z.of_nat zpd + Z.of_nat L)) with (zpd + L) by lia.
  replace (Nat.min (length Ix) (zpd + L) - Nat.min (length Ix) (zpd - L)) with (2 * L) by lia.
  replace (Nat.min (length Ix) (zpd - L)) with (zpd - L) by lia.
  split; [len|].
  unfold peak_search in *. apply argmax_spec in Hz as (m & Hm & Hmax & Hfirst).
  apply argmax_spec. exists m. split; [|split].
  - rewrite lookup_take_lt by lia. rewrite lookup_drop.
    replace (zpd - L + L) with zpd by lia. exact Hm.
  - intros j x Hx. apply lookup_take_Some in Hx as [Hx _].
    rewrite lookup_drop in Hx. exact (Hmax _ _ Hx).
  - intros j x Hj Hx. rewrite lookup_take_lt, lookup_drop in Hx by lia.
    apply (Hfirst (zpd - L + j)); [lia|exact Hx].
Qed.

Lemma compute_phase_L0 (Ix : list R) (s s' : owfft R) zpd :
  peak_search Ix = Ok zpd -> phase_length zpd (length Ix) s = (s', Ok 0%Z) ->
  compute_phase Ix s = (s', Err ArgmaxEmpty).
Proof.
  intros Hz HL. unfold compute_phase.
  rewrite (sbind_run _ _ s s zpd) by (unfold slift; rewrite Hz; reflexivity).
  rewrite (sbind_run _ _ s s' 0%Z HL).
  unfold py_slice. rewrite !Z.add_0_r, !Z.sub_0_r, Nat.sub_diag. reflexivity.
Qed.

(** C15: with the phase resolution limit off, an interferogram whose peak
    is its first or its last sample has [delta = 0], an empty phase
    interferogram, and [compute_phase] raises numpy's argmax [ValueError]
    (reported by the widget as an "FFT error"). *)
Theorem compute_phase_edge (Ix : list R) (s : owfft R) zpd :
  phase_res_limit (cfg s) = false -> peak_search Ix = Ok zpd ->
  zpd = 0 \/ zpd + 1 = length Ix ->
  compute_phase Ix s = (s, Err ArgmaxEmpty).
Proof.
  intros Hl Hz Hedge. apply (compute_phase_L0 _ _ _ zpd Hz).
  unfold phase_length, sbind, sget. simpl. rewrite Hl. unfold sret.
  do 2 f_equal. destruct Hedge as [->|<-]; lia.
Qed.
End PhaseTheory.

(** ** Witnesses on rationals *)

Section Witnesses.
Import QcNum.
Local Abbreviation q := QcNum.of_Z.

(** Settings with the phase resolution limit off and Boxcar apodization. *)
Definition witness_settings : settings Qc :=
  Settings (q 15797) false (q 1) 0 0 0 false 32 false (q 400) (q 4000) false.

(** The limit on with [dx * phase_resolution = 1/8]: [int(8) - 1 = 7]
    exceeds [delta = 3], so [L] is clamped to 3 with the warning. *)
Definition phase_limit_state : owfft Qc :=
  init_owfft (Settings (q 15797) false (Qcinv (q 8)) 0 0 0 true 1 false (q 400) (q 4000) false).

Lemma phase_length_spec_witness :
  phase_length 3 10 phase_limit_state = (set_warning4 true phase_limit_state, Ok 3%Z).
Proof.
  pose proof (phase_length_spec 3 10 phase_limit_state) as Hs.
  destruct (phase_length 3 10 phase_limit_state) as [s' [L|e]].
  - vm_compute in Hs. destruct Hs as (_ & -> & ->). reflexivity.
  - vm_compute in Hs. destruct Hs as (_ & _ & _ & Hp). discriminate Hp.
Defined.

Lemma phase_sample_peak_witness :
  length (py_slice [q 1; q 2; q 9; q 3; q 4]%Z (Z.of_nat 2 - Z.of_nat 2) (Z.of_nat 2 + Z.of_nat 2)) = 4 /\
  peak_search (py_slice [q 1; q 2; q 9; q 3; q 4]%Z (Z.of_nat 2 - Z.of_nat 2) (Z.of_nat 2 + Z.of_nat 2)) = Ok 2.
Proof.
  pose proof (phase_sample_peak [q 1; q 2; q 9; q 3; q 4]%Z 2 2) as Hp.
  apply Hp; [vm_compute; reflexivity|lia|lia|simpl; lia].
Defined.

Lemma compute_phase_edge_witness :
  compute_phase [q 9; q 1; q 2]%Z (init_owfft witness_settings) =
  (init_owfft witness_settings, Err ArgmaxEmpty).
Proof.
  pose proof (compute_phase_edge [q 9; q 1; q 2]%Z (init_owfft witness_settings) 0) as He.
  apply He; [reflexivity|vm_compute; reflexivity|left; reflexivity].
Defined.
End Witnesses.
