(* ===== verification/SingleSweep.v ===== *)
(** * SpectrumTransformer: [OWFFT.wavenumber_set] and [OWFFT.fft_single_sweep]
    (owfft.py 342-398)

    [fft_single_sweep(Ix)] finds the zpd, apodizes and zero-fills the sweep,
    checks that zero filling kept the zpd (a [ValueError] otherwise), sets
    the shared wavenumber axis if it is still [None] ([wavenumber_set]),
    computes the phase ([compute_phase]), rotates the zero-filled sweep so
    its zpd is at index 0, takes its real FFT and returns the Mertz
    correction [cos(phase) * Re + sin(phase) * Im].

    The theorems: [wavenumber_set] computes the axis once and no sweep
    changes it afterwards; on a first sweep the stored axis is strictly
    ascending with one point per spectrum value; a sweep reads only the
    settings and the axis ([view_eq]), so run again from the state it
    reached it gives the same spectrum; both [np.fft.rfftfreq] calls raise
    [ZeroDivisionError] for [dx == 0], so a sweep returns only for
    [dx != 0]; the end-to-end theorem runs the whole transform on a
    discrete delta interferogram (Boxcar, phase limit off, [dx != 0]) and
    obtains the flat spectrum of its height on the whole axis, the axis
    being set as a side effect. *)

From Stdlib Require Import ZArith Lia Qcanon.
From stdpp Require Import base list.
From S2P Require Import Prelude Num NumPy PeakSearch ZeroFilling Apodization State Phase.

Section SingleSweep.
Context {R : Type} `{Num R}.

(** owfft.py 388-398: computed only while [self.wavenumbers is None]. *)
Definition wavenumber_set (N_zff : nat) : st (owfft R) unit :=
  s <- sget ;;
  match wavenumbers s with
  | None => w <- slift (np_rfftfreq N_zff (dx (cfg s))) ;; smodify (set_wavenumbers (Some w))
  | Some _ => sret tt
  end.

(** owfft.py 342-386. *)
Definition fft_single_sweep (Ix : list R) : st (owfft R) (list R) :=
  zpd <- slift (peak_search Ix) ;;
  s <- sget ;;
  Ix_apod <- slift (apodization (apod_func (cfg s)) Ix zpd) ;;
  let Ix_zff := zero_filling (zff (cfg s)) Ix_apod in
  let N_zff := length Ix_zff in
  new_zpd <- slift (peak_search Ix_zff) ;;
  (if zpd =? new_zpd then sret tt else sraise (ZpdShift zpd new_zpd)) ;;;
  wavenumber_set N_zff ;;;
  phase <- compute_phase Ix ;;
  let Ix_rot := rotate_zpd zpd Ix_zff in
  Ix_fft <- slift (rfft Ix_rot) ;;
  let phase_cos := map ncos phase in
  let phase_sin := map nsin phase in
  re_part <- slift (np_binop nmul phase_cos (map fst Ix_fft)) ;;
  im_part <- slift (np_binop nmul phase_sin (map snd Ix_fft)) ;;
  slift (np_binop nadd re_part im_part).
End SingleSweep.

Section AxisOnce.
Context {R : Type} `{Num R}.

(** [wavenumber_set] fills [self.wavenumbers] with
    [rfftfreq(N_zff, dx)] when it is [None] and leaves the state unchanged
    otherwise: within a run the axis is computed by the first call only. *)
Lemma wavenumber_set_once (s : owfft R) N_zff :
  wavenumber_set N_zff s =
    match wavenumbers s with
    | None =>
        match np_rfftfreq N_zff (dx (cfg s)) with
        | Ok w => (set_wavenumbers (Some w) s, Ok tt)
        | Err e => (s, Err e)
        end
    | Some _ => (s, Ok tt)
    end /\
  (forall w N', wavenumbers s = Some w -> wavenumber_set N' s = (s, Ok tt)).
Proof.
  split.
  - unfold wavenumber_set, sbind, sget, slift, smodify. simpl.
    destruct (wavenumbers s); [reflexivity|]. destruct (np_rfftfreq _ _); reflexivity.
  - intros w N' Hw. unfold wavenumber_set, sbind, sget. simpl. rewrite Hw. reflexivity.
Qed.
End AxisOnce.

Section AxisOk.
Context {R : Type} `{NumLaws R}.

(** A [wavenumber_set] that returns leaves the axis it found or, when there
    was none, [rfftfreq(N_zff, dx)], which needs [N_zff > 0] and
    [dx != 0]. *)
Lemma wavenumber_set_ok (s s' : owfft R) N (u : unit) :
  wavenumber_set N s = (s', Ok u) ->
  s' = match wavenumbers s with
       | None => set_wavenumbers (Some (rfftfreq N (dx (cfg s)))) s
       | Some _ => s
       end /\
  (wavenumbers s = None -> 0 < N /\ neqb (dx (cfg s)) n0 = false).
Proof.
  rewrite (proj1 (wavenumber_set_once s N)). destruct (wavenumbers s); [intros [= <-]; split; [reflexivity|discriminate]|].
  destruct (np_rfftfreq N _) as [w|] eqn:Ef; [|discriminate].
  apply np_rfftfreq_Ok in Ef as (-> & HN & Hd). intros [= <-]. auto.
Qed.

(** [compute_phase] returns only for [dx != 0]: its own [rfftfreq] raises
    otherwise. *)
Lemma compute_phase_dx Ix (s s' : owfft R) p :
  compute_phase Ix s = (s', Ok p) -> neqb (dx (cfg s)) n0 = false.
Proof.
  intros Hr. unfold compute_phase, phase_length in Hr. sinv Hr.
  all: match goal with Hf : np_rfftfreq _ _ = Ok _ |- _ => apply np_rfftfreq_Ok in Hf; tauto end.
Qed.
(** Hence a sweep returns only for [dx != 0]: the axis of [wavenumber_set]
    and the one [compute_phase] interpolates against both come from
    [np.fft.rfftfreq(N, dx)], which divides by [N * dx]. *)
Lemma fft_single_sweep_dx Ix (s s' : owfft R) x :
  fft_single_sweep Ix s = (s', Ok x) -> neqb (dx (cfg s)) n0 = false.
Proof.
  intros Hr. unfold fft_single_sweep in Hr. sinv Hr.
  all: match goal with Hw : wavenumber_set _ _ = (_, Ok _), Hp : compute_phase _ _ = (_, Ok _) |- _ =>
         apply compute_phase_dx in Hp; apply wavenumber_set_ok in Hw as [-> _];
         destruct (wavenumbers _); exact Hp end.
Qed.
End AxisOk.

Section Delta.
Context {R : Type} `{NumLaws R}.

(** A discrete delta interferogram: [z] zeros, the value [c], [r] zeros. *)
Definition delta_ifg (z : nat) (c : R) (r : nat) : list R :=
  replicate z n0 ++ c :: replicate r n0.

Lemma length_delta_ifg z c r : length (delta_ifg z c r) = z + S r.
Proof. unfold delta_ifg. len. Qed.

Lemma peak_search_delta z c r :
  (n0 <. c) = true -> peak_search (delta_ifg z c r) = Ok z.
Proof.
  intros Hc. unfold peak_search. apply argmax_spec. exists c.
  unfold delta_ifg. split; [|split].
  - rewrite lookup_app_r by len. rewrite length_replicate, Nat.sub_diag. reflexivity.
  - intros j x Hx. apply lookup_app_Some in Hx as [Hx|[_ Hx]].
    + apply lookup_replicate in Hx as [-> _]. apply nlt_asym. exact Hc.
    + destruct (j - length (replicate z n0)) as [|j']; simpl in Hx.
      * injection Hx as <-. apply nlt_irrefl.
      * apply lookup_replicate in Hx as [-> _]. apply nlt_asym. exact Hc.
  - intros j x Hj Hx. rewrite lookup_app_l in Hx by len.
    apply lookup_replicate in Hx as [-> _]. exact Hc.
Qed.

Lemma zero_filling_delta k z c r :
  zero_filling k (delta_ifg z c r) =
  delta_ifg z c (r + (length (zero_filling k (delta_ifg z c r)) - (z + S r))).
Proof.
  rewrite (zero_filling_pad k (delta_ifg z c r)) at 1.
  rewrite length_zero_filling.
  rewrite length_delta_ifg. unfold delta_ifg.
  rewrite <- app_assoc, <- app_comm_cons, replicate_add. reflexivity.
Qed.

Lemma rotate_delta z c r : rotate_zpd z (delta_ifg z c r) = c :: replicate (r + z) n0.
Proof.
  unfold rotate_zpd, delta_ifg.
  rewrite drop_app_length' by len. rewrite take_app_length' by len.
  rewrite replicate_add. reflexivity.
Qed.

(** For [0 < L <= min(z, r)] the phase interferogram of a delta is the
    delta [L] zeros, [c], [L - 1] zeros. *)
Lemma slice_delta z c r (L : nat) :
  0 < L -> L <= z -> L <= r ->
  py_slice (delta_ifg z c r) (Z.of_nat z - Z.of_nat L) (Z.of_nat z + Z.of_nat L) =
  delta_ifg L c (L - 1).
Proof.
  intros HL Hz Hr. rewrite py_slice_nonneg by lia. rewrite length_delta_ifg.
  replace (Nat.min (z + S r) (Z.to_nat (Z.of_nat z + Z.of_nat L))) with (z + L) by lia.
  replace (Nat.min (z + S r) (Z.to_nat (Z.of_nat z - Z.of_nat L))) with (z - L) by lia.
  unfold delta_ifg. rewrite drop_app_le by len. rewrite drop_replicate.
  replace (z - (z - L)) with L by lia. replace (z + L - (z - L)) with (L + S (L - 1)) by lia.
  rewrite take_app_add' by len. f_equal. simpl. f_equal.
  rewrite take_replicate. f_equal. lia.
Qed.

Lemma phase_length_off (s : owfft R) zpd N :
  phase_res_limit (cfg s) = false ->
  phase_length zpd N s = (s, Ok (Z.of_nat (Nat.min zpd (N - 1 - zpd)))).
Proof. intros Hl. unfold phase_length, sbind, sget. simpl. rewrite Hl. reflexivity. Qed.

Lemma atan2_phase_delta (c : R) k :
  (n0 <. c) = true -> map (fun p => natan2 p.2 p.1) (replicate k (c, n0)) = replicate k n0.
Proof. intros Hc. rewrite map_replicate_eq. simpl. rewrite natan2_0_pos by exact Hc. reflexivity. Qed.
End Delta.

Section DeltaRun.
Context {R : Type} `{NumLaws R}.

Lemma wavenumber_set_none (s : owfft R) N :
  wavenumbers s = None -> 0 < N -> neqb (dx (cfg s)) n0 = false ->
  wavenumber_set N s = (set_wavenumbers (Some (rfftfreq N (dx (cfg s)))) s, Ok tt).
Proof.
  intros Hw HN Hd. rewrite (proj1 (wavenumber_set_once s N)), Hw, np_rfftfreq_ok by assumption.
  reflexivity.
Qed.

Lemma np_binop_replicate (f : R -> R -> R) k a b :
  np_binop f (replicate k a) (replicate k b) = Ok (replicate k (f a b)).
Proof. rewrite np_binop_same_length by len. rewrite zip_with_replicate. reflexivity. Qed.

Lemma compute_phase_delta (s : owfft R) z c r w :
  (n0 <. c) = true -> 0 < z -> 0 < r ->
  apod_func (cfg s) = 0 -> phase_res_limit (cfg s) = false -> neqb (dx (cfg s)) n0 = false ->
  wavenumbers s = Some w ->
  compute_phase (delta_ifg z c r) s = (s, Ok (replicate (length w) n0)).
Proof.
  intros Hc Hz Hr Ha Hl Hd Hw. unfold compute_phase.
  sstep ltac:(rewrite peak_search_delta by exact Hc; reflexivity).
  sstep ltac:(apply phase_length_off; exact Hl).
  rewrite length_delta_ifg. replace (z + S r - 1 - z) with r by lia.
  rewrite slice_delta by lia.
  sstep ltac:(rewrite peak_search_delta by exact Hc; reflexivity).
  sstep ltac:(reflexivity).
  rewrite Ha.
  sstep ltac:(unfold apodization; simpl; rewrite np_mul_ones; reflexivity).
  rewrite zero_filling_delta.
  sstep ltac:(rewrite peak_search_delta by exact Hc; reflexivity).
  rewrite Nat.eqb_refl.
  sstep ltac:(reflexivity).
  rewrite rotate_delta.
  sstep ltac:(rewrite rfft_delta; reflexivity).
  sstep ltac:(rewrite np_rfftfreq_ok by (first [exact Hd|rewrite length_delta_ifg; lia]); reflexivity).
  rewrite atan2_phase_delta by exact Hc. rewrite Hw. unfold slift. f_equal.
  apply interp_zero.
  - intros He. apply (f_equal length) in He. rewrite length_rfftfreq in He. simpl in He. lia.
  - rewrite length_rfftfreq, length_delta_ifg. f_equal. f_equal. lia.
Qed.
End DeltaRun.

Section EndToEnd.
Context {R : Type} `{NumLaws R}.

(** C2: end to end: on the first sweep of a run ([self.wavenumbers is
    None]), with Boxcar apodization, the phase limit off and a spacing
    [dx != 0] (for [dx == 0] [np.fft.rfftfreq] raises), a discrete delta
    of height [c > 0] that is neither the first nor the last sample is
    transformed into the flat spectrum [c] on all [N_zff / 2 + 1] bins, and
    the axis [rfftfreq(N_zff, dx)] is stored in [self.wavenumbers]. *)
Theorem fft_single_sweep_delta (s : owfft R) z c r :
  (n0 <. c) = true -> 0 < z -> 0 < r ->
  apod_func (cfg s) = 0 -> phase_res_limit (cfg s) = false -> neqb (dx (cfg s)) n0 = false ->
  wavenumbers s = None ->
  fft_single_sweep (delta_ifg z c r) s =
    (set_wavenumbers (Some (rfftfreq (next_pow2 (z + S r) * (zff (cfg s) + 1)) (dx (cfg s)))) s,
     Ok (replicate (next_pow2 (z + S r) * (zff (cfg s) + 1) / 2 + 1) c)).
Proof.
  intros Hc Hz Hr Ha Hl Hd Hw. unfold fft_single_sweep.
  sstep ltac:(rewrite peak_search_delta by exact Hc; reflexivity).
  sstep ltac:(reflexivity). rewrite Ha.
  sstep ltac:(unfold apodization; simpl; rewrite np_mul_ones; reflexivity).
  pose proof (length_zero_filling (zff (cfg s)) (delta_ifg z c r)) as Hlen.
  rewrite length_delta_ifg in Hlen. rewrite zero_filling_delta, Hlen, length_delta_ifg.
  set (Nz := next_pow2 (z + S r) * (zff (cfg s) + 1)) in *.
  set (p := Nz - (z + S r)).
  assert (Hp : z + S (r + p) = Nz).
  { rewrite <- Hlen. rewrite zero_filling_delta, length_delta_ifg. subst p. rewrite Hlen. lia. }
  sstep ltac:(rewrite peak_search_delta by exact Hc; reflexivity).
  rewrite Nat.eqb_refl. sstep ltac:(reflexivity).
  rewrite Hp.
  sstep ltac:(apply wavenumber_set_none; [exact Hw|lia|exact Hd]).
  sstep ltac:(apply compute_phase_delta; [exact Hc|exact Hz|exact Hr|exact Ha|exact Hl|exact Hd|reflexivity]).
  rewrite rotate_delta.
  sstep ltac:(rewrite rfft_delta; reflexivity).
  rewrite length_rfftfreq, !map_replicate_eq. cbn [fst snd].
  replace (S (r + p + z) / 2 + 1) with (Nz / 2 + 1) by (f_equal; f_equal; lia).
  rewrite ncos_0, nsin_0, !np_binop_replicate, nmul_1_l, nmul_0_l.
  unfold sbind, slift. rewrite np_binop_replicate, nadd_0_r. reflexivity.
Qed.

(** The shape of a successful sweep: the axis it leaves is the one it found
    or, on the first sweep, [rfftfreq(N_zff, dx)]; whenever that axis has
    the [N_zff / 2 + 1] points of the transform of [Ix], the spectrum has
    one value per point of it. *)
Lemma fft_single_sweep_shape (s s' : owfft R) Ix out :
  fft_single_sweep Ix s = (s', Ok out) ->
  let Nz := next_pow2 (length Ix) * (zff (cfg s) + 1) in
  exists w, wavenumbers s' = Some w /\
    w = default (rfftfreq Nz (dx (cfg s))) (wavenumbers s) /\
    (length w = Nz / 2 + 1 -> length out = length w).
Proof.
  intros Hr Nz. unfold fft_single_sweep in Hr. sinv Hr; try discriminate.
  match goal with
  | h1 : peak_search Ix = _, h2 : apodization _ _ _ = _, h3 : wavenumber_set _ _ = _,
    h4 : compute_phase _ _ = _, h5 : rfft _ = _,
    h6 : np_binop _ (map ncos _) _ = _, h7 : np_binop _ (map nsin _) _ = _ |- _ =>
      rename h1 into Hz, h2 into Happ, h3 into Hset, h4 into Hph, h5 into Hfft,
             h6 into Hre, h7 into Him
  end.
  apply length_apodization in Happ; [|eapply argmax_lt; exact Hz].
  apply length_rfft in Hfft. rewrite length_rotate_zpd, length_zero_filling, Happ in Hfft.
  apply wavenumber_set_ok in Hset as [Hset _]. rewrite length_zero_filling, Happ in Hset.
  apply compute_phase_length in Hph as (w & Hw1 & Hw2 & _ & Hph).
  exists w. split; [exact Hw2|split].
  - destruct (wavenumbers _) eqn:Ew; subst; cbn in Hw1 |- *; unfold Nz; congruence.
  - intros Hlw. fold Nz in Hfft.
    apply length_np_binop in Hre; [|len]. apply length_np_binop in Him; [|len].
    apply length_np_binop in Hr; len.
Qed.

(** C9: on the first sweep of a run, a successful [fft_single_sweep] stores
    the axis [rfftfreq(N_zff, dx)], [N_zff = N_2 * (zff + 1)] the
    zero-filled length; for [dx > 0] it is strictly ascending, it has
    [N_zff / 2 + 1] points, and the returned spectrum has one value per
    point of it. *)
Theorem fft_single_sweep_axis (s s' : owfft R) Ix out :
  fft_single_sweep Ix s = (s', Ok out) -> wavenumbers s = None -> (n0 <. dx (cfg s)) = true ->
  exists w, wavenumbers s' = Some w /\
    w = rfftfreq (next_pow2 (length Ix) * (zff (cfg s) + 1)) (dx (cfg s)) /\
    strictly_ascending w /\
    length w = next_pow2 (length Ix) * (zff (cfg s) + 1) / 2 + 1 /\
    length out = length w.
Proof.
  intros Hr Hw Hd. destruct (fft_single_sweep_shape _ _ _ _ Hr) as (w & Hw' & Hdef & Hout).
  rewrite Hw in Hdef. simpl in Hdef. subst w.
  exists (rfftfreq (next_pow2 (length Ix) * (zff (cfg s) + 1)) (dx (cfg s))).
  rewrite length_rfftfreq in *.
  split; [exact Hw'|split; [reflexivity|split; [|split; [reflexivity|apply Hout, eq_refl]]]].
  apply rfftfreq_ascending; [|exact Hd].
  pose proof (next_pow2_spec (length Ix)).
  destruct Ix; [cbn in Hr; discriminate|]. simpl in *; lia.
Qed.
End EndToEnd.

(** ** Witnesses on rationals *)

Section Witnesses.
Import QcNum.
Local Abbreviation q := QcNum.of_Z.

(** Boxcar, no zero-filling factor, phase limit off, [dx = 1]. *)
Definition boxcar_settings : settings Qc :=
  Settings (q 15797) false (q 1) 0 0 0 false 32 false (q 400) (q 4000) false.

(** The delta [0 0 5 0 0 0] gives the flat spectrum 5 on the 5 bins of the
    8-point zero-filled transform. *)
Lemma fft_single_sweep_delta_witness :
  fft_single_sweep (delta_ifg 2 (q 5) 3) (init_owfft boxcar_settings) =
  (set_wavenumbers (Some (rfftfreq 8 (q 1))) (init_owfft boxcar_settings),
   Ok (replicate 5 (q 5))).
Proof.
  pose proof (fft_single_sweep_delta (init_owfft boxcar_settings) 2 (q 5) 3) as Hd.
  rewrite Hd; [reflexivity|vm_compute; reflexivity|lia|lia|reflexivity..].
Defined.

(** The same run stores the 5-point axis [0, 1/8, ..., 1/2], strictly
    ascending, and returns 5 values. *)
Lemma fft_single_sweep_axis_witness :
  exists w, wavenumbers (fst (fft_single_sweep (delta_ifg 2 (q 5) 3) (init_owfft boxcar_settings)))
            = Some w /\ strictly_ascending w /\ length w = 5.
Proof.
  destruct (fft_single_sweep_axis (init_owfft boxcar_settings)
              (fst (fft_single_sweep (delta_ifg 2 (q 5) 3) (init_owfft boxcar_settings)))
              (delta_ifg 2 (q 5) 3) (replicate 5 (q 5)))
    as (w & Hw & _ & Ha & Hl & _); [vm_compute; reflexivity..|].
  exists w. split; [exact Hw|split; [exact Ha|rewrite Hl; reflexivity]].
Defined.
End Witnesses.

(** ** What a sweep changes in the widget *)

Section Frame.
Context {R : Type} `{Num R}.

(** A sweep changes at most [self.wavenumbers] and the warning 4. *)
Definition sweep_frame (s s' : owfft R) : Prop :=
  cfg s' = cfg s /\ data s' = data s /\ spectra s' = spectra s /\
  spectra_table s' = spectra_table s /\ sweeps s' = sweeps s /\
  error1 s' = error1 s /\ error2 s' = error2 s /\ sent s' = sent s.

#[export] Instance sweep_frame_preorder : PreOrder sweep_frame.
Proof.
  split.
  - intros s. repeat split.
  - intros s1 s2 s3 H12 H23. unfold sweep_frame in *. intuition congruence.
Qed.

(** An axis, once set, is never changed. *)
Definition axis_kept (s s' : owfft R) : Prop :=
  forall w, wavenumbers s = Some w -> wavenumbers s' = Some w.

#[export] Instance axis_kept_preorder : PreOrder axis_kept.
Proof. split; [intros s w Hw; exact Hw|intros s1 s2 s3 H12 H23 w Hw; auto]. Qed.

Lemma compute_phase_frame Ix : preserves sweep_frame (compute_phase Ix).
Proof.
  unfold compute_phase, phase_length. preserve.
  all: apply preserves_modify; intros s; repeat split.
Qed.

Lemma fft_single_sweep_frame Ix : preserves sweep_frame (fft_single_sweep Ix).
Proof.
  unfold fft_single_sweep, wavenumber_set. preserve.
  all: apply preserves_modify; intros s; repeat split.
Qed.

Lemma compute_phase_axis Ix : preserves axis_kept (compute_phase Ix).
Proof.
  unfold compute_phase, phase_length. preserve.
  all: apply preserves_modify; intros s w Hw; exact Hw.
Qed.

Lemma wavenumber_set_axis N : preserves axis_kept (wavenumber_set N).
Proof.
  intros s w Hw. rewrite (proj1 (wavenumber_set_once s N)). rewrite Hw. exact Hw.
Qed.

#[local] Hint Resolve compute_phase_axis wavenumber_set_axis : preserve.

(** a sweep never changes an axis already set: every sweep after the
    first of a run reads the axis the first one computed. *)
Theorem fft_single_sweep_keeps_axis Ix : preserves axis_kept (fft_single_sweep Ix).
Proof.
  unfold fft_single_sweep. preserve.
Qed.
End Frame.

(** ** What a sweep reads of the widget

    A sweep reads the settings and the axis and nothing else of [self]:
    states that agree on both give the same outcome and agree again. *)

Section View.
Context {R : Type} `{Num R}.

Definition view_eq (s t : owfft R) : Prop := cfg s = cfg t /\ wavenumbers s = wavenumbers t.

#[export] Instance view_eq_equiv : Equivalence view_eq.
Proof.
  split; [intros s; split; reflexivity|intros s t [? ?]; split; congruence|].
  intros s t u [? ?] [? ?]; split; congruence.
Qed.

Ltac view_obligation :=
  match goal with
  | |- forall _ _, view_eq _ _ -> _ = _ =>
      let Hc := fresh "Hc" in let Hw := fresh "Hw" in
      intros ? ? [Hc Hw]; cbv beta; rewrite ?Hc, ?Hw; reflexivity
  | |- Proper (view_eq ==> view_eq) _ =>
      let Hc := fresh "Hc" in let Hw := fresh "Hw" in
      intros ? ? [Hc Hw]; split; cbn; congruence
  end.

Lemma phase_length_view zpd N : respects view_eq (phase_length zpd N).
Proof. unfold phase_length. respect; view_obligation. Qed.

#[local] Hint Resolve phase_length_view : respect.

Lemma compute_phase_view Ix : respects view_eq (compute_phase Ix).
Proof. unfold compute_phase. respect; view_obligation. Qed.

Lemma wavenumber_set_view N : respects view_eq (wavenumber_set N).
Proof. unfold wavenumber_set. respect; view_obligation. Qed.

#[local] Hint Resolve compute_phase_view wavenumber_set_view : respect.

Lemma fft_single_sweep_view Ix : respects view_eq (fft_single_sweep Ix).
Proof. unfold fft_single_sweep. respect; view_obligation. Qed.

(** Run again from the state it reached, a successful sweep gives the same
    spectrum: the second run reads the axis the first one stored in
    [self.wavenumbers] instead of computing it again. *)
Lemma fft_single_sweep_rerun Ix (s s1 : owfft R) x :
  fft_single_sweep Ix s = (s1, Ok x) -> snd (fft_single_sweep Ix s1) = Ok x.
Proof.
  intros Hr. pose proof Hr as Hr0. unfold fft_single_sweep in Hr.
  apply sbind_ok_inv in Hr as (? & zpd & Hz & Hr). injection Hz as <- Hz.
  apply sbind_ok_inv in Hr as (? & ? & Hg & Hr). injection Hg as <- <-.
  apply sbind_ok_inv in Hr as (? & Ix_apod & Ha & Hr). injection Ha as <- Ha.
  apply sbind_ok_inv in Hr as (? & new_zpd & Hn & Hr). injection Hn as <- Hn.
  apply sbind_ok_inv in Hr as (? & ? & Hi & Hr).
  destruct (zpd =? new_zpd) eqn:E; [injection Hi as <- _|discriminate].
  apply sbind_ok_inv in Hr as (s3 & [] & Hw & Hrest).
  assert (Hc3 : cfg s3 = cfg s /\ exists w, wavenumbers s3 = Some w).
  { rewrite (proj1 (wavenumber_set_once s _)) in Hw.
    destruct (wavenumbers s) eqn:Ews;
      [|destruct (np_rfftfreq _ _); [|discriminate]]; injection Hw as <-; cbn; eauto. }
  destruct Hc3 as [Hc3 [w Hw3]].
  pose proof Hrest as Hrest0. sinv Hrest.
  match goal with Hp : compute_phase Ix s3 = (?s4, _) |- _ =>
    apply compute_phase_length in Hp as (w' & Hw' & Hw1 & Hc1 & _);
    assert (Hv : view_eq s4 s3) by (split; congruence);
    destruct (fft_single_sweep_view Ix s4 s3 Hv) as [_ ->] end.
  unfold fft_single_sweep.
  sstep ltac:(rewrite Hz; reflexivity). sstep ltac:(reflexivity). rewrite Hc3.
  sstep ltac:(rewrite Ha; reflexivity). sstep ltac:(rewrite Hn; reflexivity).
  rewrite E. sstep ltac:(reflexivity).
  sstep ltac:(apply (proj2 (wavenumber_set_once s3 0) w); exact Hw3).
  rewrite Hrest0. reflexivity.
Qed.
End View.
