(* ===== verification/Widget.v ===== *)
(** * PipelineDriver: [OWFFT.calculateFFT], [commit] and the handlers
    (owfft.py 181-295, 312-319)

    [calculateFFT] resets the axis, the stack and the messages, transforms
    every row of [self.data.X] according to [self.sweeps] (single: one
    [fft_single_sweep]; forward-backward: split in halves, reverse the
    second, transform both and average), stacks the spectra, cuts them and
    the axis to [out_limit1 .. out_limit2] with [np.searchsorted] when
    [self.limit_output] is set, builds the table and sends it.  A
    [ValueError] of a row sets [error(1)] (or [error(2)] for the split) and
    returns without sending.  [set_data], [setting_changed],
    [out_limit_changed] and [dx_changed] are the widget's handlers; they
    call [commit] through Orange's [gui.auto_commit] wrapper (run it while
    "autocommit" is checked, otherwise mark the output pending; the button
    and checking the box commit).  [event] (one constructor per control:
    the input, each setting, the button, the box) and [step] make the
    widget a state machine.

    The theorems: the atomicity of a run (it sends exactly one table, with
    both errors cleared, or nothing, leaving the previous table in place);
    a mirrored forward-backward row gives the spectrum of its sweep; a
    table whose sweeps cannot be determined (no rows, an empty first row)
    is stored and the handler raises before touching anything else; band
    limiting on a sorted axis keeps exactly the wavenumbers between the
    limits (the binary search agrees with a linear filter); by rule
    induction, the
    tables held and sent are well shaped (an axis with an aligned stack of
    spectra), the output limits stay ordered and the last value sent is the
    table held; with the phase limit on and a zero resolution, or with
    [dx == 0], no table is sent ([ZeroDivisionError] escapes the loop); and [error(2)] is never shown
    when the widget is fed rectangular tables. *)

From Stdlib Require Import ZArith QArith Lia Qcanon.
From stdpp Require Import base list strings pretty.
From S2P Require Import Prelude Num NumPy PeakSearch Sweeps State Phase SingleSweep.

Section Widget.
Context {R : Type} `{Num R}.

(** owfft.py 245-277: the transform of one row, [None] when the loop
    returns early after reporting an error. *)
Definition fft_row (row : list R) : st (owfft R) (option (list R)) :=
  s <- sget ;;
  match sweeps s with
  | Some 0 =>
      scatch (x <- fft_single_sweep row ;; sret (Some x)) is_value_error
             (fun e => smodify (set_error1 (Some e)) ;;; sret None)
  | Some 1 =>
      match hsplit2 row with
      | Err e => smodify (set_error2 (Some e)) ;;; sret None
      | Ok (fwd, back) =>
          r <- scatch (f <- fft_single_sweep fwd ;;
                       b <- fft_single_sweep (reverse back) ;;
                       sret (Some (f, b)))
                      is_value_error
                      (fun e => smodify (set_error1 (Some e)) ;;; sret None) ;;
          match r with
          | None => sret None
          | Some (f, b) => x <- slift (mean2 f b) ;; sret (Some x)
          end
      end
  | _ => sret None
  end.

(** owfft.py 243-282: the loop over the rows; [false] when it returned
    early. *)
Fixpoint fft_rows (rows : list (list R)) : st (owfft R) bool :=
  match rows with
  | [] => sret true
  | row :: rest =>
      o <- fft_row row ;;
      match o with
      | None => sret false
      | Some out =>
          s <- sget ;;
          sp <- slift (vstack (spectra s) out) ;;
          smodify (set_spectra (Some sp)) ;;;
          fft_rows rest
      end
  end.

(** owfft.py 284-292: cut the axis and every spectrum to the indices
    [searchsorted(wavenumbers, [out_limit1, out_limit2])]. *)
Definition limit_band (l1 l2 : R) (w : list R) (sp : list (list R)) : list R * list (list R) :=
  let a := Z.of_nat (searchsorted w l1) in
  let b := Z.of_nat (searchsorted w l2) in
  (py_slice w a b, map (fun row => py_slice row a b) sp).

(** owfft.py 224-295. *)
Definition calculateFFT : st (owfft R) unit :=
  smodify (set_wavenumbers None) ;;;
  smodify (set_spectra None) ;;;
  smodify (set_error1 None) ;;; smodify (set_error2 None) ;;; smodify (set_warning4 false) ;;;
  s <- sget ;;
  match data s with
  | None => sraise NoneOperand
  | Some X =>
      completed <- fft_rows X ;;
      if completed then
        s <- sget ;;
        (if limit_output (cfg s) then
           match wavenumbers s, spectra s with
           | Some w, Some sp =>
               let '(w', sp') := limit_band (out_limit1 (cfg s)) (out_limit2 (cfg s)) w sp in
               smodify (set_wavenumbers (Some w')) ;;; smodify (set_spectra (Some sp'))
           | _, _ => sraise NoneOperand
           end
         else sret tt) ;;;
        s <- sget ;;
        let t := build_spec_table (wavenumbers s) (spectra s) in
        smodify (set_table (Some t)) ;;; smodify (send_spectra (Some t))
      else sret tt
  end.

(** owfft.py 220-222. *)
Definition commit : st (owfft R) unit :=
  s <- sget ;;
  match data s with
  | Some _ => calculateFFT
  | None => sret tt
  end.

(** owfft.py 312-340: classify the first row and store it in [self.sweeps]. *)
Definition determine_sweeps : st (owfft R) unit :=
  s <- sget ;;
  match data s with
  | None => sraise NoneOperand
  | Some [] => sraise RowIndex
  | Some (row :: _) => m <- slift (sweep_mode row) ;; smodify (set_sweeps (Some m))
  end.

(** The [commit] the handlers call: [gui.auto_commit] (owfft.py 175)
    replaces [self.commit] by a wrapper that runs the [commit] above when
    the "autocommit" box is checked and otherwise only marks the output as
    pending ([dirty]); this is Orange's behaviour, modelled from its
    documentation. *)
Definition conditional_commit : st (owfft R) unit :=
  s <- sget ;;
  if autocommit (cfg s) then commit ;;; smodify (set_dirty false)
  else smodify (set_dirty true).

(** The "Calculate" button of [gui.auto_commit]. *)
Definition commit_button : st (owfft R) unit :=
  commit ;;; smodify (set_dirty false).

(** Checking or unchecking the "autocommit" box: a pending commit is run
    when it becomes checked. *)
Definition autocommit_toggled (b : bool) : st (owfft R) unit :=
  smodify (fun s => set_cfg (upd_autocommit b (cfg s)) s) ;;;
  s <- sget ;;
  if b && dirty s then commit_button else sret tt.

(** owfft.py 190: [["Single", "Forward-Backward"][self.sweeps]]. *)
Definition sweeps_text (sw : option nat) : result string :=
  match sw with
  | Some m => match ["Single"; "Forward-Backward"] !! m with Some t => Ok t | None => Err ListIndex end
  | None => Err NoneOperand
  end.

(** The sweep modes [determine_sweeps] stores have a name. *)
Lemma sweeps_text_01 m : m = 0 \/ m = 1 -> exists t, sweeps_text (Some m) = Ok t.
Proof. intros [-> | ->]; eexists; reflexivity. Qed.

(** owfft.py 188-191: ['%d %s interferogram(s)' % (X.shape[0], t)] and
    ['%d points each' % X.shape[1]] for the rows [X] of the table. *)
Definition infoa_text (X : list (list R)) (t : string) : string :=
  pretty (length X) +:+ " " +:+ t +:+ " interferogram(s)".
Definition infob_text (X : list (list R)) : string :=
  pretty (length (hd [] X)) +:+ " points each".

(** owfft.py 181-202: the Info box describes the table and the boxes are
    enabled once the sweeps are determined; on [None] the boxes are
    disabled, the Info box says there is no data and [None] is sent. *)
Definition set_data_handler (dataset : option (list (list R))) : st (owfft R) unit :=
  match dataset with
  | Some X =>
      smodify (set_data (Some X)) ;;; determine_sweeps ;;;
      s <- sget ;; t <- slift (sweeps_text (sweeps s)) ;;
      smodify (set_info (infoa_text X t) (infob_text X)) ;;;
      smodify (set_boxes true) ;;; conditional_commit
  | None =>
      smodify (set_data None) ;;; smodify (set_table None) ;;; smodify (set_boxes false) ;;;
      smodify (set_info no_data_text "") ;;;
      s <- sget ;; smodify (send_spectra (spectra_table s))
  end.

(** owfft.py 204-205. *)
Definition setting_changed : st (owfft R) unit := conditional_commit.

(** owfft.py 207-212: [min] and [max] of the two limits as floats
    (Python's [min]/[max] keep the first of equal values). *)
Definition out_limit_changed : st (owfft R) unit :=
  s <- sget ;;
  let l1 := out_limit1 (cfg s) in
  let l2 := out_limit2 (cfg s) in
  let minX := if l2 <. l1 then l2 else l1 in
  let maxX := if l1 <. l2 then l2 else l1 in
  smodify (set_cfg (upd_out_limits minX maxX (cfg s))) ;;; conditional_commit.

(** owfft.py 214-218. *)
Definition dx_changed : st (owfft R) unit :=
  smodify (fun s => set_dx_edit (negb (dx_HeNe (cfg s))) s) ;;;
  s <- sget ;;
  (if dx_HeNe (cfg s)
   then smodify (set_cfg (upd_dx (nlit 1.0 /. laser_wavenumber (cfg s) /. nlit 2.0) (cfg s)))
   else sret tt) ;;;
  conditional_commit.

(** The signals the widget reacts to (owfft.py 26 and the controls of
    [__init__], 79-175): new input; an edit of one setting, which the
    control stores before calling its callback; the "Calculate" button
    and the "autocommit" box. *)
Inductive event : Type :=
  | EvSetData (dataset : option (list (list R)))
  | EvDx (d : R)                    (** line edit [dx] -> [setting_changed] *)
  | EvHeNe (b : bool)               (** check box [dx_HeNe] -> [dx_changed] *)
  | EvApod (n : nat)                (** combo [apod_func] -> [setting_changed] *)
  | EvZff (n : nat)                 (** combo [zff] -> [setting_changed] *)
  | EvPhaseCorr (n : nat)           (** combo [phase_corr] -> [setting_changed] *)
  | EvPhaseRes (z : Z)              (** line edit [phase_resolution] -> [setting_changed] *)
  | EvPhaseLimit (b : bool)         (** check box [phase_res_limit] -> [setting_changed] *)
  | EvLimitOutput (b : bool)        (** check box [limit_output] -> [setting_changed] *)
  | EvOutLimit1 (z : Z)             (** line edit [out_limit1] -> [out_limit_changed] *)
  | EvOutLimit2 (z : Z)             (** line edit [out_limit2] -> [out_limit_changed] *)
  | EvCalculate
  | EvAutoCommit (b : bool).

Definition set_setting (f : settings R -> settings R) : st (owfft R) unit :=
  smodify (fun s => set_cfg (f (cfg s)) s).

Definition handle (ev : event) : st (owfft R) unit :=
  match ev with
  | EvSetData d => set_data_handler d
  | EvDx d => set_setting (upd_dx d) ;;; setting_changed
  | EvHeNe b => set_setting (upd_dx_HeNe b) ;;; dx_changed
  | EvApod n => set_setting (upd_apod_func n) ;;; setting_changed
  | EvZff n => set_setting (upd_zff n) ;;; setting_changed
  | EvPhaseCorr n => set_setting (upd_phase_corr n) ;;; setting_changed
  | EvPhaseRes z => set_setting (upd_phase_resolution z) ;;; setting_changed
  | EvPhaseLimit b => set_setting (upd_phase_res_limit b) ;;; setting_changed
  | EvLimitOutput b => set_setting (upd_limit_output b) ;;; setting_changed
  | EvOutLimit1 z =>
      set_setting (fun c => upd_out_limits (nof_Z z) (out_limit2 c) c) ;;; out_limit_changed
  | EvOutLimit2 z =>
      set_setting (fun c => upd_out_limits (out_limit1 c) (nof_Z z) c) ;;; out_limit_changed
  | EvCalculate => commit_button
  | EvAutoCommit b => autocommit_toggled b
  end.

(** The input contract of the "Interferogram" signal: a table whose rows
    all have the length of the first. *)
Definition rectangular (X : list (list R)) : bool :=
  forallb (fun row => length row =? length (hd [] X)) X.

Definition valid_event (ev : event) : bool :=
  match ev with
  | EvSetData (Some X) => rectangular X
  | EvApod n => n <? 4              (** [apod_opts] has four items *)
  | EvZff n => n <? 10              (** [2**n for n in range(10)] *)
  | EvPhaseCorr n => n <? 1         (** [phase_opts] has one item *)
  | _ => true
  end.

(** A step of the widget: a handler runs to its end or raises; either way
    the widget keeps the state it reached. *)
Inductive step : owfft R -> owfft R -> Prop :=
  | step_handle ev s s' r : valid_event ev = true -> handle ev s = (s', r) -> step s s'.

Inductive reachable (c : settings R) : owfft R -> Prop :=
  | reach_init : reachable c (init_owfft c)
  | reach_step s s' : reachable c s -> step s s' -> reachable c s'.
End Widget.

Section Atomicity.
Context {R : Type} `{Num R}.

(** The output slots: the table and what was sent. *)
Definition out_kept (s s' : owfft R) : Prop :=
  spectra_table s' = spectra_table s /\ sent s' = sent s.

#[export] Instance out_kept_preorder : PreOrder out_kept.
Proof. split; [intros s; split; reflexivity|intros ? ? ? [? ?] [? ?]; split; congruence]. Qed.

(** The message slots [error(1)] and [error(2)]. *)
Definition errors_kept (s s' : owfft R) : Prop :=
  error1 s' = error1 s /\ error2 s' = error2 s.

Lemma fft_single_sweep_out Ix : preserves out_kept (fft_single_sweep Ix).
Proof.
  intros s. destruct (fft_single_sweep_frame Ix s) as (_ & _ & _ & ? & _ & _ & _ & ?).
  split; assumption.
Qed.

Lemma fft_single_sweep_errors Ix s s' r :
  fft_single_sweep Ix s = (s', r) -> errors_kept s s'.
Proof.
  intros E. pose proof (fft_single_sweep_frame Ix s) as (_ & _ & _ & _ & _ & ? & ? & _).
  rewrite E in *. split; assumption.
Qed.

#[local] Hint Resolve fft_single_sweep_out : preserve.

Lemma fft_rows_out rows : preserves out_kept (fft_rows rows).
Proof.
  induction rows; simpl; unfold fft_row; preserve.
  all: apply preserves_modify; intros s; split; reflexivity.
Qed.

(** A row that produced a spectrum left the messages alone. *)
Lemma fft_row_errors row s s' x :
  fft_row row s = (s', Ok (Some x)) -> errors_kept s s'.
Proof.
  unfold fft_row. intros Hr. sinv Hr; try discriminate.
  all: repeat match goal with
         Hs : fft_single_sweep _ _ = (_, _) |- _ => apply fft_single_sweep_errors in Hs as [? ?]
       end.
  all: split; congruence.
Qed.

Lemma fft_rows_errors rows s s' :
  fft_rows rows s = (s', Ok true) -> errors_kept s s'.
Proof.
  revert s. induction rows as [|row rows IH]; intros s Hr; simpl in Hr.
  - injection Hr as <-. split; reflexivity.
  - sinv Hr; [|discriminate].
    match goal with Hrow : fft_row _ _ = _ |- _ => apply fft_row_errors in Hrow as [? ?] end.
    destruct (IH _ Hr). split; simpl in *; congruence.
Qed.

(** C3: a run of [calculateFFT] either completes, with both error messages
    cleared, and sends exactly one new table, the one it stores; or it
    sends nothing and leaves the previous table in [self.spectra_table]. *)
Theorem calculateFFT_atomic s s' r :
  calculateFFT s = (s', r) ->
  (r = Ok tt /\ error1 s' = None /\ error2 s' = None /\
   spectra_table s' = Some (build_spec_table (wavenumbers s') (spectra s')) /\
   sent s' = spectra_table s' :: sent s) \/
  out_kept s s'.
Proof.
  unfold calculateFFT.
  cbn [sbind smodify sget set_wavenumbers set_spectra set_error1 set_error2 set_warning4 data].
  destruct (data s) as [X|]; [|intros [= <- _]; right; split; reflexivity].
  set (s0 := set_warning4 _ _).
  pose proof (fft_rows_out X s0) as Hout.
  pose proof (fft_rows_errors X s0) as Herr.
  destruct (fft_rows X s0) as [s1 [b|e]] eqn:E; cbn in Hout;
    [rewrite (sbind_run _ _ _ _ _ E)|rewrite (sbind_run_err _ _ _ _ _ E);
     intros [= <- _]; right; exact Hout].
  destruct b; [|intros [= <- _]; right; exact Hout].
  destruct (Herr _ eq_refl) as [He1 He2].
  cbn [sbind sget]. destruct (limit_output (cfg s1));
    [destruct (wavenumbers s1), (spectra s1); cbn [sbind sraise];
     try (intros [= <- _]; right; exact Hout); destruct limit_band|];
    cbn; intros [= <- <-]; left; cbn; destruct Hout as [_ Hs];
    rewrite He1, He2, Hs; auto 6.
Qed.
End Atomicity.

Section Mirror.
Context {R : Type} `{NumLaws R}.

(** C13: A forward-backward row made of a sweep [S] and its mirror image
    [S[::-1]] gives the spectrum of [S] alone: both halves are [S] after
    the backward one is reversed, the second transform reads the axis the
    first one stored and gives the same spectrum, and their mean is that
    spectrum. *)
Theorem fft_row_mirror (s s1 : owfft R) S x :
  sweeps s = Some 1 -> fft_single_sweep S s = (s1, Ok x) ->
  snd (fft_row (S ++ reverse S) s) = Ok (Some x).
Proof.
  intros Hsw Hr.
  assert (Hr2 : fft_single_sweep S s1 = (fst (fft_single_sweep S s1), Ok x))
    by (rewrite <- (fft_single_sweep_rerun S s s1 x Hr); apply surjective_pairing).
  unfold fft_row. sstep ltac:(reflexivity). rewrite Hsw. cbv beta iota.
  rewrite hsplit2_app by (rewrite length_reverse; reflexivity). cbv beta iota.
  rewrite reverse_involutive.
  sstep ltac:(unfold scatch; rewrite (sbind_run _ _ _ _ _ Hr), (sbind_run _ _ _ _ _ Hr2);
              reflexivity).
  cbv beta iota. rewrite mean2_same. reflexivity.
Qed.
End Mirror.

Section EmptyTable.
Context {R : Type} `{Num R}.

(** C31: a table whose sweeps cannot be determined, one without rows or
    whose first row is empty, is stored, and then [determine_sweeps]
    raises: Python's [IndexError] on [self.data.X[0]] for no rows, numpy's
    argmax [ValueError] in [sweep_mode] for an empty first row.  The handler
    stops there, before the Info box, the control boxes and [commit]: the
    state is the old one with only the table replaced, and nothing is
    computed or sent. *)
Theorem set_data_empty (s : owfft R) X :
  hd [] X = [] ->
  set_data_handler (Some X) s =
    (set_data (Some X) s, Err (match X with [] => RowIndex | _ => ArgmaxEmpty end)).
Proof. intros Hhd. destruct X as [|[|x row] rest]; [reflexivity|reflexivity|discriminate]. Qed.
End EmptyTable.

Section Band.
Context {R : Type} `{NumLaws R}.

(** Cutting the axis and the rows at the same indices keeps the rows that
    were aligned with the axis aligned with the cut axis. *)
Lemma limit_band_aligned (l1 l2 : R) w sp :
  Forall (fun row => length row = length w) sp ->
  Forall (fun row => length row = length (fst (limit_band l1 l2 w sp))) (snd (limit_band l1 l2 w sp)).
Proof.
  intros Hrows. unfold limit_band. cbn [fst snd]. apply Forall_map.
  eapply Forall_impl; [exact Hrows|]. intros row Hrow. rewrite !length_py_slice, Hrow. reflexivity.
Qed.

(** C30: on a sorted axis, band limiting keeps exactly the wavenumbers [x]
    with [out_limit1 <= x < out_limit2], in their order (the binary search
    of [np.searchsorted] cuts the same band as a linear filter), and every
    spectrum row that was aligned with the axis stays aligned with the cut
    axis. *)
Theorem limit_band_filter (l1 l2 : R) w sp :
  sorted_asc w -> Forall (fun row => length row = length w) sp ->
  let '(w', sp') := limit_band l1 l2 w sp in
  w' = List.filter (fun x => negb (x <. l1) && (x <. l2)) w /\
  Forall (fun row => length row = length w') sp'.
Proof.
  intros Hs Hrows. pose proof (limit_band_aligned l1 l2 w sp Hrows) as Hal.
  destruct (limit_band l1 l2 w sp) as [w' sp'] eqn:E. split; [|exact Hal].
  revert E. unfold limit_band. rewrite !(searchsorted_count w) by exact Hs. intros [= <- _].
  destruct (count_below_spec l1 w) as (Hl1 & _), (count_below_spec l2 w) as (Hl2 & _).
  rewrite py_slice_nonneg, !Nat2Z.id, !Nat.min_r by lia.
  apply count_below_band_filter, Hs.
Qed.
End Band.

Section Invariant.
Context {R : Type} `{NumLaws R}.

Definition split_ok (s : owfft R) : Prop :=
  sweeps s = Some 1 -> forall X, data s = Some X -> Forall (fun row => Nat.even (length row) = true) X.

Definition ctl_kept (s s' : owfft R) : Prop := sweeps s' = sweeps s /\ data s' = data s.

Lemma fft_single_sweep_run Ix (s s' : owfft R) r :
  fft_single_sweep Ix s = (s', r) -> sweep_frame s s'.
Proof. intros E. pose proof (fft_single_sweep_frame Ix s) as Hf. rewrite E in Hf. exact Hf. Qed.

Lemma fft_row_split row (s s' : owfft R) r :
  (sweeps s = Some 1 -> Nat.even (length row) = true) -> error2 s = None ->
  fft_row row s = (s', r) -> error2 s' = None /\ ctl_kept s s'.
Proof.
  intros Hev He Hr. unfold fft_row in Hr. srun Hr.
  all: repeat match goal with Hs : fft_single_sweep _ _ = _ |- _ =>
         apply fft_single_sweep_run in Hs as (? & ? & ? & ? & ? & ? & ? & ?) end.
  all: try match goal with Hs : hsplit2 _ = Err _ |- _ =>
         apply hsplit2_err in Hs as [Ho _]; rewrite <- Nat.negb_even, Hev in Ho by congruence;
         discriminate end.
  all: unfold ctl_kept; cbn; repeat split; congruence.
Qed.

Lemma fft_rows_split rows (s s' : owfft R) r :
  (sweeps s = Some 1 -> Forall (fun row => Nat.even (length row) = true) rows) ->
  error2 s = None -> fft_rows rows s = (s', r) -> error2 s' = None /\ ctl_kept s s'.
Proof.
  revert s r. induction rows as [|row rows IH]; intros s r Hev He Hr; simpl in Hr.
  - injection Hr as <- _. split; [exact He|split; reflexivity].
  - srun Hr.
    all: match goal with Hf : fft_row _ _ = _ |- _ =>
           apply fft_row_split in Hf as [He1 [Hs1 Hd1]];
           [|intros Hs; specialize (Hev Hs); inversion Hev; assumption|exact He] end.
    all: try match goal with Hf : fft_rows _ _ = _ |- _ =>
           apply IH in Hf as [He2 [Hs2 Hd2]]; cbn in *;
           [|rewrite Hs1; intros Hs; specialize (Hev Hs); inversion Hev; assumption|exact He1]
         end.
    all: unfold ctl_kept in *; cbn in *; repeat split; congruence.
Qed.

Lemma calculateFFT_split (s s' : owfft R) r :
  split_ok s -> calculateFFT s = (s', r) -> error2 s' = None /\ ctl_kept s s'.
Proof.
  intros Hok Hr. unfold calculateFFT in Hr. srun Hr.
  all: match goal with Hd : data _ = Some _, Hf : fft_rows _ _ = _ |- _ =>
         cbn in Hd; apply fft_rows_split in Hf as [He1 [Hs1 Hd1]];
         [|cbn; intros Hs; exact (Hok Hs _ Hd)|reflexivity]
       | _ => idtac end.
  all: unfold ctl_kept in *; cbn in *; repeat split; congruence.
Qed.

Definition widget_inv (s : owfft R) : Prop := error2 s = None /\ split_ok s.

Lemma commit_inv (s s' : owfft R) r : widget_inv s -> commit s = (s', r) -> widget_inv s'.
Proof.
  intros [He Hok] Hr. unfold commit in Hr. srun Hr; [|split; assumption].
  apply calculateFFT_split in Hr as [He' [Hs Hd]]; [|exact Hok].
  split; [exact He'|]. intros Hs1 X HX. apply Hok; congruence.
Qed.

Lemma rectangular_even X row rest :
  rectangular X = true -> X = row :: rest -> Nat.even (length row) = true ->
  Forall (fun r : list R => Nat.even (length r) = true) X.
Proof.
  intros Hx -> Hrow. apply Forall_forall. intros r Hr.
  unfold rectangular in Hx. rewrite forallb_forall in Hx.
  apply list_elem_of_In, Hx, Nat.eqb_eq in Hr. simpl in Hr. rewrite Hr. exact Hrow.
Qed.

(** Close a [widget_inv] goal on a state built from [s] by field updates. *)
Ltac inv_close Hv :=
  unfold widget_inv, split_ok in *; cbn in *;
  split; [assumption|];
  let Hs1 := fresh "Hs1" in let X' := fresh "X" in let HX' := fresh "HX" in
  intros Hs1 X' HX'; try discriminate;
  first
    [ match goal with Hok : sweeps ?x = Some 1 -> _ |- _ => eapply Hok; eassumption end
    | injection HX' as <-;
      match goal with
      | E : Some ?X = Some [] |- _ => injection E as ->; constructor
      | E : Some ?X = Some (?row :: ?rest) |- _ =>
          apply (rectangular_even X row rest Hv); [congruence|apply sweep_mode_even; congruence]
      end ].

Lemma handle_inv ev (s s' : owfft R) r :
  valid_event ev = true -> widget_inv s -> handle ev s = (s', r) -> widget_inv s'.
Proof.
  intros Hv [He Hok] Hr. destruct ev; cbn [handle] in Hr;
    unfold set_data_handler, determine_sweeps, setting_changed, out_limit_changed, dx_changed,
      conditional_commit, autocommit_toggled, commit_button, set_setting in Hr;
    srun Hr.
  all: try match goal with Hc : commit ?s0 = (?s1, _) |- _ =>
         let Hi := fresh "Hi" in
         assert (Hi : widget_inv s1) by ((eapply commit_inv; [|exact Hc]); inv_close Hv);
         destruct Hi; clear Hc end.
  all: inv_close Hv.
Qed.

(** C4: by rule induction over the steps of a widget fed rectangular tables:
    [error(2)] (the [ValueError] of splitting an odd row) is never shown,
    since forward-backward is chosen only for a first row of even length,
    and then every row of the table has even length. *)
Theorem reachable_no_split_error c (s : owfft R) :
  reachable c s -> error2 s = None /\ split_ok s.
Proof.
  induction 1 as [|s s' _ IH Hstep]; [split; [reflexivity|discriminate]|].
  destruct Hstep as [ev s s' r Hv Hh]. exact (handle_inv ev s s' r Hv IH Hh).
Qed.
End Invariant.

(** ** The output limits stay ordered *)

Section Limits.
Context {R : Type} `{NumLaws R}.

(** The two limits of the output band. *)
Definition limits (s : owfft R) : R * R := (out_limit1 (cfg s), out_limit2 (cfg s)).

Definition limits_kept (s s' : owfft R) : Prop := limits s' = limits s.

#[export] Instance limits_kept_preorder : PreOrder limits_kept.
Proof. split; [intros s; reflexivity|intros ? ? ? H1 H2; unfold limits_kept in *; congruence]. Qed.

(** [limit_band] cuts to [out_limit1 .. out_limit2]: ordered limits. *)
Definition limits_ordered (s : owfft R) : bool := negb (out_limit2 (cfg s) <. out_limit1 (cfg s)).

Lemma fft_single_sweep_limits Ix : preserves limits_kept (fft_single_sweep Ix).
Proof.
  intros s. destruct (fft_single_sweep_frame Ix s) as [Hc _].
  unfold limits_kept, limits. rewrite Hc. reflexivity.
Qed.

#[local] Hint Resolve fft_single_sweep_limits : preserve.

Lemma fft_rows_limits rows : preserves limits_kept (fft_rows rows).
Proof.
  induction rows; simpl; unfold fft_row; preserve.
  all: apply preserves_modify; intros s; reflexivity.
Qed.

#[local] Hint Resolve fft_rows_limits : preserve.

Lemma conditional_commit_limits : preserves limits_kept conditional_commit.
Proof.
  unfold conditional_commit, commit, calculateFFT. preserve.
  all: apply preserves_modify; intros s; reflexivity.
Qed.

Lemma commit_button_limits : preserves limits_kept commit_button.
Proof.
  unfold commit_button, commit, calculateFFT. preserve.
  all: apply preserves_modify; intros s; reflexivity.
Qed.

#[local] Hint Resolve conditional_commit_limits commit_button_limits : preserve.

(** Python's [min] and [max] of two floats are ordered. *)
Lemma min_max_ordered (l1 l2 : R) :
  ((if l1 <. l2 then l2 else l1) <. (if l2 <. l1 then l2 else l1)) = false.
Proof.
  destruct (l2 <. l1) eqn:E1, (l1 <. l2) eqn:E2; try assumption.
  - rewrite (nlt_asym _ _ E1) in E2. discriminate.
  - apply nlt_irrefl.
Qed.

Lemma out_limit_changed_ordered s : limits_ordered (fst (out_limit_changed s)) = true.
Proof.
  unfold out_limit_changed. cbn [sbind sget smodify fst].
  set (s1 := set_cfg _ s). pose proof (conditional_commit_limits s1) as Hk.
  unfold limits_kept, limits in Hk. unfold limits_ordered.
  destruct (conditional_commit s1) as [s2 r]. cbn [fst] in *. injection Hk as -> ->.
  cbn. rewrite min_max_ordered. reflexivity.
Qed.

(** Every handler but the two out-limit edits leaves the limits alone. *)
Lemma handle_limits ev :
  match ev with EvOutLimit1 _ | EvOutLimit2 _ => True | _ => preserves limits_kept (handle ev) end.
Proof.
  destruct ev; try exact I; unfold handle, set_data_handler, set_setting, setting_changed,
    autocommit_toggled; try solve [preserve; apply preserves_modify; intros s; reflexivity].
  (* [dx_changed] writes [dx] into the settings it has just read *)
  intros s. unfold dx_changed. cbn [sbind smodify sget fst].
  destruct (dx_HeNe _); cbn [sbind smodify sret];
    (etransitivity; [|apply conditional_commit_limits]); reflexivity.
Qed.
Lemma handle_ordered ev (s : owfft R) :
  limits_ordered s = true -> limits_ordered (fst (handle ev s)) = true.
Proof.
  intros Ho. destruct ev;
    try (cbn [handle set_setting sbind smodify]; apply out_limit_changed_ordered);
    match goal with |- context [handle ?e s] => pose proof (handle_limits e s) as Hk end;
    cbn [handle] in *; unfold limits_kept, limits in Hk; unfold limits_ordered in *;
    injection Hk as -> ->; exact Ho.
Qed.

(** C16: by rule induction over the steps: once the configured limits are
    ordered, [out_limit1 <= out_limit2] holds in every reachable state.
    Only the two out-limit edits change the limits, and their callback
    [out_limit_changed] stores [min] and [max] of the two. *)
Theorem reachable_limits_ordered c (s : owfft R) :
  reachable c s -> (out_limit2 c <. out_limit1 c) = false ->
  (out_limit2 (cfg s) <. out_limit1 (cfg s)) = false.
Proof.
  intros Hr Hc. apply negb_true_iff. change (limits_ordered s = true).
  induction Hr as [|s s' _ IH Hstep]; [|destruct Hstep as [ev s s' r _ Hh]].
  - unfold limits_ordered, init_owfft. destruct (dx_HeNe c); cbn; rewrite Hc; reflexivity.
  - pose proof (handle_ordered ev s IH) as Ho. rewrite Hh in Ho. exact Ho.
Qed.
End Limits.

(** ** The shape of the tables the widget sends *)

Section Shape.
Context {R : Type} `{NumLaws R}.

Lemma fft_single_sweep_keeps (Ix : list R) s s' r :
  fft_single_sweep Ix s = (s', r) -> spectra s' = spectra s /\ cfg s' = cfg s.
Proof.
  intros Hs. pose proof (fft_single_sweep_frame Ix s) as (Hc & _ & Hsp & _).
  rewrite Hs in *. split; assumption.
Qed.

(** A row that produced a spectrum leaves the stack alone and an axis in
    place: the one it found, or, on the first row, one with a point per
    value of the spectrum. *)
Lemma fft_row_shape row (s s' : owfft R) out :
  fft_row row s = (s', Ok (Some out)) ->
  spectra s' = spectra s /\
  exists w', wavenumbers s' = Some w' /\
    (forall w, wavenumbers s = Some w -> w' = w) /\
    (wavenumbers s = None -> length out = length w').
Proof.
  unfold fft_row. intros Hr. sinv Hr; try discriminate.
  all: repeat match goal with
         Hs : fft_single_sweep _ _ = (_, Ok _) |- _ =>
           pose proof (fft_single_sweep_shape _ _ _ _ Hs) as ?;
           apply fft_single_sweep_keeps in Hs as [? ?] end.
  - destruct H2 as (w & Hw & Hdef & Hl). split; [exact H1|]. exists w.
    split; [exact Hw|split].
    + intros w0 Ew. rewrite Ew in Hdef. exact Hdef.
    + intros En. apply Hl. rewrite Hdef, En. apply length_rfftfreq.
  - match goal with Hm : mean2 _ _ = Ok _ |- _ => apply length_mean2 in Hm as [Hm1 Hm2] end.
    destruct H6 as (w1 & Hw1 & Hdef1 & Hl1), H4 as (w2 & Hw2 & Hdef2 & Hl2).
    rewrite Hw1 in Hdef2. cbn [default from_option] in Hdef2. subst w2.
    split; [congruence|]. exists w1. split; [exact Hw2|split].
    + intros w0 Ew. rewrite Ew in Hdef1. exact Hdef1.
    + intros En. rewrite En in Hdef1. cbn [default from_option] in Hdef1. subst w1.
      rewrite length_rfftfreq in *. rewrite Hm1. apply Hl1. reflexivity.
Qed.

(** The stack [self.spectra] is aligned with the axis [w]: it has a row,
    and every row has one value per wavenumber. *)
Definition aligned (w : list R) (sp : list (list R)) : Prop :=
  sp <> [] /\ Forall (fun row => length row = length w) sp.

(** Between two rows of [calculateFFT]'s loop: no axis and no stack yet, or
    an axis with an aligned stack. *)
Definition stack_inv (s : owfft R) : Prop :=
  (wavenumbers s = None /\ spectra s = None) \/
  exists w sp, wavenumbers s = Some w /\ spectra s = Some sp /\ aligned w sp.

(** [np.vstack] of a spectrum onto an aligned stack, or of the first
    spectrum when it has one value per wavenumber, is aligned. *)
Lemma vstack_aligned w sp0 (out : list R) sp :
  vstack sp0 out = Ok sp ->
  (sp0 = None -> length out = length w) -> (forall rows, sp0 = Some rows -> aligned w rows) ->
  aligned w sp.
Proof.
  intros Hv Hfirst Hal. destruct sp0 as [rows|]; cbn in Hv.
  - destruct (Hal rows eq_refl) as [Hne Hrows].
    destruct (forallb _ rows) eqn:Hall; [|discriminate]. injection Hv as <-.
    rewrite forallb_forall in Hall. destruct rows as [|r rows']; [contradiction|].
    pose proof (Hall r (or_introl eq_refl)) as Hr. apply Nat.eqb_eq in Hr.
    inversion Hrows; subst. split; [destruct rows'; discriminate|].
    apply Forall_app. split; [exact Hrows|]. constructor; [congruence|constructor].
  - injection Hv as <-. split; [discriminate|]. constructor; [auto|constructor].
Qed.

Lemma fft_rows_shape rows (s s' : owfft R) :
  stack_inv s -> fft_rows rows s = (s', Ok true) -> stack_inv s'.
Proof.
  revert s. induction rows as [|row rows IH]; intros s Hi Hr; cbn [fft_rows] in Hr.
  - injection Hr as <-. exact Hi.
  - sinv Hr; try discriminate. refine (IH _ _ Hr). clear IH Hr.
    match goal with Hrow : fft_row _ _ = (_, Ok (Some _)) |- _ =>
      apply fft_row_shape in Hrow as [Hsp (w' & Hw' & Hsame & Hfirst)] end.
    right. exists w'. eexists. cbn. split; [exact Hw'|split; [reflexivity|]].
    eapply vstack_aligned; [eassumption| |].
    + intros Hn. apply Hfirst. rewrite Hsp in Hn.
      destruct Hi as [[? ?]|(w & sp & _ & Hsp' & _)]; congruence.
    + intros rows0 Hs0. rewrite Hsp in Hs0.
      destruct Hi as [[? ?]|(w & sp & Hw & Hsp' & Hal)]; [congruence|].
      rewrite (Hsame w Hw). congruence.
Qed.
(** A table [build_spec_table(wavenumbers, spectra)] as sent: both parts
    or neither (a table without rows), and an aligned stack. *)
Definition table_ok (t : option (spec_table R)) : Prop :=
  match t with
  | None => True
  | Some t =>
      match table_wavenumbers t, table_spectra t with
      | Some w, Some sp => aligned w sp
      | None, None => True
      | _, _ => False
      end
  end.

Definition out_ok (s : owfft R) : Prop :=
  table_ok (spectra_table s) /\ Forall table_ok (sent s).

Lemma fft_rows_out_ok rows (s s' : owfft R) r :
  fft_rows rows s = (s', r) -> out_ok s -> out_ok s'.
Proof.
  intros Hf. pose proof (fft_rows_out rows s) as [Ht Hs]. rewrite Hf in Ht, Hs.
  unfold out_ok. cbn [fst] in *. rewrite Ht, Hs. exact id.
Qed.

Lemma stack_inv_table_ok (s : owfft R) :
  stack_inv s -> table_ok (Some (build_spec_table (wavenumbers s) (spectra s))).
Proof. intros [[-> ->]|(w & sp & -> & -> & Hal)]; [exact I|exact Hal]. Qed.

Lemma calculateFFT_out_ok (s : owfft R) : out_ok s -> out_ok (fst (calculateFFT s)).
Proof.
  intros Hok. destruct (calculateFFT s) as [s' r] eqn:Hr. cbn [fst].
  unfold calculateFFT in Hr. srun Hr.
  all: try (match goal with Hf : fft_rows _ _ = (_, _) |- _ =>
              pose proof (fft_rows_out_ok _ _ _ _ Hf Hok) as Hok' end).
  all: try (match goal with Hf : fft_rows _ _ = (_, Ok true) |- _ =>
              apply fft_rows_shape in Hf; [|left; split; reflexivity] end).
  all: try assumption.
  all: unfold out_ok in *; cbn in *.
  - destruct H1 as [[? ?]|(w & sp & Hw & Hsp & [Hne Hal])]; [congruence|].
    rewrite E1 in Hw. rewrite E2 in Hsp. injection Hw as <-. injection Hsp as <-.
    assert (Hal3 : aligned l2 l3).
    { pose proof (limit_band_aligned (out_limit1 (cfg s1)) (out_limit2 (cfg s1)) l0 l1 Hal) as Hf.
      rewrite E3 in Hf. split; [|exact Hf].
      unfold limit_band in E3. injection E3 as _ <-. destruct l1; [contradiction|discriminate]. }
    split; [exact Hal3|constructor; [exact Hal3|apply Hok']].
  - pose proof (stack_inv_table_ok s1 H1) as Ht.
    split; [exact Ht|constructor; [exact Ht|apply Hok']].
Qed.
(** [out_ok] is kept by every run that keeps the output slots. *)
Definition out_mono (s s' : owfft R) : Prop := out_ok s -> out_ok s'.

#[export] Instance out_mono_preorder : PreOrder out_mono.
Proof. split; [intros s H1; exact H1|intros s1 s2 s3 H12 H23 H1; auto]. Qed.

Lemma calculateFFT_out_mono : preserves out_mono calculateFFT.
Proof. intros s Hok. exact (calculateFFT_out_ok s Hok). Qed.

Lemma handle_out_ok ev (s : owfft R) : out_ok s -> out_ok (fst (handle ev s)).
Proof.
  intros Hok. destruct ev as [[X|]| | | | | | | | | | | |].
  (* [set_data(None)] clears the table and sends [None] *)
  2: { unfold out_ok in *. cbn. split; [exact I|constructor; [exact I|apply Hok]]. }
  all: revert Hok; match goal with |- context [handle ?e ?s0] =>
         enough (Hp : preserves out_mono (handle e)) by exact (Hp s0) end.
  all: pose proof calculateFFT_out_mono.
  all: unfold handle, set_data_handler, determine_sweeps, set_setting, setting_changed,
         out_limit_changed, dx_changed, autocommit_toggled, commit_button,
         conditional_commit, commit; preserve.
  all: apply preserves_modify; intros s0; exact id.
Qed.

(** C5: by rule induction over the steps, for every input: each table the
    widget holds or has sent on "Spectra" has an axis and a stack of
    spectra or neither, and then at least one spectrum, every one with a
    value per wavenumber.  The axis is computed once per run, the first
    spectrum is as long as it, [np.vstack] admits only spectra of the same
    length, and the band limits cut the axis and the spectra alike. *)
Theorem reachable_tables_aligned c (s : owfft R) :
  reachable c s -> table_ok (spectra_table s) /\ Forall table_ok (sent s).
Proof.
  induction 1 as [|s s' _ IH Hstep]; [split; [exact I|constructor]|].
  destruct Hstep as [ev s s' r _ Hh].
  pose proof (handle_out_ok ev s IH) as Hok. rewrite Hh in Hok. exact Hok.
Qed.
End Shape.

(** ** A zero phase resolution *)

Section ZeroResolution.
Context {R : Type} `{Num R}.

(** With the phase limit on and [dx * phase_resolution == 0], every sweep
    that gets as far as [compute_phase] raises [ZeroDivisionError]: no
    sweep returns a spectrum. *)
Lemma fft_single_sweep_zero_res Ix (s s' : owfft R) x :
  phase_res_limit (cfg s) = true -> neqb (dx (cfg s) × nof_Z (phase_resolution (cfg s))) n0 = true ->
  fft_single_sweep Ix s <> (s', Ok x).
Proof.
  intros Hl Hz Hr. unfold fft_single_sweep in Hr. sinv Hr; try discriminate.
  match goal with Hw : wavenumber_set _ _ = _ |- _ =>
    rewrite (proj1 (wavenumber_set_once _ _)) in Hw;
    destruct (wavenumbers _); [|destruct (np_rfftfreq _ _); [|discriminate]];
    injection Hw as <- _ end.
  all: match goal with Hp : compute_phase _ _ = (_, Ok _) |- _ =>
         unfold compute_phase, phase_length in Hp; sinv Hp end.
  all: cbn in *; congruence.
Qed.

End ZeroResolution.

Section NoSweep.
Context {R : Type} `{Num R}.

(** A setting under which no sweep returns: the loop then never finishes a
    row, and a run leaves the table and the output alone. *)
Variable bad : settings R -> Prop.
Hypothesis sweep_fails : forall Ix (s s' : owfft R) x, bad (cfg s) -> fft_single_sweep Ix s <> (s', Ok x).

Lemma fft_row_fails row (s s' : owfft R) out : bad (cfg s) -> fft_row row s <> (s', Ok (Some out)).
Proof.
  intros Hb Hr. unfold fft_row in Hr. sinv Hr; try discriminate.
  all: match goal with Hs : fft_single_sweep _ _ = (_, Ok _) |- _ =>
         exact (sweep_fails _ _ _ _ Hb Hs) end.
Qed.

Lemma fft_rows_fails row rows (s s' : owfft R) : bad (cfg s) -> fft_rows (row :: rows) s <> (s', Ok true).
Proof.
  intros Hb Hr. cbn [fft_rows] in Hr. sinv Hr; try discriminate.
  match goal with Hf : fft_row _ _ = (_, Ok (Some _)) |- _ => exact (fft_row_fails _ _ _ _ Hb Hf) end.
Qed.

Lemma calculateFFT_fails (s s' : owfft R) r X :
  data s = Some X -> X <> [] -> bad (cfg s) ->
  calculateFFT s = (s', r) -> spectra_table s' = spectra_table s /\ sent s' = sent s.
Proof.
  intros Hd Hne Hb Hr. destruct X as [|row rows]; [contradiction|].
  unfold calculateFFT in Hr. srun Hr; cbn in *; try (exfalso; congruence).
  all: match goal with Ed : data ?x = Some ?l, Hd' : data ?x = Some (_ :: _) |- _ =>
         rewrite Hd' in Ed; injection Ed as <- end.
  all: match goal with Hf : fft_rows ?l ?x = _ |- _ =>
         pose proof (fft_rows_out l x) as Hout; rewrite Hf in Hout; cbn in Hout;
         try (exfalso; exact (fft_rows_fails _ _ x _ Hb Hf)) end.
  all: destruct Hout as [Ht Hs]; cbn in Ht, Hs; split; congruence.
Qed.
End NoSweep.

Section ZeroResolutionRun.
Context {R : Type} `{Num R}.

(** C22: with "Limit phase resolution" checked and [dx * phase_resolution]
    zero (a resolution of 0 typed in its line edit), [calculateFFT] on a
    table with a row never sends a table and leaves the one it holds:
    [compute_phase] divides by zero, and Python's [ZeroDivisionError] is
    not the [ValueError] the loop catches, so the run either stops with a
    message for an earlier [ValueError] or raises out of the handler. *)
Theorem calculateFFT_zero_resolution (s s' : owfft R) r X :
  data s = Some X -> X <> [] ->
  phase_res_limit (cfg s) = true -> neqb (dx (cfg s) × nof_Z (phase_resolution (cfg s))) n0 = true ->
  calculateFFT s = (s', r) -> spectra_table s' = spectra_table s /\ sent s' = sent s.
Proof.
  intros Hd Hne Hl Hz. apply (calculateFFT_fails (fun c =>
    phase_res_limit c = true /\ neqb (dx c × nof_Z (phase_resolution c)) n0 = true)) with X;
    [|assumption..|split; assumption].
  intros Ix s0 s0' x [Hl0 Hz0]. exact (fft_single_sweep_zero_res Ix s0 s0' x Hl0 Hz0).
Qed.
End ZeroResolutionRun.

(** ** A zero sample spacing *)

Section ZeroSpacing.
Context {R : Type} `{NumLaws R}.

(** C23: with a spacing [dx == 0] (the line edit takes any float, 0
    included), [calculateFFT] on a table with a row never sends a table and
    leaves the one it holds: both [np.fft.rfftfreq(N, dx)] calls divide by
    [N * dx == 0], so no sweep returns, and the [ZeroDivisionError] is not
    the [ValueError] the loop catches. *)
Theorem calculateFFT_zero_dx (s s' : owfft R) r X :
  data s = Some X -> X <> [] -> neqb (dx (cfg s)) n0 = true ->
  calculateFFT s = (s', r) -> spectra_table s' = spectra_table s /\ sent s' = sent s.
Proof.
  intros Hd Hne Hz. apply (calculateFFT_fails (fun c => neqb (dx c) n0 = true)) with X; try assumption.
  intros Ix s0 s0' x Hz0 Hr. apply fft_single_sweep_dx in Hr. congruence.
Qed.
End ZeroSpacing.

(** ** The output channel carries the table the widget holds *)

Section Output.
Context {R : Type} `{Num R}.

(** The last value sent on "Spectra" is [self.spectra_table] ([None]
    before anything was sent). *)
Definition out_consistent (s : owfft R) : Prop := hd None (sent s) = spectra_table s.

Definition out_cons_mono (s s' : owfft R) : Prop := out_consistent s -> out_consistent s'.

#[export] Instance out_cons_mono_preorder : PreOrder out_cons_mono.
Proof. split; [intros s H1; exact H1|intros s1 s2 s3 H12 H23 H1; auto]. Qed.

Lemma calculateFFT_consistent : preserves out_cons_mono calculateFFT.
Proof.
  intros s Hc. destruct (calculateFFT s) as [s' r] eqn:Hr. cbn [fst].
  unfold calculateFFT in Hr. srun Hr; unfold out_consistent in *; cbn in *; try reflexivity.
  (* a run that stops leaves the table and the sent values alone *)
  all: match goal with
       | Hf : fft_rows ?l ?x = _ |- _ =>
           pose proof (fft_rows_out l x) as [Ht Hs]; rewrite Hf in Ht, Hs; cbn [fst] in Ht, Hs;
           rewrite Ht, Hs; exact Hc
       | _ => exact Hc
       end.
Qed.

(** C17: by rule induction over the steps: in every reachable state the
    last value sent on "Spectra" is the table the widget holds, so the
    output never shows a table other than [self.spectra_table]: a run
    either sets and sends a new table, or stops and leaves both alone, and
    [set_data(None)] clears the table and sends [None]. *)
Theorem reachable_output_consistent c (s : owfft R) :
  reachable c s -> hd None (sent s) = spectra_table s.
Proof.
  induction 1 as [|s s' _ IH Hstep]; [reflexivity|].
  destruct Hstep as [ev s s' r _ Hh].
  enough (Hp : preserves out_cons_mono (handle ev)) by (pose proof (Hp s IH) as Hk; rewrite Hh in Hk; exact Hk).
  destruct ev as [[X|]| | | | | | | | | | | |].
  2: { intros s0 _. reflexivity. }
  all: pose proof calculateFFT_consistent.
  all: unfold handle, set_data_handler, determine_sweeps, set_setting, setting_changed,
         out_limit_changed, dx_changed, autocommit_toggled, commit_button,
         conditional_commit, commit; preserve.
  all: apply preserves_modify; intros s0; exact id.
Qed.
End Output.

(** ** Witnesses on rationals *)

Section Witnesses.
Import QcNum.
Local Abbreviation q := QcNum.of_Z.

(** A widget holding the table of an earlier run, in forward-backward mode,
    given a row of odd length. *)
Definition odd_row_state : owfft Qc :=
  OWFFT boxcar_settings (Some [[q 1; q 5; q 2]]) None (Some (SpecTable None None)) None
        (Some 1) None None false false [] (Controls true true "" "").

(** The split fails: [error(2)] is shown, nothing is sent and the earlier
    table stays in [self.spectra_table]. *)
Lemma calculateFFT_atomic_witness :
  error2 (fst (calculateFFT odd_row_state)) = Some SplitUnequal /\
  spectra_table (fst (calculateFFT odd_row_state)) = Some (SpecTable None None) /\
  sent (fst (calculateFFT odd_row_state)) = [].
Proof.
  destruct (calculateFFT_atomic odd_row_state (fst (calculateFFT odd_row_state))
              (snd (calculateFFT odd_row_state))) as [(_ & _ & He & _)|[Ht Hs]].
  - vm_compute. reflexivity.
  - vm_compute in He. discriminate He.
  - split; [vm_compute; reflexivity|]. rewrite Ht, Hs. split; reflexivity.
Defined.

(** Cutting [1 .. 5] to [2, 4) keeps the two wavenumbers of the band and
    the matching columns of the spectrum. *)
Lemma limit_band_filter_witness :
  fst (limit_band (q 2) (q 4) [q 1; q 2; q 3; q 4; q 5] [[q 10; q 20; q 30; q 40; q 50]])
    = List.filter (fun x => negb (x <. q 2) && (x <. q 4)) [q 1; q 2; q 3; q 4; q 5].
Proof.
  pose proof (limit_band_filter (q 2) (q 4) [q 1; q 2; q 3; q 4; q 5]
                [[q 10; q 20; q 30; q 40; q 50]]) as Hf.
  destruct (limit_band _ _ _ _) as [w' sp'] eqn:E. simpl. apply Hf.
  - apply sorted_ascb_sound. vm_compute. reflexivity.
  - repeat constructor.
Defined.

(** A forward-backward table: a sweep peaking at its first sample followed
    by its mirror image, twice. *)
Definition fb_table : list (list Qc) :=
  let row := (q 9 :: replicate 30 (q 0)) ++ reverse (q 9 :: replicate 30 (q 0)) in [row; row].

Lemma reachable_no_split_error_witness :
  error2 (fst (handle (EvSetData (Some fb_table)) (init_owfft boxcar_settings))) = None.
Proof.
  apply (reachable_no_split_error boxcar_settings).
  eapply reach_step; [apply reach_init|].
  apply (step_handle (EvSetData (Some fb_table)) _ _
           (snd (handle (EvSetData (Some fb_table)) (init_owfft boxcar_settings)))).
  - vm_compute. reflexivity.
  - apply surjective_pairing.
Defined.

(** The delta sweep of the end-to-end witness followed by its mirror image,
    in forward-backward mode, gives the flat spectrum of the delta. *)
Definition fb_state : owfft Qc := set_sweeps (Some 1) (init_owfft boxcar_settings).

Lemma fft_row_mirror_witness :
  snd (fft_row (delta_ifg 2 (q 5) 3 ++ reverse (delta_ifg 2 (q 5) 3)) fb_state)
    = Ok (Some (replicate 5 (q 5))).
Proof.
  apply (fft_row_mirror fb_state (fst (fft_single_sweep (delta_ifg 2 (q 5) 3) fb_state))).
  - reflexivity.
  - vm_compute. reflexivity.
Defined.
(** Typing 5000 into the first limit of [400 .. 4000] swaps the two. *)
Lemma reachable_limits_ordered_witness :
  (out_limit2 (cfg (fst (handle (EvOutLimit1 5000) (init_owfft boxcar_settings)))) <.
   out_limit1 (cfg (fst (handle (EvOutLimit1 5000) (init_owfft boxcar_settings))))) = false.
Proof.
  apply (reachable_limits_ordered boxcar_settings); [|vm_compute; reflexivity].
  eapply reach_step; [apply reach_init|].
  apply (step_handle (EvOutLimit1 5000) _ _
           (snd (handle (EvOutLimit1 5000) (init_owfft boxcar_settings)))).
  - reflexivity.
  - apply surjective_pairing.
Defined.
(** A table of two delta interferograms [0 0 5 0 0 0]: single sweeps whose
    peak is inside the row, so a table is computed. *)
Definition delta_table : list (list Qc) := [delta_ifg 2 (q 5) 3; delta_ifg 2 (q 5) 3].

(** Loading it and pressing "Calculate": the table sent is well formed. *)
Definition delta_calculated : owfft Qc :=
  fst (handle EvCalculate (fst (handle (EvSetData (Some delta_table)) (init_owfft boxcar_settings)))).

Lemma reachable_tables_aligned_witness :
  table_ok (spectra_table delta_calculated) /\ Forall table_ok (sent delta_calculated).
Proof.
  apply (reachable_tables_aligned boxcar_settings).
  eapply reach_step; [eapply reach_step; [apply reach_init|]|].
  - apply (step_handle (EvSetData (Some delta_table)) _ _
             (snd (handle (EvSetData (Some delta_table)) (init_owfft boxcar_settings)))).
    + vm_compute. reflexivity.
    + apply surjective_pairing.
  - apply (step_handle EvCalculate _ _
             (snd (handle EvCalculate (fst (handle (EvSetData (Some delta_table))
                                              (init_owfft boxcar_settings)))))).
    + reflexivity.
    + apply surjective_pairing.
Defined.

(** After the same two steps the "Spectra" output shows the table the
    widget holds. *)
Lemma reachable_output_consistent_witness :
  hd None (sent delta_calculated) = spectra_table delta_calculated.
Proof.
  apply (reachable_output_consistent boxcar_settings).
  eapply reach_step; [eapply reach_step; [apply reach_init|]|].
  - apply (step_handle (EvSetData (Some delta_table)) _ _
             (snd (handle (EvSetData (Some delta_table)) (init_owfft boxcar_settings)))).
    + vm_compute. reflexivity.
    + apply surjective_pairing.
  - apply (step_handle EvCalculate _ _
             (snd (handle EvCalculate (fst (handle (EvSetData (Some delta_table))
                                              (init_owfft boxcar_settings)))))).
    + reflexivity.
    + apply surjective_pairing.
Defined.

(** A table whose first row is empty: stored, with the rest of the state
    left as it was. *)
Lemma set_data_empty_witness :
  set_data_handler (Some [[]; [q 1]]) (init_owfft boxcar_settings) =
    (set_data (Some [[]; [q 1]]) (init_owfft boxcar_settings), Err ArgmaxEmpty).
Proof. exact (set_data_empty (init_owfft boxcar_settings) [[]; [q 1]] eq_refl). Defined.

(** A spacing of 0 with the phase limit off: the delta row is not
    transformed and the table of an earlier run stays in place. *)
Definition zero_dx_state : owfft Qc :=
  OWFFT (Settings (q 15797) false (q 0) 0 0 0 false 32 false (q 400) (q 4000) false)
        (Some [delta_ifg 2 (q 5) 3]) None (Some (SpecTable None None)) None (Some 0) None None
        false false [Some (SpecTable None None)] (Controls true true "" "").

Lemma calculateFFT_zero_dx_witness :
  spectra_table (fst (calculateFFT zero_dx_state)) = Some (SpecTable None None) /\
  sent (fst (calculateFFT zero_dx_state)) = [Some (SpecTable None None)].
Proof.
  exact (calculateFFT_zero_dx zero_dx_state (fst (calculateFFT zero_dx_state))
           (snd (calculateFFT zero_dx_state)) [delta_ifg 2 (q 5) 3]
           eq_refl ltac:(discriminate) ltac:(vm_compute; reflexivity) (surjective_pairing _)).
Defined.

(** "Limit phase resolution" checked with a resolution of 0: the delta
    row is not transformed and no table is sent. *)
Definition zero_res_state : owfft Qc :=
  OWFFT (Settings (q 15797) false (q 1) 0 0 0 true 0 false (q 400) (q 4000) false)
        (Some [delta_ifg 2 (q 5) 3]) None None None (Some 0) None None false false []
        (Controls true true "" "").

Lemma calculateFFT_zero_resolution_witness : sent (fst (calculateFFT zero_res_state)) = [].
Proof.
  destruct (calculateFFT_zero_resolution zero_res_state (fst (calculateFFT zero_res_state))
              (snd (calculateFFT zero_res_state)) [delta_ifg 2 (q 5) 3]) as [_ Hs].
  - reflexivity.
  - discriminate.
  - reflexivity.
  - vm_compute. reflexivity.
  - apply surjective_pairing.
  - exact Hs.
Defined.
End Witnesses.
