(* ===== verification/OWBin.v ===== *)
(** * OWBin: the "Bin" widget (src/orangecontrib/spectroscopy/widgets/owbin.py)

    [OWBin] bins a hyperspectral table by two continuous variables, the
    axes [attr_x] and [attr_y], in blocks of [bin_shape].  The binning
    itself is [bin_hypercube] of [orangecontrib.spectroscopy.utils.binning],
    outside [src/]: the widget is modelled against the interface [Binner]
    that states what it needs of that function (a result or one of its
    exceptions), so the theorems hold for every implementation.

    The widget state [owbin] holds [self.data], the axes, the contents of
    the axis combo model [xy_model], the setting [bin_shape], the
    attributes [bin_0], [bin_1], ... set by [_init_bins] and edited in the
    line edits (a map [bins] from [i] to [bin_i]), the three messages, the
    setting [autocommit] with the pending flag of [gui.auto_commit], and
    the values sent on "Binned Data".  The handlers [set_data],
    [_update_attr] and [_bin_changed], with the "Send Data" button and the
    "autocommit" box, are the events of a step relation.

    The theorems: [commit] sends exactly one value or raises an exception
    that is not one of the two it catches, having sent nothing; an error
    message is shown only with [None] sent; the NaN warning counts the
    NaNs; an axis combo offering a single variable puts it on both axes;
    [_update_bins] after [_init_bins] gives back [bin_shape]; and, by
    rule induction over the steps, the attributes [bin_i] always exist
    (so [_update_bins] never raises [AttributeError]), at most one error
    message is shown, a shown error goes with [None] on the output, and an
    edited block size is the one the next binning uses. *)

From Stdlib Require Import ZArith Lia.
From stdpp Require Import base list gmap strings.
From S2P Require Import Prelude.

(** A variable of an Orange domain, by its name. *)
Definition var := string.

(** A cell of [data.X]: a float or NaN. *)
Inductive fval (R : Type) : Type :=
  | Fin (x : R)
  | NaN.
Arguments Fin {R} x.
Arguments NaN {R}.

(** An Orange [Domain]: the attributes, and the class variables and metas
    with a flag telling whether they are [ContinuousVariable]s. *)
Record domain := Domain {
  attributes : list var;
  class_vars : list (var * bool);
  metas : list (var * bool)
}.

#[export] Instance domain_eq_dec : EqDecision domain.
Proof. solve_decision. Defined.

(** An Orange [Table]: its domain and the rows of [X]. *)
Record table (R : Type) := Table {
  tdomain : domain;
  X : list (list (fval R))
}.
Arguments Table {R}.
Arguments tdomain {R}.
Arguments X {R}.

(** What the widget needs of [bin_hypercube(data, [attr_x, attr_y],
    bin_shape)]: a binned table, or an exception. *)
Class Binner (R : Type) := {
  bin_hypercube : table R -> var -> var -> list nat -> result (table R)
}.

(** The widget object. *)
Record owbin (R : Type) := OWBin {
  data : option (table R);
  attr_x : option var;
  attr_y : option var;
  xy_model : list var;
  bin_shape : list nat;
  bins : gmap nat nat;                  (** the attributes [bin_i] *)
  nan_warning : option nat;             (** [Warning.nan_in_image] *)
  err_axis : option py_error;           (** [Error.invalid_axis] *)
  err_block : option py_error;          (** [Error.invalid_block] *)
  bin_autocommit : bool;                (** the setting [autocommit] *)
  bin_dirty : bool;                     (** [gui.auto_commit]'s pending commit *)
  sent : list (option (table R))        (** [Outputs.bindata.send], latest first *)
}.
Arguments OWBin {R}.
Arguments data {R}. Arguments attr_x {R}. Arguments attr_y {R}. Arguments xy_model {R}.
Arguments bin_shape {R}. Arguments bins {R}. Arguments nan_warning {R}.
Arguments err_axis {R}. Arguments err_block {R}. Arguments bin_autocommit {R}.
Arguments bin_dirty {R}. Arguments sent {R}.

Section Updates.
Context {R : Type}.
Implicit Types (s : owbin R).

Definition set_data (d : option (table R)) s : owbin R :=
  OWBin d (attr_x s) (attr_y s) (xy_model s) (bin_shape s) (bins s)
        (nan_warning s) (err_axis s) (err_block s) (bin_autocommit s) (bin_dirty s) (sent s).
Definition set_axes (ax ay : option var) (m : list var) s : owbin R :=
  OWBin (data s) ax ay m (bin_shape s) (bins s) (nan_warning s) (err_axis s) (err_block s) (bin_autocommit s) (bin_dirty s) (sent s).
Definition set_attr_x (ax : option var) s : owbin R :=
  set_axes ax (attr_y s) (xy_model s) s.
Definition set_attr_y (ay : option var) s : owbin R :=
  set_axes (attr_x s) ay (xy_model s) s.
Definition set_bin_shape (b : list nat) s : owbin R :=
  OWBin (data s) (attr_x s) (attr_y s) (xy_model s) b (bins s)
        (nan_warning s) (err_axis s) (err_block s) (bin_autocommit s) (bin_dirty s) (sent s).
Definition set_bins (m : gmap nat nat) s : owbin R :=
  OWBin (data s) (attr_x s) (attr_y s) (xy_model s) (bin_shape s) m
        (nan_warning s) (err_axis s) (err_block s) (bin_autocommit s) (bin_dirty s) (sent s).
Definition set_nan_warning (w : option nat) s : owbin R :=
  OWBin (data s) (attr_x s) (attr_y s) (xy_model s) (bin_shape s) (bins s)
        w (err_axis s) (err_block s) (bin_autocommit s) (bin_dirty s) (sent s).
Definition set_err_axis (e : option py_error) s : owbin R :=
  OWBin (data s) (attr_x s) (attr_y s) (xy_model s) (bin_shape s) (bins s)
        (nan_warning s) e (err_block s) (bin_autocommit s) (bin_dirty s) (sent s).
Definition set_err_block (e : option py_error) s : owbin R :=
  OWBin (data s) (attr_x s) (attr_y s) (xy_model s) (bin_shape s) (bins s)
        (nan_warning s) (err_axis s) e (bin_autocommit s) (bin_dirty s) (sent s).
Definition set_bin_autocommit (b : bool) s : owbin R :=
  OWBin (data s) (attr_x s) (attr_y s) (xy_model s) (bin_shape s) (bins s)
        (nan_warning s) (err_axis s) (err_block s) b (bin_dirty s) (sent s).
Definition set_bin_dirty (b : bool) s : owbin R :=
  OWBin (data s) (attr_x s) (attr_y s) (xy_model s) (bin_shape s) (bins s)
        (nan_warning s) (err_axis s) (err_block s) (bin_autocommit s) b (sent s).
Definition send_bindata (v : option (table R)) s : owbin R :=
  OWBin (data s) (attr_x s) (attr_y s) (xy_model s) (bin_shape s) (bins s)
        (nan_warning s) (err_axis s) (err_block s) (bin_autocommit s) (bin_dirty s) (v :: sent s).
End Updates.

Section Handlers.
Context {R : Type} `{Binner R}.
Implicit Types (s : owbin R).

(** Python's truth value of a [Table] is [len(table) > 0]. *)
Definition table_truthy (t : table R) : bool := negb (length (X t) =? 0).

Definition is_nan (v : fval R) : bool := match v with NaN => true | Fin _ => false end.

(** [np.sum(np.isnan(self.data.X))] *)
Definition nan_count (rows : list (list (fval R))) : nat :=
  sum_list (map (fun row => length (filter (fun v => is_nan v = true) row)) rows).

(** [np.any(np.isnan(self.data.X))] *)
Definition nan_any (rows : list (list (fval R))) : bool :=
  existsb (fun row => existsb is_nan row) rows.

(** The variables offered by [DomainModel(METAS | CLASSES,
    valid_types=ContinuousVariable)]: the continuous class variables, then
    the continuous metas. *)
Definition xy_vars (d : domain) : list var :=
  map fst (filter (fun p => p.2 = true) (class_vars d ++ metas d)).

(** owbin.py 107-109: [setattr(self, f"bin_{i}", bin)] for each entry. *)
Definition init_bins (shape : list nat) : gmap nat nat :=
  list_to_map (zip (seq 0 (length shape)) shape).

(** owbin.py 96-100: read back [bin_0 .. bin_{n-1}], [n = len(bin_shape)];
    a missing attribute raises [AttributeError]. *)
Definition update_bins : st (owbin R) unit :=
  s <- sget ;;
  match mapM (fun i => bins s !! i) (seq 0 (length (bin_shape s))) with
  | Some shape => smodify (set_bin_shape shape)
  | None => sraise AttrMissing
  end.

(** owbin.py 111-116. *)
Definition init_attr_values (d : option (table R)) : st (owbin R) unit :=
  let model := match d with Some t => xy_vars (tdomain t) | None => [] end in
  let ax := head model in
  let ay := if 2 <=? length model then model !! 1 else ax in
  smodify (set_axes ax ay model).

(** owbin.py 118-123, run by [openContext(dataset)] before [self.data] is
    replaced: the axes are reset unless both tables are non-empty and
    share their domain. *)
Definition init_interface_data (d : option (table R)) : st (owbin R) unit :=
  s <- sget ;;
  let same_domain :=
    match data s, d with
    | Some old, Some new =>
        table_truthy old && table_truthy new && bool_decide (tdomain new = tdomain old)
    | _, _ => false
    end in
  if same_domain then sret tt else init_attr_values d.

Definition clear_messages : owbin R -> owbin R :=
  fun s => set_err_block None (set_err_axis None (set_nan_warning None s)).

(** The two [except] clauses of [commit]. *)
Definition is_bin_error (e : py_error) : bool :=
  match e with InvalidAxis | InvalidBlockShape => true | _ => false end.

Definition report_bin_error (e : py_error) : owbin R -> owbin R :=
  match e with
  | InvalidAxis => set_err_axis (Some e)
  | _ => set_err_block (Some e)
  end.

(** owbin.py 142-160 (a [Variable] is a true value). *)
Definition bin_commit : st (owbin R) unit :=
  smodify clear_messages ;;;
  s <- sget ;;
  match data s, attr_x s, attr_y s with
  | Some d, Some ax, Some ay =>
      if table_truthy d && negb (length (attributes (tdomain d)) =? 0) then
        (if nan_any (X d) then smodify (set_nan_warning (Some (nan_count (X d))))
         else sret tt) ;;;
        bin_data <- scatch (b <- slift (bin_hypercube d ax ay (bin_shape s)) ;; sret (Some b))
                           is_bin_error
                           (fun e => smodify (report_bin_error e) ;;; sret None) ;;
        smodify (send_bindata bin_data)
      else smodify (send_bindata None)
  | _, _, _ => smodify (send_bindata None)
  end.

(** The [commit] the handlers call: [gui.auto_commit] (owbin.py 91)
    replaces [self.commit] by a wrapper that commits when [autocommit] is
    set and otherwise marks the output as pending (Orange's behaviour). *)
Definition bin_conditional_commit : st (owbin R) unit :=
  s <- sget ;;
  if bin_autocommit s then bin_commit ;;; smodify (set_bin_dirty false)
  else smodify (set_bin_dirty true).

(** The "Send Data" button. *)
Definition bin_send_button : st (owbin R) unit :=
  bin_commit ;;; smodify (set_bin_dirty false).

(** The "autocommit" box: a pending commit is run when it becomes set. *)
Definition bin_autocommit_toggled (b : bool) : st (owbin R) unit :=
  smodify (set_bin_autocommit b) ;;;
  s <- sget ;;
  if b && bin_dirty s then bin_send_button else sret tt.

(** owbin.py 128-140 ([closeContext] and the restoring of saved axes by
    the context handler are settings persistence, not modelled;
    [_sanitize_bin_value] does nothing). *)
Definition bin_set_data (dataset : option (table R)) : st (owbin R) unit :=
  init_interface_data dataset ;;;
  smodify (set_data dataset) ;;;
  smodify clear_messages ;;;
  bin_conditional_commit.

(** owbin.py 102-105. *)
Definition bin_changed : st (owbin R) unit :=
  update_bins ;;; bin_conditional_commit.

(** The widget as the canvas creates it (owbin.py 49-58), with the saved
    [bin_shape] and [autocommit]. *)
Definition init_owbin (shape : list nat) (auto : bool) : owbin R :=
  OWBin None None None [] shape (init_bins shape) None None None auto false [].

(** The signals: new input, an axis chosen in a combo box
    ([_update_attr]), a bin size edited ([_bin_changed] after the line
    edit of [bin_i] stored its value), the "Send Data" button and the
    "autocommit" box. *)
Inductive bin_event : Type :=
  | BinSetData (dataset : option (table R))
  | BinAxisX (v : var)
  | BinAxisY (v : var)
  | BinEdit (i v : nat)
  | BinSend
  | BinAutoCommit (b : bool).

Definition bin_handle (ev : bin_event) : st (owbin R) unit :=
  match ev with
  | BinSetData d => bin_set_data d
  | BinAxisX v => smodify (set_attr_x (Some v)) ;;; bin_conditional_commit
  | BinAxisY v => smodify (set_attr_y (Some v)) ;;; bin_conditional_commit
  | BinEdit i v => smodify (fun s => set_bins (<[i := v]> (bins s)) s) ;;; bin_changed
  | BinSend => bin_send_button
  | BinAutoCommit b => bin_autocommit_toggled b
  end.

(** The line edits exist for [bin_0] and [bin_1] and accept integers
    [>= 1] ([lineEditIntRange(bottom=1)]). *)
Definition valid_bin_event (ev : bin_event) : bool :=
  match ev with BinEdit i v => (i <? 2) && (1 <=? v) | _ => true end.

Inductive bin_step : owbin R -> owbin R -> Prop :=
  | bin_step_handle ev s s' r :
      valid_bin_event ev = true -> bin_handle ev s = (s', r) -> bin_step s s'.

Inductive bin_reachable (shape : list nat) (auto : bool) : owbin R -> Prop :=
  | bin_reach_init : bin_reachable shape auto (init_owbin shape auto)
  | bin_reach_step s s' : bin_reachable shape auto s -> bin_step s s' -> bin_reachable shape auto s'.
End Handlers.

Section CommitTheory.
Context {R : Type} `{Binner R}.
Implicit Types (s : owbin R).

(** C32: C: [commit] either returns normally, having sent exactly one value,
    [None] whenever it shows an error message, and showing at most one of
    the two; or it lets escape an exception of [bin_hypercube] that is not
    one of the two it catches, having sent nothing. *)
Theorem bin_commit_outcome s s' r :
  bin_commit s = (s', r) ->
  (r = Ok tt /\ (err_axis s' = None \/ err_block s' = None) /\
   exists v, sent s' = v :: sent s /\ (err_axis s' <> None \/ err_block s' <> None -> v = None)) \/
  (exists e, r = Err e /\ is_bin_error e = false /\ sent s' = sent s).
Proof.
  unfold bin_commit. intros Hr. srun Hr.
  all: try match goal with Hp : is_bin_error ?e = true |- _ =>
         is_var e; destruct e; try discriminate Hp end.
  all: first
    [ right; eexists; split; [reflexivity|]; split; [apply Hp; reflexivity|reflexivity]
    | left; split; [reflexivity|]; cbn; split; [auto|];
      eexists; split; [reflexivity|]; intros [?|?]; congruence ].
Qed.

Lemma nan_any_count (rows : list (list (fval R))) : nan_any rows = (0 <? nan_count rows).
Proof.
  unfold nan_any, nan_count. induction rows as [|row rows IH]; [reflexivity|].
  cbn [existsb map sum_list]. rewrite IH.
  assert (Hrow : existsb is_nan row = (0 <? length (filter (fun v => is_nan v = true) row))).
  { induction row as [|v row IHr]; [reflexivity|]. cbn [existsb].
    rewrite filter_cons. destruct (is_nan v); simpl; [reflexivity|exact IHr]. }
  rewrite Hrow. destruct (0 <? length _) eqn:E1, (0 <? sum_list _) eqn:E2;
    apply Nat.ltb_lt in E1 || apply Nat.ltb_ge in E1;
    apply Nat.ltb_lt in E2 || apply Nat.ltb_ge in E2; simpl; symmetry;
    first [apply Nat.ltb_lt; lia | apply Nat.ltb_ge; lia].
Qed.

(** C37: The NaN warning after [commit]: shown, with the number of NaN cells
    of [data.X], exactly when the binning is attempted on a table that has
    some; cleared otherwise. *)
Theorem bin_commit_nan s s' r :
  bin_commit s = (s', r) ->
  nan_warning s' =
    match data s, attr_x s, attr_y s with
    | Some d, Some _, Some _ =>
        if table_truthy d && negb (length (attributes (tdomain d)) =? 0) && (0 <? nan_count (X d))
        then Some (nan_count (X d)) else None
    | _, _, _ => None
    end.
Proof.
  unfold bin_commit. intros Hr. srun Hr.
  all: try match goal with Hp : is_bin_error ?e = true |- _ =>
         is_var e; destruct e; try discriminate Hp end.
  all: cbn [data attr_x attr_y clear_messages set_nan_warning set_err_axis set_err_block
            nan_warning send_bindata report_bin_error] in *.
  all: repeat match goal with E : _ = Some _ |- _ => rewrite E; clear E
                          | E : _ = None |- _ => rewrite E; clear E end.
  all: rewrite ?nan_any_count in *.
  all: repeat match goal with E : ?b = true |- context [?b] => rewrite E
                          | E : ?b = false |- context [?b] => rewrite E end.
  all: reflexivity.
Qed.

(** C38: When the table's domain changes (or the first table arrives) and it
    offers a single continuous class variable or meta [v], both axes are
    set to [v]: the widget bins [v] against itself. *)
Theorem init_axes_single (s s' : owbin R) t v r :
  xy_vars (tdomain t) = [v] ->
  (forall old, data s = Some old -> tdomain old <> tdomain t) ->
  init_interface_data (Some t) s = (s', r) ->
  attr_x s' = Some v /\ attr_y s' = Some v.
Proof.
  intros Hxy Hdom Hr. unfold init_interface_data in Hr.
  rewrite (sbind_run _ _ s s s) in Hr by reflexivity. cbv beta zeta in Hr.
  destruct (data s) as [old|] eqn:Ed.
  - rewrite (bool_decide_eq_false_2 _ (fun E => Hdom old eq_refl (eq_sym E))), andb_false_r in Hr.
    unfold init_attr_values, smodify in Hr. injection Hr as <- _. cbn. rewrite Hxy. auto.
  - unfold init_attr_values, smodify in Hr. injection Hr as <- _. cbn. rewrite Hxy. auto.
Qed.
End CommitTheory.

Section Bins.
Context {R : Type} `{Binner R}.
Implicit Types (s : owbin R).

Lemma lookup_init_bins (shape : list nat) i x :
  shape !! i = Some x -> init_bins shape !! i = Some x.
Proof.
  intros Hx. pose proof (lookup_lt_Some _ _ _ Hx) as Hi. unfold init_bins.
  apply elem_of_list_to_map_1.
  - rewrite fst_zip by len. apply NoDup_seq.
  - apply (list_elem_of_lookup_2 _ i). rewrite lookup_zip_with, Hx.
    assert (Hs : seq 0 (length shape) !! i = Some i) by (apply lookup_seq; lia).
    rewrite Hs. reflexivity.
Qed.

Lemma mapM_seq_lookup {A} (f : nat -> option A) (l : list A) :
  (forall i x, l !! i = Some x -> f i = Some x) -> mapM f (seq 0 (length l)) = Some l.
Proof.
  intros Hf. apply mapM_Some, Forall2_lookup. intros i.
  destruct (l !! i) as [x|] eqn:E.
  - assert (Hs : seq 0 (length l) !! i = Some i)
      by (apply lookup_seq; apply lookup_lt_Some in E; lia).
    rewrite Hs. constructor. apply Hf, E.
  - assert (Hs : seq 0 (length l) !! i = None)
      by (apply lookup_ge_None; apply lookup_ge_None in E; len).
    rewrite Hs. constructor.
Qed.

Lemma mapM_is_Some {A B} (f : A -> option B) (k : list A) :
  (forall x, x ∈ k -> is_Some (f x)) -> exists l, mapM f k = Some l /\ length l = length k.
Proof.
  induction k as [|x k IH]; intros Hk; [exists []; split; reflexivity|].
  destruct (Hk x ltac:(left)) as [y Hy].
  destruct IH as (l & Hl & Hlen); [intros z Hz; apply Hk; right; exact Hz|].
  exists (y :: l). simpl. rewrite Hy, Hl. split; [reflexivity|simpl; lia].
Qed.

(** Every [bin_i] for an index of [bin_shape] exists. *)
Definition bins_defined s : Prop :=
  forall i, i < length (bin_shape s) -> is_Some (bins s !! i).

(** [_update_bins] reads back a shape of the same length when every
    [bin_i] exists. *)
Lemma update_bins_defined s :
  bins_defined s ->
  exists shape, update_bins s = (set_bin_shape shape s, Ok tt) /\
                length shape = length (bin_shape s).
Proof.
  intros Hd. destruct (mapM_is_Some (fun i => bins s !! i) (seq 0 (length (bin_shape s))))
    as (shape & Hm & Hl).
  { intros i Hi. apply elem_of_seq in Hi. apply Hd. lia. }
  exists shape. unfold update_bins, sbind, sget. cbn. rewrite Hm. split; [reflexivity|len].
Qed.

(** C36: _update_bins after _init_bins: reading back the attributes [bin_i]
    that [_init_bins] set from [bin_shape] gives [bin_shape] again, and the
    widget is unchanged. *)
Theorem update_bins_init s :
  bins s = init_bins (bin_shape s) -> update_bins s = (s, Ok tt).
Proof.
  intros Hb. unfold update_bins, sbind, sget. cbn. rewrite Hb.
  rewrite (mapM_seq_lookup _ (bin_shape s)) by (intros i x Hx; apply lookup_init_bins, Hx).
  destruct s. reflexivity.
Qed.
End Bins.

Section BinInvariant.
Context {R : Type} `{Binner R}.
Implicit Types (s : owbin R).

(** At most one error message, and a shown error goes with [None] as the
    last value sent. *)
Definition msgs_ok s : Prop :=
  (err_axis s = None \/ err_block s = None) /\
  (err_axis s <> None \/ err_block s <> None -> head (sent s) = Some None).

Definition bin_inv s : Prop := bins_defined s /\ msgs_ok s.

Lemma bin_commit_msgs s s' r :
  bin_commit s = (s', r) -> msgs_ok s' /\ bin_shape s' = bin_shape s /\ bins s' = bins s.
Proof.
  unfold bin_commit. intros Hr. srun Hr.
  all: try match goal with Hp : is_bin_error ?e = true |- _ =>
         is_var e; destruct e; try discriminate Hp end.
  all: unfold msgs_ok; cbn; (split; [split; [auto|]|auto]).
  all: intros [?|?]; congruence.
Qed.

Lemma bin_inv_commit s s' r : bin_commit s = (s', r) -> bins_defined s -> bin_inv s'.
Proof.
  intros Hc Hd. apply bin_commit_msgs in Hc as (Hm & Hs & Hb).
  split; [|exact Hm]. intros i Hi. rewrite Hb. apply Hd. congruence.
Qed.

Lemma bin_inv_dirty s b : bin_inv s -> bin_inv (set_bin_dirty b s).
Proof. intros [Hd Hm]. split; [exact Hd|exact Hm]. Qed.

Lemma bin_inv_send s s' r : bin_send_button s = (s', r) -> bins_defined s -> bin_inv s'.
Proof.
  unfold bin_send_button. intros Hr Hd. srun Hr.
  all: first [apply bin_inv_dirty|idtac]; eapply bin_inv_commit; eassumption.
Qed.

Lemma bin_inv_cond_commit s s' r :
  bin_conditional_commit s = (s', r) -> bins_defined s -> msgs_ok s -> bin_inv s'.
Proof.
  unfold bin_conditional_commit. intros Hr Hd Hm. srun Hr.
  all: first [ apply bin_inv_dirty; eapply bin_inv_commit; eassumption
             | eapply bin_inv_commit; eassumption
             | split; assumption ].
Qed.

Lemma bin_cond_commit_shape s s' r :
  bin_conditional_commit s = (s', r) -> bin_shape s' = bin_shape s.
Proof.
  unfold bin_conditional_commit. intros Hr. srun Hr; try reflexivity.
  all: match goal with Hc : bin_commit _ = _ |- _ => apply bin_commit_msgs in Hc as (_ & Hs & _) end.
  all: cbn; exact Hs.
Qed.

(** A state whose messages were just cleared satisfies [msgs_ok]. *)
Lemma msgs_ok_cleared s : msgs_ok (clear_messages s).
Proof. split; [left; reflexivity|intros [H1|H1]; contradiction]. Qed.

Lemma bin_handle_inv ev s s' r :
  valid_bin_event ev = true -> bin_inv s -> bin_handle ev s = (s', r) -> bin_inv s'.
Proof.
  intros Hv [Hd Hm] Hr. destruct ev as [d|v|v|i v| |b]; cbn [bin_handle] in Hr.
  - unfold bin_set_data, init_interface_data, init_attr_values in Hr. srun Hr.
    all: (eapply bin_inv_cond_commit; [eassumption|exact Hd|apply msgs_ok_cleared]).
  - srun Hr. eapply bin_inv_cond_commit; [eassumption|exact Hd|exact Hm].
  - srun Hr. eapply bin_inv_cond_commit; [eassumption|exact Hd|exact Hm].
  - unfold bin_changed in Hr. apply sbind_inv in Hr as [(e & He & _)|(s1 & [] & Hs1 & Hr)];
      [discriminate He|injection Hs1 as <-].
    set (s1 := set_bins (<[i:=v]> (bins s)) s) in *.
    assert (Hd1 : bins_defined s1)
      by (intros j Hj; subst s1; cbn in *; rewrite lookup_insert_is_Some'; right; apply Hd, Hj).
    destruct (update_bins_defined s1 Hd1) as (shape & Hu & Hl).
    unfold sbind in Hr. rewrite Hu in Hr.
    eapply bin_inv_cond_commit; [exact Hr| |exact Hm]. intros j Hj. apply Hd1. cbn in Hj. lia.
  - eapply bin_inv_send; eassumption.
  - unfold bin_autocommit_toggled in Hr. srun Hr.
    all: first [eapply bin_inv_send; eassumption | split; assumption].
Qed.

(** Rule induction over the steps of the widget from its creation with
    any saved [bin_shape]: the invariant holds in every reachable state. *)
Lemma bin_reachable_inv shape auto s : bin_reachable shape auto s -> bin_inv s.
Proof.
  induction 1 as [|s s' _ IH Hstep].
  - split; [|split; [auto|intros [Ha|Hb]; contradiction]].
    intros i Hi. cbn in *. destruct (lookup_lt_is_Some_2 shape i Hi) as [x Hx].
    exists x. apply lookup_init_bins, Hx.
  - destruct Hstep as [ev s s' r Hv Hh]. exact (bin_handle_inv ev s s' r Hv IH Hh).
Qed.

(** [_update_bins] stores [bin_i] at index [i] of [bin_shape]. *)
Lemma update_bins_lookup s s' i :
  update_bins s = (s', Ok tt) -> i < length (bin_shape s) ->
  bin_shape s' !! i = bins s !! i.
Proof.
  unfold update_bins, sbind, sget. cbn.
  destruct (mapM _ _) as [shape|] eqn:Em; [|discriminate]. intros [= <-] Hi. cbn.
  apply mapM_Some_1 in Em. rewrite Forall2_lookup in Em. specialize (Em i).
  assert (Hs : seq 0 (length (bin_shape s)) !! i = Some i) by (apply lookup_seq; lia).
  rewrite Hs in Em. inversion Em as [? y Hy|]; subst. symmetry. assumption.
Qed.

(** C33: In every state the widget reaches, at most one error message is
    shown, and when one is shown the last value sent on "Binned Data" is
    [None]: no binned table goes out with an error on screen. *)
Theorem bin_reachable_messages shape auto s :
  bin_reachable shape auto s ->
  (err_axis s = None \/ err_block s = None) /\
  (err_axis s <> None \/ err_block s <> None -> head (sent s) = Some None).
Proof. intros Hr. exact (proj2 (bin_reachable_inv shape auto s Hr)). Qed.

(** C34: In every reachable state the attributes [bin_i] exist for all the
    indices of [bin_shape]: [_update_bins] never raises [AttributeError]
    and keeps the length of [bin_shape]. *)
Theorem bin_reachable_update_bins shape auto s :
  bin_reachable shape auto s ->
  exists shape', update_bins s = (set_bin_shape shape' s, Ok tt) /\
                 length shape' = length (bin_shape s).
Proof. intros Hr. apply update_bins_defined, (bin_reachable_inv shape auto s Hr). Qed.

(** C35: An edit of [bin_i] is the [i]-th block size of the binning that
    follows it: after [_bin_changed], [bin_shape[i]] is the edited value. *)
Theorem bin_edit_applies shape auto s s' r i v :
  bin_reachable shape auto s -> i < length (bin_shape s) ->
  bin_handle (BinEdit i v) s = (s', r) -> bin_shape s' !! i = Some v.
Proof.
  intros Hreach Hi Hr. destruct (bin_reachable_inv shape auto s Hreach) as [Hd _].
  cbn [bin_handle] in Hr. unfold bin_changed in Hr.
  set (s1 := set_bins (<[i:=v]> (bins s)) s) in *.
  assert (Hd1 : bins_defined s1)
    by (intros j Hj; subst s1; cbn in *; rewrite lookup_insert_is_Some'; right; apply Hd, Hj).
  destruct (update_bins_defined s1 Hd1) as (shape1 & Hu & _).
  rewrite (sbind_run _ _ s s1 tt) in Hr by reflexivity.
  rewrite (sbind_run _ _ _ _ _ Hu) in Hr.
  pose proof (update_bins_lookup s1 _ i Hu Hi) as Hl.
  apply bin_cond_commit_shape in Hr as ->. rewrite Hl. subst s1. cbn.
  apply lookup_insert_eq.
Qed.
End BinInvariant.

(** ** Witnesses *)

Section Witnesses.
Local Open Scope string_scope.

(** A binner for the witnesses: it accepts only blocks of size 1. *)
#[local] Instance unit_binner : Binner Z := {
  bin_hypercube t ax ay shape :=
    if forallb (fun b => Nat.eqb b 1) shape then Ok t else Err InvalidBlockShape
}.

(** A 2 x 2 image with coordinates ["x"] and ["y"] as metas and one
    spectral attribute, one cell of which is NaN. *)
Definition image : table Z :=
  Table (Domain ["1000"] [] [("x", true); ("y", true)])
        [[Fin 1%Z]; [NaN]; [Fin 3%Z]; [Fin 4%Z]].

(** The widget after receiving [image], then after the edit [bin_0 = 2]. *)
Definition bin_loaded : owbin Z := fst (bin_handle (BinSetData (Some image)) (init_owbin [1; 1] true)).
Definition bin_edited : owbin Z := fst (bin_handle (BinEdit 0 2) bin_loaded).

Lemma bin_loaded_reachable : bin_reachable [1; 1] true bin_loaded.
Proof.
  apply (bin_reach_step _ _ (init_owbin [1; 1] true) bin_loaded); [apply bin_reach_init|].
  apply (bin_step_handle (BinSetData (Some image)) (init_owbin [1; 1] true) bin_loaded
           (snd (bin_handle (BinSetData (Some image)) (init_owbin [1; 1] true)))); [reflexivity|].
  unfold bin_loaded. apply surjective_pairing.
Qed.

Lemma bin_edited_reachable : bin_reachable [1; 1] true bin_edited.
Proof.
  apply (bin_reach_step _ _ bin_loaded bin_edited); [exact bin_loaded_reachable|].
  apply (bin_step_handle (BinEdit 0 2) bin_loaded bin_edited
           (snd (bin_handle (BinEdit 0 2) bin_loaded))); [reflexivity|].
  unfold bin_edited. apply surjective_pairing.
Qed.

(** Blocks of 2 are refused: the block error is shown and [None] sent. *)
Definition bin_pre : owbin Z := set_bin_shape [2; 1] bin_loaded.

Lemma bin_commit_outcome_witness :
  err_block (fst (bin_commit bin_pre)) = Some InvalidBlockShape /\
  sent (fst (bin_commit bin_pre)) = None :: sent bin_pre.
Proof.
  assert (Hb : err_block (fst (bin_commit bin_pre)) = Some InvalidBlockShape)
    by (vm_compute; reflexivity).
  destruct (bin_commit_outcome bin_pre (fst (bin_commit bin_pre)) (snd (bin_commit bin_pre)))
    as [(_ & _ & v & Hs & Hv)|(e & He & _)]; [apply surjective_pairing| |].
  - rewrite Hs, Hv by (right; rewrite Hb; discriminate). split; [exact Hb|reflexivity].
  - vm_compute in He. discriminate He.
Defined.

Lemma bin_reachable_messages_witness : head (sent bin_edited) = Some None.
Proof.
  apply (bin_reachable_messages [1; 1] true bin_edited bin_edited_reachable).
  right. vm_compute. discriminate.
Defined.

Lemma bin_reachable_update_bins_witness :
  exists shape', update_bins bin_edited = (set_bin_shape shape' bin_edited, Ok tt) /\
                 length shape' = 2.
Proof. apply (bin_reachable_update_bins [1; 1] true bin_edited bin_edited_reachable). Defined.

Lemma bin_edit_applies_witness : bin_shape bin_edited !! 0 = Some 2.
Proof.
  apply (bin_edit_applies [1; 1] true bin_loaded bin_edited (snd (bin_handle (BinEdit 0 2) bin_loaded)) 0 2).
  - exact bin_loaded_reachable.
  - vm_compute. lia.
  - unfold bin_edited. apply surjective_pairing.
Defined.

Lemma update_bins_init_witness : update_bins (init_owbin (R:=Z) [2; 3] true) = (init_owbin [2; 3] true, Ok tt).
Proof. apply update_bins_init. reflexivity. Defined.

Lemma bin_commit_nan_witness : nan_warning (fst (bin_commit bin_pre)) = Some 1.
Proof.
  rewrite (bin_commit_nan bin_pre _ (snd (bin_commit bin_pre)) (surjective_pairing _)).
  vm_compute. reflexivity.
Defined.

(** A table with a single coordinate, ["x"]. *)
Definition line_scan : table Z := Table (Domain ["1000"] [] [("x", true)]) [[Fin 1%Z]; [Fin 2%Z]].

Lemma init_axes_single_witness :
  attr_x (fst (init_interface_data (Some line_scan) (init_owbin (R:=Z) [1; 1] true))) = Some "x" /\
  attr_y (fst (init_interface_data (Some line_scan) (init_owbin (R:=Z) [1; 1] true))) = Some "x".
Proof.
  apply (init_axes_single (init_owbin [1; 1] true) _ line_scan "x"
           (snd (init_interface_data (Some line_scan) (init_owbin [1; 1] true)))).
  - reflexivity.
  - intros old Hold. discriminate Hold.
  - apply surjective_pairing.
Defined.
End Witnesses.
