(* ===== verification/Progress.v ===== *)
(** * Progress of the widget: "Calculate" always answers (owfft.py 220-295)

    On a loaded table whose rows have one length, with a known apodization,
    the phase limit off and [dx != 0], a run of [calculateFFT] raises no
    exception: every exception a sweep can raise is then a [ValueError]
    ([np.fft.rfftfreq]'s [ZeroDivisionError] needs [dx == 0] or an empty
    signal, and a signal whose peak was found is not empty), which the
    loop catches and reports, and the two operations outside the [try]
    ([np.mean] of the two sweeps and [np.vstack]) always see spectra of one
    length.  So the run either sends a table or shows [error(1)] or
    [error(2)].

    [ve r] says a result fails, if at all, with a [ValueError]; the first
    section proves it of the numpy primitives and of the sweep.  The loop
    invariant [prog_inv] ties the axis to the common row length; the widget
    invariant [data_inv] (the table is rectangular and a non-empty first row
    has been classified) holds in every reachable state. *)

From Stdlib Require Import ZArith Lia Qcanon.
From stdpp Require Import base list.
From S2P Require Import Prelude Num NumPy PeakSearch ZeroFilling Apodization Sweeps State Phase.
From S2P Require Import SingleSweep Widget.

Section ValueErrors.
Context {R : Type} `{Num R}.

(** [r] fails, if at all, with a [ValueError]. *)
Definition ve {A} (r : result A) : Prop := forall e, r = Err e -> is_value_error e = true.

Lemma argmax_ve (l : list R) : ve (argmax l).
Proof. intros e He. apply argmax_err in He as [_ ->]. reflexivity. Qed.

Lemma rfft_ve (x : list R) : ve (rfft x).
Proof. intros e. destruct x; cbn; [intros [= <-]; reflexivity|discriminate]. Qed.

Lemma interp_ve (x xp fp : list R) : ve (interp x xp fp).
Proof.
  intros e. unfold interp. destruct (length xp =? 0); [intros [= <-]; reflexivity|].
  destruct (negb _); [intros [= <-]; reflexivity|discriminate].
Qed.

Lemma np_binop_ve f (a b : list R) : ve (np_binop f a b).
Proof.
  intros e. unfold np_binop. destruct (length a =? length b); [discriminate|].
  destruct a as [|x [|]], b as [|y [|]]; cbn; try discriminate; intros [= <-]; reflexivity.
Qed.

Lemma apodization_ve apod (Ix : list R) zpd : apod < 4 -> ve (apodization apod Ix zpd).
Proof.
  intros Ha e. unfold apodization.
  destruct (apodization_window apod (length Ix) zpd) as [Bs|e'] eqn:Hw.
  - cbn. destruct (np_binop nmul Ix Bs) as [|[]] eqn:Hb; try discriminate;
      intros [= <-]; try reflexivity; exact (np_binop_ve _ _ _ _ Hb).
  - unfold apodization_window in Hw.
    destruct apod as [|[|[|[|k]]]]; [discriminate..|lia].
Qed.
End ValueErrors.

(** Close [is_value_error e = true] from the failing primitive. *)
Ltac ve_close :=
  repeat match goal with Hx : Err _ = Err _ |- _ => injection Hx as Hx; subst end;
  match goal with
  | H : argmax _ = Err ?e |- is_value_error ?e = true => exact (argmax_ve _ _ H)
  | H : peak_search _ = Err ?e |- is_value_error ?e = true => exact (argmax_ve _ _ H)
  | H : rfft _ = Err ?e |- is_value_error ?e = true => exact (rfft_ve _ _ H)
  | H : interp _ _ _ = Err ?e |- is_value_error ?e = true => exact (interp_ve _ _ _ _ H)
  | H : np_binop _ _ _ = Err ?e |- is_value_error ?e = true => exact (np_binop_ve _ _ _ _ H)
  | H : apodization _ _ _ = Err ?e |- is_value_error ?e = true =>
      eapply apodization_ve; [|exact H]; cbn in *; lia
  | |- is_value_error (ZpdShift _ _) = true => reflexivity
  end.

Section SweepErrors.
Context {R : Type} `{NumLaws R}.

(** [np.fft.rfftfreq] of the length of a signal whose peak was found, with
    a spacing [dx != 0], does not raise. *)
Lemma rfftfreq_peak_ok (l : list R) k d e :
  peak_search l = Ok k -> neqb d n0 = false -> np_rfftfreq (length l) d <> Err e.
Proof.
  intros Hp Hd He. apply argmax_lt in Hp. apply np_rfftfreq_Err in He as [_ [Hn|Hn]];
    [lia|congruence].
Qed.

Ltac rfftfreq_close :=
  match goal with
  | H : np_rfftfreq (length ?l) _ = Err _, Hp : peak_search ?l = Ok _ |- _ =>
      exfalso; refine (rfftfreq_peak_ok _ _ _ _ Hp _ H); cbn in *; congruence
  end.

(** With the phase limit off, a known apodization and [dx != 0],
    [compute_phase] on a widget with an axis fails only with a
    [ValueError]. *)
Lemma compute_phase_ve Ix (s s' : owfft R) e :
  phase_res_limit (cfg s) = false -> apod_func (cfg s) < 4 -> neqb (dx (cfg s)) n0 = false ->
  wavenumbers s <> None -> compute_phase Ix s = (s', Err e) -> is_value_error e = true.
Proof.
  intros Hl Ha Hd Hw Hr. unfold compute_phase, phase_length in Hr. srun Hr.
  all: cbn in *; try congruence; first [ve_close|rfftfreq_close].
Qed.

(** The same holds of a whole sweep. *)
Lemma fft_single_sweep_ve Ix (s s' : owfft R) e :
  phase_res_limit (cfg s) = false -> apod_func (cfg s) < 4 -> neqb (dx (cfg s)) n0 = false ->
  fft_single_sweep Ix s = (s', Err e) -> is_value_error e = true.
Proof.
  intros Hl Ha Hd Hr. unfold fft_single_sweep in Hr. srun Hr.
  all: try ve_close.
  all: match goal with Hw : wavenumber_set _ ?x = (_, ?r) |- _ =>
         rewrite (proj1 (wavenumber_set_once _ _)) in Hw; revert Hw;
         destruct (wavenumbers x) eqn:Ew; intros Hw; cbn in Hw;
         [|destruct (np_rfftfreq _ _) eqn:Ef]; try discriminate Hw;
         try (injection Hw as <- <-; rfftfreq_close); injection Hw as <- end.
  all: match goal with Hp : compute_phase _ _ = (_, Err _) |- _ =>
         apply compute_phase_ve in Hp; cbn; try assumption; congruence end.
Qed.
End SweepErrors.

Section RowProgress.
Context {R : Type} `{NumLaws R}.

(** The zero-filled length of a sweep of [L] samples. *)
Definition zff_length (c : settings R) (L : nat) : nat := next_pow2 L * (zff c + 1).

(** An axis, if any, has the points of the transform of a sweep of [L]
    samples. *)
Definition axis_fits (L : nat) (s : owfft R) : Prop :=
  forall w, wavenumbers s = Some w -> length w = zff_length (cfg s) L / 2 + 1.

(** A successful sweep of [L] samples from a widget whose axis fits leaves
    a fitting axis and returns one value per point of it. *)
Lemma sweep_fits Ix (s s' : owfft R) out :
  axis_fits (length Ix) s -> fft_single_sweep Ix s = (s', Ok out) ->
  exists w, wavenumbers s' = Some w /\ length w = zff_length (cfg s) (length Ix) / 2 + 1 /\
    length out = length w /\ (forall w0, wavenumbers s = Some w0 -> w = w0) /\
    spectra s' = spectra s /\ cfg s' = cfg s.
Proof.
  intros Hfit Hr. pose proof (fft_single_sweep_keeps _ _ _ _ Hr) as [Hsp Hc].
  destruct (fft_single_sweep_shape _ _ _ _ Hr) as (w & Hw & Hdef & Hout).
  assert (Hlw : length w = zff_length (cfg s) (length Ix) / 2 + 1).
  { destruct (wavenumbers s) as [w0|] eqn:E; cbn in Hdef; subst w;
      [apply Hfit, E|apply length_rfftfreq]. }
  exists w. repeat split; auto.
  intros w0 E. rewrite E in Hdef. exact Hdef.
Qed.
(** The two sweeps of a forward-backward row: the halves have one length,
    so both spectra have a value per point of the axis the first one
    leaves. *)
Lemma fb_sweeps row fwd back (s s1 s' : owfft R) f b :
  hsplit2 row = Ok (fwd, back) -> axis_fits (length row / 2) s ->
  fft_single_sweep fwd s = (s1, Ok f) -> fft_single_sweep (reverse back) s1 = (s', Ok b) ->
  exists w, wavenumbers s' = Some w /\ length f = length w /\ length b = length w /\
    length w = zff_length (cfg s) (length row / 2) / 2 + 1 /\
    (forall w0, wavenumbers s = Some w0 -> w = w0) /\ spectra s' = spectra s /\ cfg s' = cfg s.
Proof.
  intros Hs Hfit H1 H2. apply length_hsplit2 in Hs as [Hf Hb].
  rewrite <- Hf in Hfit.
  destruct (sweep_fits _ _ _ _ Hfit H1) as (w1 & Hw1 & Hl1 & Hf1 & Hs1 & Hsp1 & Hc1).
  assert (Hfit2 : axis_fits (length (reverse back)) s1).
  { intros w Hw. rewrite Hw1 in Hw. injection Hw as <-. rewrite Hc1, length_reverse, Hb, <- Hf.
    exact Hl1. }
  destruct (sweep_fits _ _ _ _ Hfit2 H2) as (w2 & Hw2 & Hl2 & Hf2 & Hs2 & Hsp2 & Hc2).
  rewrite (Hs2 w1 Hw1) in *. exists w1. rewrite <- Hf.
  repeat split; try congruence. intros w0 E. exact (Hs1 w0 E).
Qed.

(** The length of the sweeps of a row in mode [k]: the row, or its halves. *)
Definition sweep_length (k : nat) (n : nat) : nat := if k =? 1 then n / 2 else n.

(** A failing sweep of a widget with the phase limit off and a known
    apodization, where the [try] lets the error through, is impossible. *)
Ltac uncaught_sweep :=
  match goal with
  | Hs : fft_single_sweep _ ?x = (_, Err ?e0), Hp : forall _, _ -> is_value_error _ = false |- _ =>
      let Hv := fresh "Hv" in
      assert (Hv : is_value_error e0 = true)
        by (eapply fft_single_sweep_ve; [| | |exact Hs];
            repeat match goal with Hc : cfg ?a = cfg ?b |- context [cfg ?a] => rewrite Hc end;
            assumption);
      erewrite Hp in Hv; [discriminate|congruence]
  end.

(** One row of the loop, with the phase limit off, a known apodization and
    a fitting axis: the row either stops the loop with a message, or gives
    a spectrum with one value per point of a fitting axis. *)
Lemma fft_row_progress row (s s' : owfft R) r k :
  phase_res_limit (cfg s) = false -> apod_func (cfg s) < 4 -> neqb (dx (cfg s)) n0 = false ->
  sweeps s = Some k -> k <= 1 -> axis_fits (sweep_length k (length row)) s ->
  fft_row row s = (s', r) ->
  (r = Ok None /\ (error1 s' <> None \/ error2 s' <> None)) \/
  (exists out w, r = Ok (Some out) /\ wavenumbers s' = Some w /\ length out = length w /\
     length w = zff_length (cfg s) (sweep_length k (length row)) / 2 + 1 /\
     (forall w0, wavenumbers s = Some w0 -> w = w0) /\ spectra s' = spectra s /\ cfg s' = cfg s).
Proof.
  intros Hl Ha Hdx Hk Hk1 Hfit Hr. unfold sweep_length in *.
  destruct k as [|[|k]]; [| |lia]; cbn [Nat.eqb] in *; unfold fft_row in Hr; srun Hr.
  all: try congruence.
  all: try (left; split; [reflexivity|cbn; first [left; discriminate|right; discriminate]]).
  all: try (match goal with Hs : fft_single_sweep ?l _ = (_, Ok _),
                            Hs' : fft_single_sweep _ _ = (_, Err _) |- _ =>
              pose proof (fft_single_sweep_keeps _ _ _ _ Hs) as [? ?] end).
  all: try (exfalso; uncaught_sweep).
  - destruct (sweep_fits _ _ _ _ Hfit H1) as (w & Hw & Hlw & Hla & Hrest).
    right. exists a, w. repeat split; try assumption; apply Hrest.
  - match goal with Hm : mean2 _ _ = Err _, Hh : hsplit2 _ = _,
                    H1 : fft_single_sweep _ _ = _, H2 : fft_single_sweep _ _ = _ |- _ =>
      destruct (fb_sweeps _ _ _ _ _ _ _ _ Hh Hfit H1 H2) as (w & _ & Hf & Hb & _);
      unfold mean2 in Hm; rewrite Hf, Hb, Nat.eqb_refl in Hm; discriminate end.
  - match goal with Hm : mean2 _ _ = Ok _, Hh : hsplit2 _ = _,
                    H1 : fft_single_sweep _ _ = _, H2 : fft_single_sweep _ _ = _ |- _ =>
      destruct (fb_sweeps _ _ _ _ _ _ _ _ Hh Hfit H1 H2) as (w & Hw & Hf & Hb & Hrest);
      apply length_mean2 in Hm as [Hm _] end.
    right. do 2 eexists. split; [reflexivity|split; [exact Hw|split; [congruence|exact Hrest]]].
Qed.
End RowProgress.

Section LoopProgress.
Context {R : Type} `{NumLaws R}.

(** The loop leaves the sweep mode alone. *)
Definition sweeps_kept (s s' : owfft R) : Prop := sweeps s' = sweeps s.

#[export] Instance sweeps_kept_preorder : PreOrder sweeps_kept.
Proof. split; [intros s; reflexivity|intros ? ? ? H1 H2; unfold sweeps_kept in *; congruence]. Qed.

Lemma fft_single_sweep_sweeps Ix : preserves sweeps_kept (fft_single_sweep Ix).
Proof. intros s. apply (fft_single_sweep_frame Ix s). Qed.

#[local] Hint Resolve fft_single_sweep_sweeps : preserve.

Lemma fft_row_sweeps row : preserves sweeps_kept (fft_row row).
Proof. unfold fft_row. preserve. all: apply preserves_modify; intros s; reflexivity. Qed.

(** Between two rows: the axis fits the sweeps of the table, and it comes
    with an aligned stack, or neither exists yet. *)
Definition prog_inv (L : nat) (s : owfft R) : Prop :=
  axis_fits L s /\
  ((wavenumbers s = None /\ spectra s = None) \/
   exists w sp, wavenumbers s = Some w /\ spectra s = Some sp /\ aligned w sp).

Lemma vstack_fits w sp0 (out : list R) :
  length out = length w -> (forall sp, sp0 = Some sp -> aligned w sp) ->
  exists sp, vstack sp0 out = Ok sp /\ aligned w sp.
Proof.
  intros Hlo Hal. destruct sp0 as [sp|].
  - destruct (Hal sp eq_refl) as [Hne Hsp]. exists (sp ++ [out]).
    assert (Hv : vstack (Some sp) out = Ok (sp ++ [out])).
    { cbn. replace (forallb _ sp) with true; [reflexivity|]. symmetry.
      apply forallb_forall. intros r Hr. apply Nat.eqb_eq.
      rewrite List.Forall_forall in Hsp. rewrite (Hsp r Hr). congruence. }
    split; [exact Hv|]. eapply vstack_aligned; [exact Hv|discriminate|].
    intros rows [= <-]. split; assumption.
  - exists [out]. split; [reflexivity|]. split; [discriminate|constructor; [exact Hlo|constructor]].
Qed.
(** The loop over a table whose rows have length [n]: it stops with a
    message, or it completes with a fitting axis and an aligned stack,
    which exist once a row has been transformed. *)
Lemma fft_rows_progress k n rows (s s' : owfft R) r :
  phase_res_limit (cfg s) = false -> apod_func (cfg s) < 4 -> neqb (dx (cfg s)) n0 = false ->
  sweeps s = Some k -> k <= 1 -> Forall (fun row => length row = n) rows -> prog_inv (sweep_length k n) s ->
  fft_rows rows s = (s', r) ->
  (r = Ok false /\ (error1 s' <> None \/ error2 s' <> None)) \/
  (r = Ok true /\ prog_inv (sweep_length k n) s' /\
   (spectra s <> None -> spectra s' <> None) /\ (rows <> [] -> spectra s' <> None)).
Proof.
  revert s. induction rows as [|row rows IH]; intros s Hl Ha Hdx Hk Hk1 Hrows Hi Hr;
    cbn [fft_rows] in Hr.
  - injection Hr as <- <-. right. repeat split; try apply Hi; auto.
  - inversion Hrows as [|? ? Hrow Hrows']; subst.
    destruct (fft_row row s) as [s1 r1] eqn:E1.
    pose proof (fft_row_sweeps row s) as Hk1'. rewrite E1 in Hk1'.
    unfold sweeps_kept in Hk1'. cbn [fst] in Hk1'.
    rewrite (sbind_run _ _ _ _ _ E1) in Hr || (unfold sbind in Hr; rewrite E1 in Hr).
    destruct (fft_row_progress row s s1 r1 k Hl Ha Hdx Hk Hk1 (proj1 Hi) E1)
      as [[-> Herr]|(out & w & -> & Hw & Hlo & Hlw & Hsame & Hsp & Hc)].
    + cbn in Hr. injection Hr as <- <-. left. split; [reflexivity|exact Herr].
    + assert (Hal : forall sp, spectra s1 = Some sp -> aligned w sp).
      { intros sp Hs1. rewrite Hsp in Hs1.
        destruct Hi as [_ [[_ Hn]|(w0 & sp0 & Hw0 & Hsp0 & Hal0)]]; [congruence|].
        rewrite (Hsame w0 Hw0). congruence. }
      destruct (vstack_fits w (spectra s1) out Hlo Hal) as (sp & Hv & Hal').
      cbn [sbind sget slift] in Hr. rewrite Hv in Hr. cbn [smodify] in Hr.
      edestruct (IH (set_spectra (Some sp) s1)) as [Hstop|(Hok & Hi' & Hmono & _)];
        [cbn; rewrite Hc; assumption|cbn; rewrite Hc; assumption|cbn; rewrite Hc; assumption|cbn; congruence|exact Hk1
        |exact Hrows'| |exact Hr|..].
      * split; [intros w' Hw'; cbn [wavenumbers cfg set_spectra] in Hw' |- *; rewrite Hc;
                congruence|].
        right. exists w, sp. cbn. auto.
      * left. exact Hstop.
      * right. split; [exact Hok|split; [exact Hi'|]].
        split; intros _; apply Hmono; cbn; discriminate.
Qed.
End LoopProgress.

Section RunProgress.
Context {R : Type} `{NumLaws R}.

(** A run of [calculateFFT] on a table with a row, whose rows have one
    length, in a known sweep mode, with the phase limit off, a known
    apodization and [dx != 0], raises nothing and either sends a table or shows a
    message. *)
Lemma calculateFFT_progress (s : owfft R) X k :
  data s = Some X -> X <> [] -> rectangular X = true -> sweeps s = Some k -> k <= 1 ->
  phase_res_limit (cfg s) = false -> apod_func (cfg s) < 4 -> neqb (dx (cfg s)) n0 = false ->
  snd (calculateFFT s) = Ok tt /\
  (sent (fst (calculateFFT s)) = spectra_table (fst (calculateFFT s)) :: sent s \/
   error1 (fst (calculateFFT s)) <> None \/ error2 (fst (calculateFFT s)) <> None).
Proof.
  intros Hd Hne Hrect Hk Hk1 Hl Ha Hdx. unfold calculateFFT.
  cbn [sbind smodify sget]. cbn [data set_warning4 set_error2 set_error1 set_spectra set_wavenumbers].
  rewrite Hd.
  set (s0 := set_warning4 false _).
  assert (Hrows : Forall (fun row => length row = length (hd [] X)) X).
  { apply List.Forall_forall. intros row Hrow. unfold rectangular in Hrect.
    rewrite forallb_forall in Hrect. apply Nat.eqb_eq, Hrect, Hrow. }
  destruct (fft_rows X s0) as [s1 r1] eqn:Ef.
  destruct (fft_rows_progress k (length (hd [] X)) X s0 s1 r1) as [[-> Herr]|(-> & Hi & _ & Hsp)];
    try assumption.
  - split; [|left; split]; [intros w Hw; discriminate|reflexivity..].
  - rewrite (sbind_run _ _ _ _ _ Ef). cbn. split; [reflexivity|right; exact Herr].
  - destruct Hi as [_ [[_ Hn]|(w & sp & Hw & Hs & _)]]; [exfalso; exact (Hsp Hne Hn)|].
    pose proof (fft_rows_out X s0) as [_ Hsent]. rewrite Ef in Hsent. cbn in Hsent.
    rewrite (sbind_run _ _ _ _ _ Ef). cbn. rewrite Hw, Hs.
    destruct (limit_output (cfg s1)); cbn.
    all: split; [reflexivity|left; rewrite Hsent; reflexivity].
Qed.
End RunProgress.

Section DataInvariant.
Context {R : Type} `{NumLaws R}.

(** The classification yields single or forward-backward. *)
Lemma sweep_mode_01 (row : list R) m : sweep_mode row = Ok m -> m = 0 \/ m = 1.
Proof.
  unfold sweep_mode. destruct (peak_search row); cbn; [|discriminate].
  destruct (within25 _ _); [intros [= <-]; auto|].
  destruct (hsplit2 row) as [[d0 d1]|]; [|intros [= <-]; auto].
  destruct (peak_search d0), (peak_search (reverse d1)); cbn; try discriminate.
  destruct (within25 _ _); intros [= <-]; auto.
Qed.

(** It raises only on an empty row. *)
Lemma sweep_mode_err_nil (row : list R) e : sweep_mode row = Err e -> row = [].
Proof.
  unfold sweep_mode. destruct (peak_search row) as [zpd|e0] eqn:Ez; cbn.
  - destruct (within25 _ _); [discriminate|].
    destruct (hsplit2 row) as [[d0 d1]|] eqn:Hs; [|discriminate].
    pose proof (length_hsplit2 _ _ _ Hs) as [Hl0 Hl1].
    pose proof (argmax_lt _ _ Ez) as Hz.
    assert (Hd : d0 <> [] /\ reverse d1 <> []).
    { unfold hsplit2 in Hs. destruct (Nat.even (length row)) eqn:Ev; [|discriminate].
      apply Nat.even_spec in Ev as [j Hj].
      split; intros Hn; apply (f_equal length) in Hn; rewrite ?length_reverse in Hn; cbn in Hn;
        assert (length row / 2 = j) by (symmetry; apply (Nat.div_unique _ 2 j 0); lia); lia. }
    destruct (peak_search d0) eqn:E0; [|apply argmax_err in E0; tauto].
    destruct (peak_search (reverse d1)) eqn:E1; [|apply argmax_err in E1; tauto].
    cbn. destruct (within25 _ _); discriminate.
  - intros _. apply argmax_err in Ez. tauto.
Qed.
(** The loaded table has rows of one length, and a non-empty first row has
    been classified. *)
Definition data_inv (s : owfft R) : Prop :=
  forall X, data s = Some X -> rectangular X = true /\
    (forall row rest, X = row :: rest -> row <> [] -> sweeps s = Some 0 \/ sweeps s = Some 1).

(** Only [set_data] changes the table and the sweep mode. *)
Definition ds_kept (s s' : owfft R) : Prop := data s' = data s /\ sweeps s' = sweeps s.

#[export] Instance ds_kept_preorder : PreOrder ds_kept.
Proof.
  split; [intros s; split; reflexivity|intros ? ? ? [? ?] [? ?]; split; congruence].
Qed.

Lemma fft_single_sweep_ds Ix : preserves ds_kept (fft_single_sweep Ix).
Proof. intros s. destruct (fft_single_sweep_frame Ix s) as (_ & ? & _ & _ & ? & _). split; assumption. Qed.

#[local] Hint Resolve fft_single_sweep_ds : preserve.

Lemma fft_rows_ds rows : preserves ds_kept (fft_rows rows).
Proof.
  induction rows; cbn [fft_rows]; unfold fft_row; preserve.
  all: apply preserves_modify; intros s; split; reflexivity.
Qed.

#[local] Hint Resolve fft_rows_ds : preserve.

Lemma commit_button_ds : preserves ds_kept commit_button.
Proof.
  unfold commit_button, commit, calculateFFT. preserve.
  all: apply preserves_modify; intros s; split; reflexivity.
Qed.

Lemma conditional_commit_ds : preserves ds_kept conditional_commit.
Proof.
  unfold conditional_commit, commit, calculateFFT. preserve.
  all: apply preserves_modify; intros s; split; reflexivity.
Qed.

#[local] Hint Resolve commit_button_ds conditional_commit_ds : preserve.

Lemma data_inv_kept (s s' : owfft R) : ds_kept s s' -> data_inv s -> data_inv s'.
Proof. intros [Hd Hs] Hi X HX. rewrite Hd in HX. rewrite Hs. exact (Hi X HX). Qed.

Lemma handle_data_inv ev (s : owfft R) :
  valid_event ev = true -> data_inv s -> data_inv (fst (handle ev s)).
Proof.
  intros Hv Hi. destruct ev as [[X|]| | | | | | | | | | | |].
  2: { intros X HX. destruct (handle _ s) as [s' r] eqn:E. cbn in E.
       injection E as <- _. discriminate HX. }
  2-13: apply (data_inv_kept s); [|exact Hi];
        match goal with |- ds_kept _ (fst (handle ?e _)) => revert s Hi;
          enough (Hp : preserves ds_kept (handle e)) by (intros s _; exact (Hp s)) end;
        unfold handle, set_setting, setting_changed, out_limit_changed, dx_changed,
          autocommit_toggled; preserve;
        apply preserves_modify; intros s0; split; reflexivity.
  cbn in Hv. cbn [handle set_data_handler sbind smodify].
  unfold determine_sweeps. cbn [sbind sget data set_data].
  destruct X as [|row rest].
  - cbn. intros X' HX'. cbn in HX'. injection HX' as <-. split; [exact Hv|discriminate].
  - unfold sbind, sget, slift, smodify, sraise. cbn [data set_data].
    destruct (sweep_mode row) as [m|e] eqn:Em.
    + cbn [sweeps set_sweeps]. destruct (sweeps_text_01 m (sweep_mode_01 _ _ Em)) as [t ->].
      cbv beta iota.
      match goal with |- context [conditional_commit ?x] =>
        pose proof (conditional_commit_ds x) as [Hd Hs];
        destruct (conditional_commit x) as [s' r] eqn:Ec end.
      cbn in Hd, Hs |- *.
      intros X' HX'. rewrite Hd in HX'. injection HX' as <-. split; [exact Hv|].
      intros r0 rest0 [= <- <-] _. rewrite Hs. cbn. apply sweep_mode_01 in Em as [-> | ->]; auto.
    + intros X' HX'. cbn in HX'. injection HX' as <-. split; [exact Hv|].
      intros r0 rest0 [= <- <-] Hne. exfalso. exact (Hne (sweep_mode_err_nil _ _ Em)).
Qed.
End DataInvariant.

Section Responds.
Context {R : Type} `{NumLaws R}.

Lemma reachable_data_inv c (s : owfft R) : reachable c s -> data_inv s.
Proof.
  induction 1 as [|s s' _ IH Hstep]; [intros X HX; discriminate HX|].
  destruct Hstep as [ev s s' r Hv Hh].
  pose proof (handle_data_inv ev s Hv IH) as Hi. rewrite Hh in Hi. exact Hi.
Qed.

(** C10: by rule induction over the steps, "Calculate" always answers: in
    every reachable state holding a table with a non-empty first row, with
    the phase limit off, a known apodization and a spacing [dx != 0] (for
    [dx == 0] see [calculateFFT_zero_dx]), pressing the button raises
    no exception, and the widget either sends a new table, which it also
    holds, or shows [error(1)] or [error(2)]. *)
Theorem reachable_calculate_responds c (s : owfft R) X :
  reachable c s -> data s = Some X -> hd [] X <> [] ->
  phase_res_limit (cfg s) = false -> apod_func (cfg s) < 4 -> neqb (dx (cfg s)) n0 = false ->
  snd (handle EvCalculate s) = Ok tt /\
  (sent (fst (handle EvCalculate s)) = spectra_table (fst (handle EvCalculate s)) :: sent s \/
   error1 (fst (handle EvCalculate s)) <> None \/ error2 (fst (handle EvCalculate s)) <> None).
Proof.
  intros Hr Hd Hhd Hl Ha Hdx.
  destruct X as [|row rest]; [contradiction|].
  destruct (reachable_data_inv c s Hr _ Hd) as [Hrect Hsw].
  assert (Hk : exists k, sweeps s = Some k /\ k <= 1)
    by (destruct (Hsw row rest eq_refl Hhd) as [E|E]; eexists; split; [exact E|lia|exact E|lia]).
  destruct Hk as (k & Hk & Hk1).
  destruct (calculateFFT_progress s (row :: rest) k) as [Hok Hout]; try assumption; [discriminate|].
  assert (E : handle EvCalculate s = (set_dirty false (fst (calculateFFT s)), Ok tt)).
  { unfold handle, commit_button, commit, sbind, sget, smodify. cbv beta iota.
    rewrite Hd. destruct (calculateFFT s) as [s' r]. cbn in Hok. subst r. reflexivity. }
  rewrite E. exact (conj eq_refl Hout).
Qed.
End Responds.

(** ** Witnesses on rationals *)

Section Witnesses.
Import QcNum.

(** Pressing "Calculate" on the loaded forward-backward table answers
    without raising. *)
Lemma reachable_calculate_responds_witness :
  snd (handle EvCalculate (fst (handle (EvSetData (Some fb_table)) (init_owfft boxcar_settings))))
  = Ok tt.
Proof.
  destruct (reachable_calculate_responds boxcar_settings
              (fst (handle (EvSetData (Some fb_table)) (init_owfft boxcar_settings))) fb_table)
    as [Hok _].
  - eapply reach_step; [apply reach_init|].
    apply (step_handle (EvSetData (Some fb_table)) _ _
             (snd (handle (EvSetData (Some fb_table)) (init_owfft boxcar_settings)))).
    + vm_compute. reflexivity.
    + apply surjective_pairing.
  - vm_compute. reflexivity.
  - vm_compute. discriminate.
  - reflexivity.
  - vm_compute. lia.
  - vm_compute. reflexivity.
  - exact Hok.
Defined.
End Witnesses.
