(* ===== verification/Refinement.v ===== *)
(** * The abstract specification of a run of [calculateFFT] and its refinement

    [calculateFFT] (owfft.py 224-295) walks the rows with a shared state:
    the first sweep stores the axis in [self.wavenumbers], later sweeps read
    it, and [np.vstack] grows [self.spectra] row by row.  Abstractly a run
    is a map: the axis is [rfftfreq] of the zero-filled length of the first
    row's sweeps, every row is transformed on its own against that axis
    ([row_spec]: one sweep, or the mean of the two half sweeps), and the
    table is the axis with the list of the rows' spectra, cut to the band
    when [limit_output] is set ([table_spec]).  A sweep against a given
    axis is [sweep_spec], the sweep run on a fresh widget holding only the
    settings and that axis.

    The theorem [calculateFFT_refines]: every table a run sends is the one
    [table_spec] computes.  The proof goes through [fft_row_spec] (a row of
    the loop computes [row_spec] against the axis the run ends with, by the
    [Proper] morphism [fft_single_sweep_view] and [fft_single_sweep_rerun])
    and [fft_rows_spec] (the loop is [rmapM] of [row_spec], the stack the
    concatenation of its results).  Conversely [calculateFFT_complete]: on
    a rectangular table every table [table_spec] computes is sent, through
    [fft_single_sweep_first] (the first sweep of a run behaves as if its
    axis had been stored beforehand: a sweep that returns has [dx != 0]
    and a non-empty zero-filled signal, so [wavenumber_set]'s [rfftfreq]
    does not raise), [fft_row_complete] and [fft_rows_complete]. *)

From Stdlib Require Import ZArith Lia Qcanon.
From stdpp Require Import base list.
From S2P Require Import Prelude Num NumPy PeakSearch ZeroFilling Apodization Sweeps State Phase.
From S2P Require Import SingleSweep Widget Progress.

(** [mapM] in the result monad: the first error, or all the values. *)
Fixpoint rmapM {A B} (f : A -> result B) (l : list A) : result (list B) :=
  match l with
  | [] => Ok []
  | x :: l' => let? y := f x in let? ys := rmapM f l' in Ok (y :: ys)
  end.

Section Spec.
Context {R : Type} `{Num R}.

(** A widget holding only the settings [c] and the axis [w]. *)
Definition fresh (c : settings R) (w : list R) : owfft R :=
  OWFFT c None None None (Some w) None None None false false [] (init_controls c).

(** A sweep of [Ix] against the axis [w]. *)
Definition sweep_spec (c : settings R) (w : list R) (Ix : list R) : result (list R) :=
  snd (fft_single_sweep Ix (fresh c w)).

(** The spectrum of a row in sweep mode [k] against the axis [w]. *)
Definition row_spec (c : settings R) (k : nat) (w : list R) (row : list R) : result (list R) :=
  if k =? 0 then sweep_spec c w row
  else
    let? halves := hsplit2 row in
    let? f := sweep_spec c w (fst halves) in
    let? b := sweep_spec c w (reverse (snd halves)) in
    mean2 f b.

(** The table of a run: the axis of the first row and the spectra of all
    rows, cut to the band when [limit_output] is set. *)
Definition table_spec (c : settings R) (k : nat) (X : list (list R))
    : result (option (list R) * option (list (list R))) :=
  match X with
  | [] => if limit_output c then Err NoneOperand else Ok (None, None)
  | row0 :: _ =>
      let w := rfftfreq (zff_length c (sweep_length k (length row0))) (dx c) in
      let? outs := rmapM (row_spec c k w) X in
      if limit_output c then
        let '(w', sp') := limit_band (out_limit1 c) (out_limit2 c) w outs in
        Ok (Some w', Some sp')
      else Ok (Some w, Some outs)
  end.

(** The stack after appending the spectra [outs] row by row. *)
Definition stack (sp : option (list (list R))) (outs : list (list R)) : option (list (list R)) :=
  match sp, outs with
  | None, [] => None
  | _, _ => Some (default [] sp ++ outs)
  end.
End Spec.

Section RowRefinement.
Context {R : Type} `{NumLaws R}.

(** A sweep run on any widget with the settings [c] and the axis [w] gives
    [sweep_spec c w]. *)
Lemma sweep_spec_view c w Ix (t : owfft R) :
  cfg t = c -> wavenumbers t = Some w -> sweep_spec c w Ix = snd (fft_single_sweep Ix t).
Proof.
  intros Hc Hw. unfold sweep_spec.
  destruct (fft_single_sweep_view Ix (fresh c w) t) as [_ E]; [split; cbn; congruence|].
  exact E.
Qed.

(** A successful sweep computes [sweep_spec] against the axis it leaves. *)
Lemma sweep_spec_run Ix (s s' : owfft R) out w :
  fft_single_sweep Ix s = (s', Ok out) -> wavenumbers s' = Some w -> sweep_spec (cfg s) w Ix = Ok out.
Proof.
  intros Hr Hw. pose proof (fft_single_sweep_keeps _ _ _ _ Hr) as [_ Hc].
  rewrite (sweep_spec_view _ _ _ s' Hc Hw). exact (fft_single_sweep_rerun _ _ _ _ Hr).
Qed.

(** A successful sweep leaves an axis, the one it found if any. *)
Lemma sweep_axis_after Ix (s s' : owfft R) out :
  fft_single_sweep Ix s = (s', Ok out) ->
  exists w, wavenumbers s' = Some w /\ (forall w0, wavenumbers s = Some w0 -> w = w0).
Proof.
  intros Hr. destruct (fft_single_sweep_shape _ _ _ _ Hr) as (w & Hw & Hdef & _).
  exists w. split; [exact Hw|]. intros w0 E. rewrite E in Hdef. exact Hdef.
Qed.

(** A row of the loop that produced a spectrum computed [row_spec] against
    the axis it leaves. *)
Lemma fft_row_spec row (s s1 : owfft R) k out w :
  sweeps s = Some k -> fft_row row s = (s1, Ok (Some out)) -> wavenumbers s1 = Some w ->
  row_spec (cfg s) k w row = Ok out.
Proof.
  intros Hk Hr Hw. unfold fft_row in Hr. sinv Hr; try discriminate.
  all: rewrite Hk in *; match goal with E : Some _ = Some _ |- _ => injection E as <- end.
  - unfold row_spec. cbn. eapply sweep_spec_run; eassumption.
  - lazymatch goal with
    | Hh : hsplit2 _ = Ok _, H1 : fft_single_sweep _ s = (?sa, Ok _),
      H2 : fft_single_sweep _ ?sa = _, Hm : mean2 _ _ = Ok _ |- _ =>
        pose proof (fft_single_sweep_keeps _ _ _ _ H1) as [_ Hc];
        destruct (sweep_axis_after _ _ _ _ H1) as (wa & Hwa & _);
        destruct (sweep_axis_after _ _ _ _ H2) as (wb & Hwb & Hsame);
        rewrite Hw in Hwb; injection Hwb as <-; rewrite (Hsame wa Hwa) in *;
        unfold row_spec; rewrite Hh; cbn [Nat.eqb rbind fst snd];
        rewrite (sweep_spec_run _ _ _ _ _ H1 Hwa); cbn [rbind];
        rewrite <- Hc, (sweep_spec_run _ _ _ _ _ H2 Hw); exact Hm
    end.
Qed.
End RowRefinement.

Section LoopRefinement.
Context {R : Type} `{NumLaws R}.

Definition cfg_kept (s s' : owfft R) : Prop := cfg s' = cfg s.

#[export] Instance cfg_kept_preorder : PreOrder cfg_kept.
Proof. split; [intros s; reflexivity|intros ? ? ? H1 H2; unfold cfg_kept in *; congruence]. Qed.

Lemma fft_single_sweep_cfg Ix : preserves cfg_kept (fft_single_sweep Ix).
Proof. intros s. apply (fft_single_sweep_frame Ix s). Qed.

#[local] Hint Resolve fft_single_sweep_cfg : preserve.

Lemma fft_row_cfg row : preserves cfg_kept (fft_row row).
Proof. unfold fft_row. preserve. all: apply preserves_modify; intros s; reflexivity. Qed.

(** [np.vstack] appends the row. *)
Lemma vstack_app sp0 (out : list R) sp : vstack sp0 out = Ok sp -> sp = default [] sp0 ++ [out].
Proof.
  destruct sp0 as [rows|]; cbn; [|intros [= <-]; reflexivity].
  destruct (forallb _ rows); [intros [= <-]; reflexivity|discriminate].
Qed.

Lemma stack_nil (sp : option (list (list R))) : stack sp [] = sp.
Proof. destruct sp; cbn; [rewrite app_nil_r|]; reflexivity. Qed.

(** The loop refines [rmapM row_spec]: a completed loop computed every row
    against the axis it ends with, and stacked the spectra in order. *)
Lemma fft_rows_spec rows (s s' : owfft R) k w :
  sweeps s = Some k -> fft_rows rows s = (s', Ok true) -> wavenumbers s' = Some w ->
  (forall w0, wavenumbers s = Some w0 -> w = w0) /\
  exists outs, rmapM (row_spec (cfg s) k w) rows = Ok outs /\ spectra s' = stack (spectra s) outs.
Proof.
  revert s. induction rows as [|row rows IH]; intros s Hk Hr Hw; cbn [fft_rows] in Hr.
  - injection Hr as <-. split; [congruence|]. exists []. split; [reflexivity|].
    symmetry. apply stack_nil.
  - sinv Hr; try discriminate.
    match goal with
    | Hrow : fft_row _ _ = (?s1, Ok (Some ?out)), Hv : vstack _ _ = Ok ?sp |- _ =>
        pose proof Hrow as Hrow0;
        apply fft_row_shape in Hrow as [Hsp (w1 & Hw1 & Hsame1 & _)];
        pose proof (fft_row_cfg row s) as Hc; rewrite Hrow0 in Hc; cbn in Hc;
        pose proof (fft_row_sweeps row s) as Hs1; rewrite Hrow0 in Hs1; cbn in Hs1;
        apply vstack_app in Hv; rename Hv into Hvs
    end.
    edestruct IH as [Hsame2 (outs & Houts & Hsp')]; [|exact Hr|exact Hw|].
    + cbn. unfold sweeps_kept in Hs1. congruence.
    + cbn in Hsame2, Houts, Hsp'. specialize (Hsame2 w1 Hw1). subst w1.
      split; [exact Hsame1|]. eexists. split.
      * cbn. unfold cfg_kept in Hc. rewrite (fft_row_spec _ _ _ _ _ _ Hk Hrow0 Hw1).
        rewrite Hc in Houts. cbn. rewrite Houts. reflexivity.
      * rewrite Hsp', Hvs, Hsp. cbn. rewrite <- app_assoc. destruct (spectra s); reflexivity.
Qed.
End LoopRefinement.

Section AxisRefinement.
Context {R : Type} `{NumLaws R}.

(** The first row of a run stores [rfftfreq] of the zero-filled length of
    its sweeps. *)
Lemma fft_row_first_axis row (s s1 : owfft R) k out :
  sweeps s = Some k -> wavenumbers s = None -> fft_row row s = (s1, Ok (Some out)) ->
  wavenumbers s1 = Some (rfftfreq (zff_length (cfg s) (sweep_length k (length row))) (dx (cfg s))).
Proof.
  intros Hk Hw Hr. unfold fft_row in Hr. sinv Hr; try discriminate.
  all: rewrite Hk in *; match goal with E : Some _ = Some _ |- _ => injection E as <- end.
  - match goal with H1 : fft_single_sweep _ _ = _ |- _ =>
      destruct (fft_single_sweep_shape _ _ _ _ H1) as (w & Hw1 & Hdef & _) end.
    rewrite Hw in Hdef. cbn in Hdef. subst w. exact Hw1.
  - lazymatch goal with
    | Hh : hsplit2 _ = Ok _, H1 : fft_single_sweep _ ?s0 = (?sa, Ok _),
      H2 : fft_single_sweep _ ?sa = _ |- _ =>
        destruct (fft_single_sweep_shape _ _ _ _ H1) as (wa & Hwa & Hdef & _);
        destruct (sweep_axis_after _ _ _ _ H2) as (wb & Hwb & Hsame);
        apply length_hsplit2 in Hh as [Hl _]
    end.
    rewrite Hw in Hdef. cbn in Hdef. subst wa. rewrite (Hsame _ Hwa) in Hwb.
    rewrite Hwb. unfold sweep_length, zff_length. cbn. rewrite Hl. reflexivity.
Qed.

(** A completed loop keeps an axis already set. *)
Lemma fft_rows_keeps_axis rows (s s' : owfft R) w :
  fft_rows rows s = (s', Ok true) -> wavenumbers s = Some w -> wavenumbers s' = Some w.
Proof.
  revert s. induction rows as [|row rows IH]; intros s Hr Hw; cbn [fft_rows] in Hr.
  - injection Hr as <-. exact Hw.
  - sinv Hr; try discriminate. apply (IH _ Hr). cbn.
    match goal with Hrow : fft_row _ _ = (_, Ok (Some _)) |- _ =>
      apply fft_row_shape in Hrow as [_ (w1 & Hw1 & Hsame & _)] end.
    rewrite Hw1, (Hsame w Hw). reflexivity.
Qed.
Lemma fft_rows_first_axis row rows (s s' : owfft R) k :
  sweeps s = Some k -> wavenumbers s = None -> fft_rows (row :: rows) s = (s', Ok true) ->
  wavenumbers s' = Some (rfftfreq (zff_length (cfg s) (sweep_length k (length row))) (dx (cfg s))).
Proof.
  intros Hk Hw Hr. cbn [fft_rows] in Hr. sinv Hr; try discriminate.
  apply (fft_rows_keeps_axis _ _ _ _ Hr). cbn.
  match goal with Hrow : fft_row _ _ = (_, Ok (Some _)) |- _ =>
    exact (fft_row_first_axis _ _ _ _ _ Hk Hw Hrow) end.
Qed.

Lemma length_rmapM {A B} (f : A -> result B) l ys : rmapM f l = Ok ys -> length ys = length l.
Proof.
  revert ys. induction l as [|x l IH]; intros ys; cbn; [intros [= <-]; reflexivity|].
  destruct (f x); cbn; [|discriminate]. destruct (rmapM f l) eqn:E; cbn; [|discriminate].
  intros [= <-]. cbn. f_equal. apply IH. reflexivity.
Qed.
End AxisRefinement.

Section RunRefinement.
Context {R : Type} `{NumLaws R}.

Lemma fft_rows_cfg rows : preserves cfg_kept (fft_rows rows).
Proof.
  induction rows; cbn [fft_rows]; pose proof fft_row_cfg; preserve.
  all: apply preserves_modify; intros s; reflexivity.
Qed.

(** A completed loop over the rows of a table, from the reset state of a
    run: the axis of the first row and the [rmapM] of [row_spec]. *)
Lemma run_rows_spec row rows (s0 s1 : owfft R) k :
  sweeps s0 = Some k -> wavenumbers s0 = None -> spectra s0 = None ->
  fft_rows (row :: rows) s0 = (s1, Ok true) ->
  let w := rfftfreq (zff_length (cfg s0) (sweep_length k (length row))) (dx (cfg s0)) in
  exists outs, wavenumbers s1 = Some w /\ spectra s1 = Some outs /\
    rmapM (row_spec (cfg s0) k w) (row :: rows) = Ok outs /\ cfg s1 = cfg s0.
Proof.
  intros Hk Hw Hsp Hr w.
  pose proof (fft_rows_first_axis _ _ _ _ _ Hk Hw Hr) as Hw1.
  destruct (fft_rows_spec _ _ _ _ _ Hk Hr Hw1) as [_ (outs & Hout & Hsp1)].
  pose proof (fft_rows_cfg (row :: rows) s0) as Hc. rewrite Hr in Hc.
  exists outs. split; [exact Hw1|split; [|split; [exact Hout|exact Hc]]].
  rewrite Hsp1, Hsp. apply length_rmapM in Hout. destruct outs; [discriminate|reflexivity].
Qed.

(** C11: refinement of the abstract run: every table a run of
    [calculateFFT] sends is the one [table_spec] computes from the
    settings, the sweep mode and the rows alone: the axis [rfftfreq] of the
    first row's zero-filled sweeps, and the spectrum of every row computed
    on its own against that axis, in order, cut to the band when
    [limit_output] is set.  The state the loop threads (the axis stored
    once, the stack grown by [np.vstack]) is invisible in the result. *)
Theorem calculateFFT_refines (s s' : owfft R) X k t :
  data s = Some X -> sweeps s = Some k -> k <= 1 ->
  calculateFFT s = (s', Ok tt) -> sent s' = t :: sent s ->
  exists wo so, table_spec (cfg s) k X = Ok (wo, so) /\ t = Some (build_spec_table wo so).
Proof.
  intros Hd Hk Hk1 Hr Hsent. unfold calculateFFT in Hr. srun Hr; cbn in *; try congruence.
  all: match goal with Hf : fft_rows ?l ?x = (?s1, _) |- _ =>
         pose proof (fft_rows_out l x) as [_ Hs1]; rewrite Hf in Hs1; cbn in Hs1 end.
  all: try (exfalso; rewrite Hs1 in Hsent; apply (f_equal length) in Hsent; cbn in Hsent; lia).
  all: rewrite Hd in *; match goal with E : Some _ = Some _ |- _ => injection E as <- end.
  all: injection Hsent as <- _.
  all: destruct X as [|row rows];
    [cbn [fft_rows] in *; match goal with Hf : sret _ _ = _ |- _ => injection Hf as <- end;
     cbn in *; try congruence|].
  - match goal with Hf : fft_rows _ ?x = _ |- _ =>
      destruct (run_rows_spec _ _ x _ _ Hk eq_refl eq_refl Hf) as (outs & Hw & Hsp & Hout & Hc) end.
    cbn [cfg set_warning4 set_error2 set_error1 set_spectra set_wavenumbers] in Hc, Hout. rewrite Hc in *. rewrite Hw in *. rewrite Hsp in *.
    repeat match goal with E : Some _ = Some _ |- _ => injection E as <- end.
    do 2 eexists. split; [|reflexivity]. unfold table_spec. rewrite Hout. cbn [rbind].
    match goal with E : limit_output _ = _ |- _ => rewrite E end.
    match goal with E : limit_band _ _ _ _ = _ |- _ => rewrite E end. reflexivity.
  - exists None, None. cbn. match goal with E : limit_output _ = _ |- _ => rewrite E end. auto.
  - match goal with Hf : fft_rows _ ?x = _ |- _ =>
      destruct (run_rows_spec _ _ x _ _ Hk eq_refl eq_refl Hf) as (outs & Hw & Hsp & Hout & Hc) end.
    cbn [cfg set_warning4 set_error2 set_error1 set_spectra set_wavenumbers] in Hc, Hout. rewrite Hc in *. rewrite Hw, Hsp.
    do 2 eexists. split; [|reflexivity]. unfold table_spec. rewrite Hout. cbn [rbind].
    match goal with E : limit_output _ = _ |- _ => rewrite E end. reflexivity.
Qed.
End RunRefinement.

(** ** Completeness: a run sends the table of the specification *)

Section FirstSweep.
Context {R : Type} `{NumLaws R}.

(** The first sweep of a run, which finds [self.wavenumbers is None],
    behaves as the same sweep run with the axis [rfftfreq(N_zff, dx)]
    already stored: [wavenumber_set] stores exactly that axis before
    anything reads it. *)
Lemma fft_single_sweep_first Ix (s s' : owfft R) out :
  wavenumbers s = None ->
  fft_single_sweep Ix
    (set_wavenumbers (Some (rfftfreq (zff_length (cfg s) (length Ix)) (dx (cfg s)))) s) = (s', Ok out) ->
  fft_single_sweep Ix s = (s', Ok out).
Proof.
  intros Hw Hr. pose proof Hr as Hr0. unfold fft_single_sweep in Hr.
  apply sbind_ok_inv in Hr as (? & zpd & Hz & Hr). injection Hz as <- Hz.
  apply sbind_ok_inv in Hr as (? & ? & Hg & Hr). injection Hg as <- <-.
  apply sbind_ok_inv in Hr as (? & Ix_apod & Ha & Hr). injection Ha as <- Ha.
  apply sbind_ok_inv in Hr as (? & new_zpd & Hn & Hr). injection Hn as <- Hn.
  apply sbind_ok_inv in Hr as (? & ? & Hi & Hr).
  destruct (zpd =? new_zpd) eqn:E; [injection Hi as <- _|discriminate].
  apply sbind_ok_inv in Hr as (s3 & [] & Hset & Hrest).
  rewrite (proj1 (wavenumber_set_once _ _)) in Hset. cbn in Hset. injection Hset as <-.
  cbn [cfg set_wavenumbers] in Ha.
  assert (Hdx : neqb (dx (cfg s)) n0 = false).
  { pose proof Hrest as Hp. apply sbind_ok_inv in Hp as (? & ? & Hp & _).
    exact (compute_phase_dx _ _ _ _ Hp). }
  assert (HN : length (zero_filling (zff (cfg s)) Ix_apod) = zff_length (cfg s) (length Ix)).
  { rewrite length_zero_filling. unfold zff_length.
    rewrite (length_apodization _ _ _ _ ltac:(eapply argmax_lt; exact Hz) Ha). reflexivity. }
  unfold fft_single_sweep.
  sstep ltac:(rewrite Hz; reflexivity). sstep ltac:(reflexivity).
  sstep ltac:(rewrite Ha; reflexivity). sstep ltac:(rewrite Hn; reflexivity).
  rewrite E. sstep ltac:(reflexivity).
  sstep ltac:(apply wavenumber_set_none;
    [exact Hw|apply argmax_lt in Hn; lia|exact Hdx]).
  rewrite HN. exact Hrest.
Qed.

(** The axis a sweep of [L] samples runs against: already stored, or still
    [None] and then the one [wavenumber_set] will store. *)
Definition axis_for (c : settings R) (w : list R) (L : nat) (t : owfft R) : Prop :=
  wavenumbers t = Some w \/ (wavenumbers t = None /\ w = rfftfreq (zff_length c L) (dx c)).

(** A sweep whose specification succeeds runs to the same spectrum, changes
    only the axis, and leaves the axis [w]. *)
Lemma sweep_spec_complete c w Ix (t : owfft R) out :
  cfg t = c -> axis_for c w (length Ix) t -> sweep_spec c w Ix = Ok out ->
  exists t', fft_single_sweep Ix t = (t', Ok out) /\ sweep_frame t t' /\ wavenumbers t' = Some w.
Proof.
  intros Hc Hax Hs.
  assert (Hset : forall u, cfg u = c -> wavenumbers u = Some w ->
            exists u', fft_single_sweep Ix u = (u', Ok out) /\ sweep_frame u u' /\ wavenumbers u' = Some w).
  { intros u Hcu Hwu. destruct (fft_single_sweep Ix u) as [u' r] eqn:E.
    rewrite (sweep_spec_view c w Ix u Hcu Hwu), E in Hs. cbn in Hs. subst r.
    exists u'. split; [reflexivity|split].
    - pose proof (fft_single_sweep_frame Ix u) as Hf. rewrite E in Hf. exact Hf.
    - destruct (fft_single_sweep_shape _ _ _ _ E) as (w' & Hw' & Hd & _).
      rewrite Hwu in Hd. cbn in Hd. congruence. }
  destruct Hax as [Hw|[Hw ->]]; [exact (Hset t Hc Hw)|].
  destruct (Hset (set_wavenumbers (Some (rfftfreq (zff_length c (length Ix)) (dx c))) t))
    as (t' & Hr & Hf & Hw'); [exact Hc|reflexivity|].
  subst c. exists t'. split; [exact (fft_single_sweep_first _ _ _ _ Hw Hr)|split; [|exact Hw']].
  etransitivity; [|exact Hf]. repeat split.
Qed.

(** A spectrum of the specification has one value per point of the axis
    computed from the length of the row. *)
Lemma sweep_spec_length c Ix (out : list R) :
  sweep_spec c (rfftfreq (zff_length c (length Ix)) (dx c)) Ix = Ok out ->
  length out = zff_length c (length Ix) / 2 + 1.
Proof.
  unfold sweep_spec. destruct (fft_single_sweep _ _) as [t' r] eqn:E. cbn [snd]. intros ->.
  destruct (fft_single_sweep_shape _ _ _ _ E) as (w & _ & Hd & Hl).
  cbn [fresh wavenumbers cfg default from_option id] in Hd, Hl. subst w.
  rewrite length_rfftfreq in Hl. apply Hl. reflexivity.
Qed.

Lemma row_spec_length c k row (out : list R) :
  k <= 1 -> row_spec c k (rfftfreq (zff_length c (sweep_length k (length row))) (dx c)) row = Ok out ->
  length out = zff_length c (sweep_length k (length row)) / 2 + 1.
Proof.
  intros Hk. unfold row_spec, sweep_length.
  destruct k as [|[|k]]; cbn [Nat.eqb]; [apply sweep_spec_length|intros Hr|lia].
  destruct (hsplit2 row) as [[f b]|] eqn:Eh; cbn [rbind fst snd] in Hr; [|discriminate].
  apply length_hsplit2 in Eh as [Hf _]. rewrite <- Hf in Hr |- *.
  destruct (sweep_spec c _ f) as [fo|] eqn:Ef; cbn [rbind] in Hr; [|discriminate].
  destruct (sweep_spec c _ (reverse b)); cbn [rbind] in Hr; [|discriminate].
  apply length_mean2 in Hr as [-> _]. exact (sweep_spec_length _ _ _ Ef).
Qed.

(** A row whose specification succeeds is transformed to the same
    spectrum; only the axis changes, to [w]. *)
Lemma fft_row_complete row (s : owfft R) k w out :
  sweeps s = Some k -> k <= 1 -> axis_for (cfg s) w (sweep_length k (length row)) s ->
  row_spec (cfg s) k w row = Ok out ->
  exists s1, fft_row row s = (s1, Ok (Some out)) /\ sweep_frame s s1 /\ wavenumbers s1 = Some w.
Proof.
  intros Hk Hk1 Hax Hs. unfold fft_row. sstep ltac:(reflexivity). rewrite Hk.
  destruct k as [|[|k]]; [|cbn [Nat.eqb row_spec] in Hs|lia].
  - destruct (sweep_spec_complete (cfg s) w row s out eq_refl Hax Hs) as (t & Hr & Hf & Hw).
    exists t. split; [|split; assumption]. apply scatch_run. rewrite (sbind_run _ _ _ _ _ Hr).
    reflexivity.
  - destruct (hsplit2 row) as [[f b]|] eqn:Eh; cbn [rbind fst snd] in Hs; [|discriminate].
    destruct (sweep_spec (cfg s) w f) as [fo|] eqn:Ef; cbn [rbind] in Hs; [|discriminate].
    destruct (sweep_spec (cfg s) w (reverse b)) as [bo|] eqn:Eb; cbn [rbind] in Hs; [|discriminate].
    pose proof Eh as Hl. apply length_hsplit2 in Hl as [Hlf _].
    destruct (sweep_spec_complete (cfg s) w f s fo eq_refl) as (t1 & Hr1 & Hf1 & Hw1);
      [rewrite Hlf; exact Hax|exact Ef|].
    destruct (sweep_spec_complete (cfg s) w (reverse b) t1 bo) as (t2 & Hr2 & Hf2 & Hw2);
      [apply Hf1|left; exact Hw1|exact Eb|].
    exists t2. split; [|split; [etransitivity; eassumption|exact Hw2]].
    rewrite (sbind_run _ _ s t2 (Some (fo, bo))).
    + unfold slift, sbind. rewrite Hs. reflexivity.
    + apply scatch_run. rewrite (sbind_run _ _ _ _ _ Hr1), (sbind_run _ _ _ _ _ Hr2). reflexivity.
Qed.

Lemma rmapM_cons_inv {A B} (f : A -> result B) x l ys :
  rmapM f (x :: l) = Ok ys -> exists y ys', f x = Ok y /\ rmapM f l = Ok ys' /\ ys = y :: ys'.
Proof.
  cbn. destruct (f x) as [y|]; cbn; [|discriminate].
  destruct (rmapM f l) as [ys'|]; cbn; [|discriminate]. intros [= <-]. eauto.
Qed.

(** The loop over rows whose specifications all succeed, from a widget
    whose axis is [w] or still unset: it completes, stacks the spectra in
    order and leaves the axis [w]; the settings and the output are kept. *)
Lemma fft_rows_complete rows (s : owfft R) k w outs :
  sweeps s = Some k -> k <= 1 ->
  Forall (fun row => axis_for (cfg s) w (sweep_length k (length row)) s) rows ->
  Forall (fun o => length o = length w) outs -> (forall sp, spectra s = Some sp -> aligned w sp) ->
  rmapM (row_spec (cfg s) k w) rows = Ok outs ->
  exists s', fft_rows rows s = (s', Ok true) /\ cfg s' = cfg s /\ sent s' = sent s /\
    spectra s' = stack (spectra s) outs /\
    wavenumbers s' = match rows with [] => wavenumbers s | _ => Some w end.
Proof.
  revert s outs. induction rows as [|row rows IH]; intros s outs Hk Hk1 Hax Hlen Hal Hm.
  - injection Hm as <-. exists s. rewrite stack_nil. auto.
  - apply rmapM_cons_inv in Hm as (o & outs' & Ho & Hm & ->).
    apply Forall_cons in Hax as [Hax0 Hax]. apply Forall_cons in Hlen as [Hlo Hlen].
    destruct (fft_row_complete row s k w o Hk Hk1 Hax0 Ho) as (s1 & Hr & Hf & Hw1).
    destruct Hf as (Hc1 & _ & Hsp1 & _ & Hk' & _ & _ & Hsent1).
    destruct (vstack_fits w (spectra s1) o Hlo) as (sp & Hv & Halsp); [rewrite Hsp1; exact Hal|].
    destruct (IH (set_spectra (Some sp) s1) outs') as (s' & Hr' & Hc' & Hsent' & Hsp' & Hw');
      [cbn; congruence|exact Hk1| | |intros sp' [= <-]; exact Halsp|cbn; rewrite Hc1; exact Hm|].
    + apply List.Forall_forall. intros r _. left. exact Hw1.
    + exact Hlen.
    + exists s'. cbn [fft_rows]. rewrite (sbind_run _ _ _ _ _ Hr). cbv beta iota.
      sstep ltac:(reflexivity). sstep ltac:(rewrite Hv; reflexivity). sstep ltac:(reflexivity).
      split; [exact Hr'|]. cbn in Hc', Hsent', Hsp'. rewrite Hc', Hsent', Hsp'.
      split; [exact Hc1|split; [exact Hsent1|split]].
      * apply vstack_app in Hv. rewrite Hv, Hsp1. destruct (spectra s), outs'; cbn;
          rewrite ?app_nil_r, <- ?app_assoc; reflexivity.
      * destruct rows; cbn in Hw' |- *; [rewrite Hw'; exact Hw1|exact Hw'].
Qed.
End FirstSweep.

Section RunCompleteness.
Context {R : Type} `{NumLaws R}.

Lemma rmapM_Forall {A B} (f : A -> result B) (P : B -> Prop) l ys :
  Forall (fun x => forall y, f x = Ok y -> P y) l -> rmapM f l = Ok ys -> Forall P ys.
Proof.
  revert ys. induction l as [|x l IH]; intros ys Hl Hm; [injection Hm as <-; constructor|].
  apply rmapM_cons_inv in Hm as (y & ys' & Hy & Hm & ->). apply Forall_cons in Hl as [Hx Hl].
  constructor; [exact (Hx y Hy)|exact (IH ys' Hl Hm)].
Qed.

(** C12: completeness of the run with respect to the abstract one: on a
    rectangular table (every row of the same length, as an Orange table's
    [X] is), whenever [table_spec] computes a table, a run of
    [calculateFFT] returns normally and sends exactly that table.  With
    [calculateFFT_refines] the run and [table_spec] agree on such tables:
    the run sends a table if and only if the specification computes it.
    A [table_spec] that succeeds has run [compute_phase], whose
    [np.fft.rfftfreq] raises for [dx == 0]: no table is specified, and none
    sent, for [dx == 0] ([calculateFFT_zero_dx]). *)
Theorem calculateFFT_complete (s : owfft R) X k n wo so :
  data s = Some X -> sweeps s = Some k -> k <= 1 -> Forall (fun row => length row = n) X ->
  table_spec (cfg s) k X = Ok (wo, so) ->
  exists s', calculateFFT s = (s', Ok tt) /\ sent s' = Some (build_spec_table wo so) :: sent s.
Proof.
  intros Hd Hk Hk1 Hn Hspec. unfold calculateFFT.
  do 6 sstep ltac:(reflexivity).
  cbn [data set_warning4 set_error2 set_error1 set_spectra set_wavenumbers]. rewrite Hd.
  set (s0 := set_warning4 false _).
  destruct X as [|row rows].
  - cbn [table_spec] in Hspec. destruct (limit_output (cfg s)) eqn:El; [discriminate|].
    injection Hspec as <- <-. eexists. split.
    + cbn [fft_rows]. rewrite sbind_ret. cbv beta iota. sstep ltac:(reflexivity).
      cbn [cfg s0 set_warning4 set_error2 set_error1 set_spectra set_wavenumbers]. rewrite El.
      do 3 sstep ltac:(reflexivity). reflexivity.
    + reflexivity.
  - cbn [table_spec] in Hspec.
    set (w := rfftfreq (zff_length (cfg s) (sweep_length k (length row))) (dx (cfg s))) in Hspec.
    destruct (rmapM (row_spec (cfg s) k w) (row :: rows)) as [outs|] eqn:Hout; cbn [rbind] in Hspec;
      [|discriminate].
    apply Forall_cons in Hn as Hn'. destruct Hn' as [Hrow _].
    destruct (fft_rows_complete (row :: rows) s0 k w outs) as (s1 & Hr & Hc1 & Hsent1 & Hsp1 & Hw1).
    + exact Hk.
    + exact Hk1.
    + apply List.Forall_forall. intros r Hr. right. split; [reflexivity|].
      rewrite List.Forall_forall in Hn. subst w. cbn. rewrite Hrow, (Hn r Hr). reflexivity.
    + refine (rmapM_Forall _ _ _ _ _ Hout). apply List.Forall_forall. intros r Hr o Ho.
      rewrite List.Forall_forall in Hn. subst w. rewrite length_rfftfreq.
      rewrite Hrow, <- (Hn r Hr) in Ho |- *. exact (row_spec_length _ _ _ _ Hk1 Ho).
    + discriminate.
    + exact Hout.
    + cbn [s0 cfg set_warning4 set_error2 set_error1 set_spectra set_wavenumbers] in Hc1, Hsent1, Hsp1, Hw1.
      assert (Hsp : spectra s1 = Some outs).
      { apply length_rmapM in Hout. rewrite Hsp1. destruct outs; [discriminate|reflexivity]. }
      destruct (limit_output (cfg s)) eqn:El.
      * destruct (limit_band (out_limit1 (cfg s)) (out_limit2 (cfg s)) w outs) as [w' sp'] eqn:Eb.
        injection Hspec as <- <-. eexists. split.
        -- rewrite (sbind_run _ _ _ _ _ Hr). cbv beta iota. sstep ltac:(reflexivity).
           rewrite Hc1, El, Hw1, Hsp. fold w. rewrite Eb. cbv beta iota.
           do 3 sstep ltac:(reflexivity). reflexivity.
        -- cbn. rewrite Hsent1. reflexivity.
      * injection Hspec as <- <-. eexists. split.
        -- rewrite (sbind_run _ _ _ _ _ Hr). cbv beta iota. sstep ltac:(reflexivity).
           rewrite Hc1, El. do 3 sstep ltac:(reflexivity). reflexivity.
        -- cbn. rewrite Hsent1, Hw1, Hsp. reflexivity.
Qed.
End RunCompleteness.

(** ** Witnesses on rationals *)

Section Witnesses.
Import QcNum.
Local Abbreviation q := QcNum.of_Z.

(** The table of two delta interferograms loaded into a widget with the
    Boxcar settings: single sweeps. *)
Definition delta_loaded : owfft Qc :=
  fst (handle (EvSetData (Some delta_table)) (init_owfft boxcar_settings)).

(** "Calculate" on it sends the table [table_spec] computes. *)
Lemma calculateFFT_refines_witness :
  exists wo so, table_spec (cfg delta_loaded) 0 delta_table = Ok (wo, so) /\
    hd None (sent (fst (calculateFFT delta_loaded))) = Some (build_spec_table wo so).
Proof.
  destruct (calculateFFT_refines delta_loaded (fst (calculateFFT delta_loaded)) delta_table 0
              (hd None (sent (fst (calculateFFT delta_loaded))))) as (wo & so & Hspec & Ht).
  - vm_compute. reflexivity.
  - vm_compute. reflexivity.
  - lia.
  - rewrite (surjective_pairing (calculateFFT delta_loaded)) at 1. f_equal; vm_compute; reflexivity.
  - vm_compute. reflexivity.
  - exists wo, so. split; [exact Hspec|exact Ht].
Defined.

(** On the same table the specification computes the 5-point axis and the
    flat spectrum 5 of each delta, and "Calculate" sends it. *)
Lemma calculateFFT_complete_witness :
  exists s', calculateFFT delta_loaded = (s', Ok tt) /\
    sent s' = Some (build_spec_table (Some (rfftfreq 8 (q 1)))
                      (Some [replicate 5 (q 5); replicate 5 (q 5)])) :: sent delta_loaded.
Proof.
  apply (calculateFFT_complete delta_loaded delta_table 0 6).
  - vm_compute. reflexivity.
  - vm_compute. reflexivity.
  - lia.
  - repeat constructor.
  - vm_compute. reflexivity.
Defined.
End Witnesses.
