(* ===== verification/Controls.v ===== *)
(** * Controls: the enabled state of the widget's controls, the Info box
    and the steps a user can take (owfft.py 70-71, 79-178, 188-201, 215)

    The code switches Qt controls on and off: [__init__] creates the [dx]
    line edit disabled when "HeNe laser" is checked (line 83) and disables
    the "Input Data" and "FFT Options" boxes until data arrives (177-178);
    [set_data] enables both boxes once the sweeps are determined (191-192)
    and disables them on [None] (197-198); [dx_changed] disables the [dx]
    edit exactly when "HeNe laser" is checked (215).  Orange's
    [gui.checkBox(..., disables=...)] keeps the phase resolution edit
    enabled only while "Limit phase resolution" is checked (line 130) and
    the two output limits only while "Limit spectral region" is (160), and
    a control inside a disabled box is disabled with it.  The input signal,
    the "Output" box (the limits' box, the "Calculate" button and the
    "autocommit" box) are never disabled.

    [ui_enabled] is the set of events a user can trigger in a state;
    [ui_step] is the widget's [step] restricted to them, [ui_reachable] the
    states a user reaches.  The theorems: the enabled state of the controls
    follows the settings and the input in every reachable state
    ([reachable_controls]), and, because the [dx] edit is disabled while
    "HeNe laser" is checked, the spacing used by every transform a user can
    start with the box checked is [1 / laser_wavenumber / 2]
    ([ui_reachable_hene_dx]).  [set_data] also writes the Info box: the
    row count with the sweep mode and the row length of a table, or "No
    data on input."; the boxes are enabled exactly when it describes a
    table ([reachable_info_box]), and the texts are the formatted counts
    ([set_data_info]). *)

From Stdlib Require Import ZArith QArith Lia Qcanon Ascii.
From stdpp Require Import base list strings pretty.
From S2P Require Import Prelude Num NumPy PeakSearch Sweeps State Phase SingleSweep Widget Progress.

Section Guard.
Context {R : Type} `{Num R}.

(** Whether the control that delivers [ev] accepts input in [s]. *)
Definition ui_enabled (s : owfft R) (ev : event (R := R)) : bool :=
  let boxes := boxes_enabled (ui s) in
  match ev with
  | EvSetData _ => true
  | EvDx _ => boxes && dx_edit_enabled (ui s)
  | EvHeNe _ | EvApod _ | EvZff _ | EvPhaseCorr _ | EvPhaseLimit _ => boxes
  | EvPhaseRes _ => boxes && phase_res_limit (cfg s)
  | EvLimitOutput _ => true
  | EvOutLimit1 _ | EvOutLimit2 _ => limit_output (cfg s)
  | EvCalculate | EvAutoCommit _ => true
  end.

(** A step a user can take: an enabled control fires its handler. *)
Inductive ui_step : owfft R -> owfft R -> Prop :=
  | ui_step_handle ev s s' r :
      valid_event ev = true -> ui_enabled s ev = true -> handle ev s = (s', r) -> ui_step s s'.

Inductive ui_reachable (c : settings R) : owfft R -> Prop :=
  | ui_reach_init : ui_reachable c (init_owfft c)
  | ui_reach_step s s' : ui_reachable c s -> ui_step s s' -> ui_reachable c s'.

(** What the controls show: the [dx] edit is enabled exactly when
    "HeNe laser" is unchecked, the boxes only when there is data, and
    exactly when the Info box describes a table. *)
Definition controls_inv (s : owfft R) : Prop :=
  dx_edit_enabled (ui s) = negb (dx_HeNe (cfg s)) /\ (boxes_enabled (ui s) = true -> data s <> None) /\
  (boxes_enabled (ui s) = true <-> infoa (ui s) <> no_data_text).

(** With "HeNe laser" checked, [dx] is the HeNe spacing. *)
Definition hene_dx (s : owfft R) : Prop :=
  dx_HeNe (cfg s) = true -> dx (cfg s) = nlit 1.0 /. laser_wavenumber (cfg s) /. nlit 2.0.

(** What a run of [commit] or a settings callback leaves alone. *)
Definition ctl_kept (s s' : owfft R) : Prop :=
  ui s' = ui s /\ data s' = data s /\ dx_HeNe (cfg s') = dx_HeNe (cfg s) /\
  dx (cfg s') = dx (cfg s) /\ laser_wavenumber (cfg s') = laser_wavenumber (cfg s).
End Guard.

Section Frame.
Context {R : Type} `{Num R}.

#[export] Instance ctl_kept_preorder : PreOrder (@ctl_kept R).
Proof.
  split; [intros s; repeat split|].
  intros s1 s2 s3 (? & ? & ? & ? & ?) (? & ? & ? & ? & ?); repeat split; congruence.
Qed.

Ltac ctl_modify := apply preserves_modify; intros ?; repeat split.

Lemma compute_phase_ctl Ix : preserves (@ctl_kept R) (compute_phase Ix).
Proof. unfold compute_phase, phase_length. preserve. all: ctl_modify. Qed.

#[local] Hint Resolve compute_phase_ctl : preserve.

Lemma fft_single_sweep_ctl Ix : preserves (@ctl_kept R) (fft_single_sweep Ix).
Proof. unfold fft_single_sweep, wavenumber_set. preserve. all: ctl_modify. Qed.

#[local] Hint Resolve fft_single_sweep_ctl : preserve.

Lemma fft_rows_ctl rows : preserves (@ctl_kept R) (fft_rows rows).
Proof. induction rows; cbn [fft_rows]; unfold fft_row; preserve. all: ctl_modify. Qed.

#[local] Hint Resolve fft_rows_ctl : preserve.

Lemma conditional_commit_ctl : preserves (@ctl_kept R) conditional_commit.
Proof. unfold conditional_commit, commit, calculateFFT. preserve. all: ctl_modify. Qed.

Lemma commit_button_ctl : preserves (@ctl_kept R) commit_button.
Proof. unfold commit_button, commit, calculateFFT. preserve. all: ctl_modify. Qed.

Lemma determine_sweeps_ctl : preserves (@ctl_kept R) determine_sweeps.
Proof. unfold determine_sweeps. preserve. all: ctl_modify. Qed.

#[local] Hint Resolve conditional_commit_ctl commit_button_ctl determine_sweeps_ctl : preserve.

(** [out_limit_changed] writes back the limits it has just read. *)
Lemma out_limit_changed_ctl : preserves (@ctl_kept R) out_limit_changed.
Proof.
  intros s. unfold out_limit_changed. cbn [sbind sget smodify fst].
  etransitivity; [|apply conditional_commit_ctl]. repeat split.
Qed.

#[local] Hint Resolve out_limit_changed_ctl : preserve.

(** Every handler but the input, the [dx] edit and the "HeNe laser" box
    leaves the controls, the input and the spacing alone. *)
Lemma handle_ctl ev :
  match ev with EvSetData _ | EvDx _ | EvHeNe _ => True | _ => preserves (@ctl_kept R) (handle ev) end.
Proof.
  destruct ev; try exact I; unfold handle, set_setting, setting_changed, autocommit_toggled;
    preserve. all: ctl_modify.
Qed.
End Frame.

(** ** The texts of the Info box

    A count printed by ['%d'] starts with a digit, so a description of a
    table never reads "No data on input.". *)

Section Labels.

(** The text starts with a character other than the "N" of
    [no_data_text]. *)
Definition starts_not_N (t : string) : Prop :=
  match t with String c _ => c <> "N"%char | EmptyString => False end.

Lemma pretty_N_char_not_N x : pretty_N_char x <> "N"%char.
Proof. unfold pretty_N_char. repeat case_match; discriminate. Qed.

Lemma pretty_N_go_starts x s : (0 < x)%N \/ starts_not_N s -> starts_not_N (pretty_N_go x s).
Proof.
  revert s. induction (N.lt_wf_0 x) as [x _ IH]; intros s Hs.
  destruct (decide (0 < x)%N) as [Hx|Hx].
  - rewrite pretty_N_go_step by exact Hx.
    apply IH; [apply N.div_lt; lia|right; apply pretty_N_char_not_N].
  - assert (x = 0)%N as -> by lia. rewrite pretty_N_go_0. destruct Hs; [lia|assumption].
Qed.

Lemma pretty_nat_starts (n : nat) : starts_not_N (pretty n).
Proof.
  cbv [pretty pretty_nat pretty_N]. case_decide; [cbn; discriminate|].
  apply pretty_N_go_starts. left. lia.
Qed.

Lemma starts_not_N_app t u : starts_not_N t -> starts_not_N (t +:+ u).
Proof. destruct t; [contradiction|exact id]. Qed.

Lemma infoa_text_ne {R} (X : list (list R)) t : infoa_text X t <> no_data_text.
Proof.
  intros E. pose proof (starts_not_N_app _ (" " +:+ t +:+ " interferogram(s)")
                          (pretty_nat_starts (length X))) as Hs.
  unfold infoa_text in E. rewrite E in Hs. apply Hs. reflexivity.
Qed.
End Labels.

Section Invariant.
Context {R : Type} `{Num R}.

Lemma controls_inv_kept (s s' : owfft R) : ctl_kept s s' -> controls_inv s -> controls_inv s'.
Proof.
  intros (Hu & Hd & Hh & _ & _) Hi. unfold controls_inv. rewrite Hu, Hd, Hh. exact Hi.
Qed.

Lemma hene_dx_kept (s s' : owfft R) : ctl_kept s s' -> hene_dx s -> hene_dx s'.
Proof. intros (_ & _ & Hh & Hx & Hl) Hs. unfold hene_dx. rewrite Hh, Hx, Hl. exact Hs. Qed.

(** [set_data]: a table whose sweeps are determined and named enables the
    boxes and is described in the Info box; otherwise the controls stay as
    they were; [None] disables the boxes and clears the Info box. *)
Lemma set_data_controls X (s : owfft R) :
  controls_inv s -> controls_inv (fst (set_data_handler X s)) /\
  (hene_dx s -> hene_dx (fst (set_data_handler X s))).
Proof.
  intros (Hdx & _ & Hinf). destruct X as [X|].
  - unfold set_data_handler. cbn [sbind smodify].
    assert (Hc0 : controls_inv (set_data (Some X) s)) by (split; [exact Hdx|split; [discriminate|exact Hinf]]).
    pose proof (determine_sweeps_ctl (set_data (Some X) s)) as Hd.
    destruct (determine_sweeps (set_data (Some X) s)) as [s1 [[]|e]] eqn:E; cbn [fst] in Hd.
    + rewrite (sbind_run _ _ _ _ _ E). cbn [sbind sget slift smodify].
      destruct (sweeps_text (sweeps s1)) as [t|e'].
      * (* the boxes are enabled and the table described, then [commit] *)
        destruct (controls_inv_kept _ _ Hd Hc0) as [Hdx1 _].
        split; [apply (controls_inv_kept _ _ (conditional_commit_ctl _))|
                intros Hh; apply (hene_dx_kept _ _ (conditional_commit_ctl _))].
        -- destruct Hd as (_ & Hd1 & _). split; [exact Hdx1|split].
           ++ intros _. cbn. rewrite Hd1. discriminate.
           ++ split; [intros _; apply infoa_text_ne|reflexivity].
        -- exact (hene_dx_kept _ _ Hd Hh).
      * cbn [fst]. split; [exact (controls_inv_kept _ _ Hd Hc0)|exact (hene_dx_kept _ _ Hd)].
    + (* [determine_sweeps] raised: the controls stay as they were *)
      rewrite (sbind_run_err _ _ _ _ _ E). cbn [fst].
      split; [exact (controls_inv_kept _ _ Hd Hc0)|exact (hene_dx_kept _ _ Hd)].
  - split; [split; [exact Hdx|split; [discriminate|]]|exact id].
    cbn. split; [discriminate|intros Hn; contradiction Hn; reflexivity].
Qed.

(** The "HeNe laser" box: [dx_changed] switches the [dx] edit to the new
    state of the box and, when it is checked, sets the HeNe spacing. *)
Lemma hene_controls b (s : owfft R) :
  controls_inv s -> controls_inv (fst (handle (EvHeNe b) s)) /\ hene_dx (fst (handle (EvHeNe b) s)).
Proof.
  intros (_ & Hb & Hinf). cbn [handle set_setting dx_changed sbind smodify sget].
  destruct b; cbn [dx_HeNe cfg set_dx_edit set_ui set_cfg upd_dx_HeNe sbind smodify sret].
  all: split; [apply (controls_inv_kept _ _ (conditional_commit_ctl _))|
               apply (hene_dx_kept _ _ (conditional_commit_ctl _))].
  all: unfold controls_inv, hene_dx; cbn.
  - split; [reflexivity|split; [exact Hb|exact Hinf]].
  - reflexivity.
  - split; [reflexivity|split; [exact Hb|exact Hinf]].
  - discriminate.
Qed.

(** The [dx] edit changes only [dx]. *)
Lemma dx_controls d (s : owfft R) :
  controls_inv s -> controls_inv (fst (handle (EvDx d) s)) /\
  (dx_HeNe (cfg s) = false -> hene_dx (fst (handle (EvDx d) s))).
Proof.
  intros Hi. cbn [handle set_setting setting_changed sbind smodify].
  split; [apply (controls_inv_kept _ _ (conditional_commit_ctl _)); exact Hi|intros Hf].
  apply (hene_dx_kept _ _ (conditional_commit_ctl _)). intros Ht. cbn in Ht. congruence.
Qed.

Lemma handle_controls ev (s : owfft R) : controls_inv s -> controls_inv (fst (handle ev s)).
Proof.
  intros Hi. pose proof (handle_ctl ev) as Hk. destruct ev.
  all: try exact (proj1 (set_data_controls _ s Hi)).
  all: try exact (proj1 (dx_controls _ s Hi)).
  all: try exact (proj1 (hene_controls _ s Hi)).
  all: exact (controls_inv_kept _ _ (Hk s) Hi).
Qed.

(** A step a user can take keeps the HeNe spacing: the only control that
    writes [dx] directly is disabled while the box is checked. *)
Lemma handle_hene_dx ev (s : owfft R) :
  controls_inv s -> ui_enabled s ev = true -> hene_dx s -> hene_dx (fst (handle ev s)).
Proof.
  intros Hi He Hh. pose proof (handle_ctl ev) as Hk. destruct ev.
  all: try exact (proj2 (set_data_controls _ s Hi) Hh).
  all: try exact (proj2 (hene_controls _ s Hi)).
  all: try exact (hene_dx_kept _ _ (Hk s) Hh).
  apply (proj2 (dx_controls _ s Hi)). destruct Hi as [Hdx _].
  cbn in He. apply andb_prop in He as [_ He]. rewrite Hdx in He. destruct (dx_HeNe (cfg s)); easy.
Qed.

Lemma init_controls_inv (c : settings R) : controls_inv (init_owfft c) /\ hene_dx (init_owfft c).
Proof.
  assert (Hinf : false = true <-> no_data_text <> no_data_text).
  { split; [discriminate|intros Hn; contradiction Hn; reflexivity]. }
  unfold init_owfft, init_controls. destruct (dx_HeNe c) eqn:E; cbn.
  all: unfold controls_inv, hene_dx; cbn; rewrite ?E.
  - split; [split; [reflexivity|split; [discriminate|exact Hinf]]|reflexivity].
  - split; [split; [reflexivity|split; [discriminate|exact Hinf]]|discriminate].
Qed.

Lemma reachable_controls_inv c (s : owfft R) : reachable c s -> controls_inv s.
Proof.
  induction 1 as [|s s' _ IH Hstep]; [exact (proj1 (init_controls_inv c))|].
  destruct Hstep as [ev s s' r _ Hh].
  pose proof (handle_controls ev s IH) as Hi. rewrite Hh in Hi. exact Hi.
Qed.
End Invariant.

Section Theorems.
Context {R : Type} `{Num R}.

(** C19: by rule induction over the steps, for every input: the [dx] edit
    is enabled exactly when "HeNe laser" is unchecked, and the "Input
    Data" and "FFT Options" boxes are enabled only while the widget holds
    data.  [__init__] disables the boxes and the edit with the box,
    [dx_changed] follows the box, and [set_data] enables the boxes only
    after storing a table (and disables them on [None]); after a table
    whose sweeps cannot be determined the boxes stay as they were. *)
Theorem reachable_controls c (s : owfft R) :
  reachable c s ->
  dx_edit_enabled (ui s) = negb (dx_HeNe (cfg s)) /\ (boxes_enabled (ui s) = true -> data s <> None).
Proof. intros Hr. destruct (reachable_controls_inv c s Hr) as (Hdx & Hb & _). split; assumption. Qed.

(** C20: by rule induction over the steps, for every input: the "Input
    Data" and "FFT Options" boxes are enabled exactly when the Info box
    describes a table instead of reading "No data on input.": [set_data]
    writes ['%d %s interferogram(s)'] (which starts with a digit) just
    before it enables the boxes, and on [None] it disables them and writes
    "No data on input."; nothing else touches either. *)
Theorem reachable_info_box c (s : owfft R) :
  reachable c s -> boxes_enabled (ui s) = true <-> infoa (ui s) <> no_data_text.
Proof. intros Hr. exact (proj2 (proj2 (reachable_controls_inv c s Hr))). Qed.

(** C21: receiving a table whose first row is classified, [set_data]
    writes ['%d %s interferogram(s)' % (X.shape[0], ["Single",
    "Forward-Backward"][self.sweeps])] and ['%d points each' % X.shape[1]]
    in the Info box and enables the boxes, whatever [commit] then does. *)
Theorem set_data_info (s : owfft R) row rest m :
  sweep_mode row = Ok m ->
  let s' := fst (set_data_handler (Some (row :: rest)) s) in
  infoa (ui s') = pretty (length (row :: rest)) +:+ " " +:+
                  (if m =? 0 then "Single" else "Forward-Backward") +:+ " interferogram(s)" /\
  infob (ui s') = pretty (length row) +:+ " points each" /\ boxes_enabled (ui s') = true.
Proof.
  intros Hm s'. subst s'. cbn [set_data_handler sbind smodify].
  assert (Hd : determine_sweeps (set_data (Some (row :: rest)) s) =
                 (set_sweeps (Some m) (set_data (Some (row :: rest)) s), Ok tt)).
  { unfold determine_sweeps. cbn [sbind sget slift smodify data set_data]. rewrite Hm. reflexivity. }
  rewrite (sbind_run _ _ _ _ _ Hd). cbn [sbind sget slift smodify sweeps set_sweeps].
  destruct (sweeps_text_01 m (sweep_mode_01 _ _ Hm)) as [t Ht]. rewrite Ht. cbv beta iota.
  destruct (conditional_commit_ctl (set_boxes true (set_info (infoa_text (row :: rest) t)
                                                 (infob_text (row :: rest))
                                                 (set_sweeps (Some m) (set_data (Some (row :: rest)) s))))) as [Hu _].
  rewrite Hu. cbn. unfold infoa_text, infob_text. split; [|split; reflexivity].
  apply sweep_mode_01 in Hm as [-> | ->]; cbn in Ht; injection Ht as <-; reflexivity.
Qed.

(** C18: in every state a user reaches through the enabled controls, with
    "HeNe laser" checked, the datapoint spacing the transforms use is
    [dx = 1.0 / laser_wavenumber / 2.0]: [__init__] and [dx_changed] set
    it, no handler changes the laser wavenumber, and the [dx] edit, the
    only control that writes [dx] otherwise, is disabled while the box is
    checked. *)
Theorem ui_reachable_hene_dx c (s : owfft R) :
  ui_reachable c s -> dx_HeNe (cfg s) = true ->
  dx (cfg s) = nlit 1.0 /. laser_wavenumber (cfg s) /. nlit 2.0.
Proof.
  intros Hr. enough (Hs : controls_inv s /\ hene_dx s) by exact (proj2 Hs).
  induction Hr as [|s s' _ [Hi Hh] Hstep]; [exact (init_controls_inv c)|].
  destruct Hstep as [ev s s' r _ He Hrun].
  pose proof (handle_controls ev s Hi) as Hi'. pose proof (handle_hene_dx ev s Hi He Hh) as Hh'.
  rewrite Hrun in Hi', Hh'. exact (conj Hi' Hh').
Qed.
End Theorems.

(** ** Witnesses on rationals *)

Section Witnesses.
Import QcNum.
Local Abbreviation q := QcNum.of_Z.

(** The two delta rows loaded into a widget with the Boxcar settings
    ("HeNe laser" unchecked): the boxes are enabled, the [dx] edit too. *)
Definition hene_loaded : owfft Qc :=
  fst (handle (EvSetData (Some delta_table)) (init_owfft boxcar_settings)).

Lemma reachable_controls_witness :
  dx_edit_enabled (ui hene_loaded) = negb (dx_HeNe (cfg hene_loaded)) /\
  (boxes_enabled (ui hene_loaded) = true -> data hene_loaded <> None).
Proof.
  apply (reachable_controls boxcar_settings).
  eapply reach_step; [apply reach_init|].
  apply (step_handle (EvSetData (Some delta_table)) _ _
           (snd (handle (EvSetData (Some delta_table)) (init_owfft boxcar_settings)))).
  - vm_compute. reflexivity.
  - apply surjective_pairing.
Defined.

(** The same load: the boxes are enabled, the Info box describes the
    table, and it reads "2 Single interferogram(s)", "6 points each". *)
Lemma reachable_info_box_witness :
  (boxes_enabled (ui hene_loaded) = true <-> infoa (ui hene_loaded) <> no_data_text).
Proof.
  apply (reachable_info_box boxcar_settings).
  eapply reach_step; [apply reach_init|].
  apply (step_handle (EvSetData (Some delta_table)) _ _
           (snd (handle (EvSetData (Some delta_table)) (init_owfft boxcar_settings)))).
  - vm_compute. reflexivity.
  - apply surjective_pairing.
Defined.

Lemma set_data_info_witness :
  infoa (ui hene_loaded) = "2 Single interferogram(s)" /\
  infob (ui hene_loaded) = "6 points each" /\ boxes_enabled (ui hene_loaded) = true.
Proof.
  destruct (set_data_info (init_owfft boxcar_settings) (delta_ifg 2 (q 5) 3) [delta_ifg 2 (q 5) 3] 0)
    as (Ha & Hb & Hc); [vm_compute; reflexivity|].
  split; [|split]; [etransitivity; [exact Ha|]|etransitivity; [exact Hb|]|exact Hc]; vm_compute; reflexivity.
Defined.

(** Then checking "HeNe laser": the spacing becomes [1 / 15797 / 2]. *)
Definition hene_checked : owfft Qc := fst (handle (EvHeNe true) hene_loaded).

Lemma ui_reachable_hene_dx_witness :
  dx (cfg hene_checked) = nlit 1.0 /. laser_wavenumber (cfg hene_checked) /. nlit 2.0.
Proof.
  apply (ui_reachable_hene_dx boxcar_settings).
  - eapply ui_reach_step; [eapply ui_reach_step; [apply ui_reach_init|]|].
    + apply (ui_step_handle (EvSetData (Some delta_table)) _ _
               (snd (handle (EvSetData (Some delta_table)) (init_owfft boxcar_settings)))).
      * vm_compute. reflexivity.
      * reflexivity.
      * apply surjective_pairing.
    + apply (ui_step_handle (EvHeNe true) _ _ (snd (handle (EvHeNe true) hene_loaded))).
      * reflexivity.
      * vm_compute. reflexivity.
      * apply surjective_pairing.
  - vm_compute. reflexivity.
Defined.
End Witnesses.
